(** * ESP8266 firmware updater ([fw/platforms/esp8266/src/esp_updater.c])

    A shallow embedding of the updater HAL of the ESP8266 port: the
    manifest interpreter ([mgos_upd_begin], [fill_file_part_info]), the
    per-file protocol ([mgos_upd_file_begin], [mgos_upd_file_data],
    [mgos_upd_file_end]), the erase-on-demand flash writer
    ([prepare_flash]), the checksum verifier ([verify_checksum]) and the
    boot configuration manager ([mgos_upd_finalize],
    [mgos_upd_boot_commit], [mgos_upd_boot_revert]).

    Conventions.
    - C integers are [Z]; unsigned 32-bit arithmetic is written with
      [wrap32], [uint8_t] stores with [wrap8], conversions to [int] with
      [int32].
    - [char] buffers are [list ascii].  For the string functions the end
      of a list reads as the terminating NUL; for [memcpy] the source list
      is all that can be read, and a copy that reads more has no defined
      result.
    - Struct fields keep their C names behind a prefix of the struct
      ([pi_] for [struct part_info], [fi_] for [struct file_info],
      [ufi_] for [struct mgos_upd_file_info]); the fields of
      [struct mgos_upd_ctx] and of [rboot_config] keep their names.
    - A pointer to one of the three [part_info] members of the context is
      a [part_ref]; a NULL pointer is [None].
    - Functions that may dereference NULL, fail an [assert] or read
      outside an object return [option]; [None] is the crash.  Loops
      carry fuel; running out of fuel is also [None].
    - Calls of the SDK that change the device (erase, write, load and
      store of the boot configuration) are appended to the trace of the
      [world]; flash reads and the watchdog feed do not change it and are
      not logged. *)

From Stdlib Require Import ZArith List String Ascii Lia Bool.
From stdpp Require Import base list.
Import ListNotations.
Local Open Scope Z_scope.

(** ** Machine integers *)

Definition wrap32 (x : Z) : Z := x mod 2 ^ 32.
Definition wrap8 (x : Z) : Z := x mod 2 ^ 8.
(** Conversion of a 32-bit pattern to [int]. *)
Definition int32 (x : Z) : Z := (x + 2 ^ 31) mod 2 ^ 32 - 2 ^ 31.

(** ** Constants *)

Definition SHA1SUM_LEN : Z := 40.
Definition FW_SLOT_SIZE : Z := 0x100000.
Definition UPDATER_MIN_BLOCK_SIZE : Z := 2048.

(** Modelled from the spec: [FLASH_SECTOR_SIZE] is defined in an SDK
    header that is not part of the sources; the spec gives one sector as
    4 KiB. *)
Definition FLASH_SECTOR_SIZE : Z := 4096.
(** Modelled from the spec: [FLASH_ERASE_BLOCK_SIZE] is defined in an SDK
    header that is not part of the sources; the spec gives one block as
    64 KiB. *)
Definition FLASH_ERASE_BLOCK_SIZE : Z := 65536.

(** ** C strings and buffers *)

Definition NUL : ascii := ascii_of_nat 0.
Definition code (c : ascii) : Z := Z.of_nat (nat_of_ascii c).

Definition tolower (c : ascii) : ascii :=
  if (65 <=? code c) && (code c <=? 90)
  then ascii_of_nat (nat_of_ascii c + 32) else c.

(** [strcmp]: the end of a list is the terminator. *)
Fixpoint strcmp (a b : list ascii) : Z :=
  match a, b with
  | [], [] => 0
  | x :: _, [] => code x
  | [], y :: _ => - code y
  | x :: a', y :: b' =>
      if negb (code x =? code y) then code x - code y
      else if code x =? 0 then 0 else strcmp a' b'
  end.

(** [strncasecmp a b n]. *)
Fixpoint strncasecmp (a b : list ascii) (n : nat) : Z :=
  match n with
  | O => 0
  | S n' =>
      let x := tolower (hd NUL a) in
      let y := tolower (hd NUL b) in
      if negb (code x =? code y) then code x - code y
      else if code x =? 0 then 0 else strncasecmp (tl a) (tl b) n'
  end.

(** [memcpy dst src n]: the first [n] cells of [dst] are replaced by the
    first [n] cells of [src].  [src] is the memory that can be read from
    the source pointer on; when it holds fewer than [n] cells the copy
    reads beyond the object it was given, which has no defined result
    ([None]).  A copy longer than [dst] gives a buffer longer than [dst]
    was. *)
Definition memcpy {A} (dst src : list A) (n : nat) : option (list A) :=
  if (n <=? List.length src)%nat then Some (firstn n src ++ skipn n dst)
  else None.

(** ** Data model *)

Record file_info := mk_file_info {
  fi_sha1_sum : list ascii;   (* char sha1_sum[40] *)
  fi_file_name : list ascii;  (* char file_name[50] *)
  fi_size : Z;                (* uint32_t size *)
  fi_file : Z                 (* spiffs_file file *)
}.

Record part_info := mk_part_info {
  pi_addr : Z;                (* uint32_t addr *)
  pi_size : Z;                (* int size *)
  pi_done : Z;                (* int done *)
  pi_fi : file_info
}.

(** The three [part_info] members of the context, as pointer targets. *)
Inductive part_ref := FwPart | FsPart | FsDirPart.

Record mgos_upd_ctx := mk_ctx {
  fw_part : part_info;
  fs_part : part_info;
  fs_dir_part : part_info;
  slot_to_write : Z;                  (* int *)
  current_part : option part_ref;     (* struct part_info * *)
  current_write_address : Z;          (* uint32_t *)
  erased_till : Z;                    (* uint32_t *)
  status_msg : option string          (* const char * *)
}.

(** [struct mgos_upd_file_info] of the updater HAL (name, declared size
    and bytes processed so far), as the functions below use it. *)
Record mgos_upd_file_info := mk_upd_file_info {
  ufi_name : list ascii;
  ufi_size : Z;
  ufi_processed : Z
}.

Inductive mgos_upd_file_action :=
| MGOS_UPDATER_SKIP_FILE
| MGOS_UPDATER_PROCESS_FILE
| MGOS_UPDATER_ABORT.

(** The fields of rBoot's configuration that the updater uses. *)
Record rboot_config := mk_rboot_config {
  current_rom : Z;            (* uint8_t *)
  previous_rom : Z;           (* uint8_t *)
  fs_addresses : list Z;
  fs_sizes : list Z;
  roms : list Z;
  roms_sizes : list Z;
  is_first_boot : Z;
  fw_updated : Z;
  user_flags : Z;
  boot_attempts : Z
}.

(** A string token of the manifest: [tok_ptr] is the memory of the
    manifest from [ptr] to its end, of which the first [tok_len]
    characters are the token. *)
Record json_token := mk_json_token {
  tok_ptr : list ascii;
  tok_len : Z
}.

Definition JSON_INVALID_TOKEN : json_token := mk_json_token [] 0.

(** What [json_scanf] with the format
    [{addr: %u, cs_sha1: %T, src: %T, size: %d}] finds in the token of one
    part; a key that is absent leaves its destination as it was. *)
Record part_token := mk_part_token {
  t_addr : option Z;
  t_cs_sha1 : option json_token;
  t_src : option json_token;
  t_size : option Z
}.

(** What [json_scanf] with [{fw: %T, fs: %T, fs_dir: %T}] finds in the
    manifest; [None] leaves the token invalid. *)
Record manifest_parts := mk_manifest_parts {
  m_fw : option part_token;
  m_fs : option part_token;
  m_fs_dir : option part_token
}.

Definition invalid_part_token : part_token :=
  mk_part_token None None None None.

(** ** Field updates *)

Definition set_fi_size (f : file_info) (v : Z) : file_info :=
  mk_file_info (fi_sha1_sum f) (fi_file_name f) v (fi_file f).
Definition set_fi_sha1_sum (f : file_info) (v : list ascii) : file_info :=
  mk_file_info v (fi_file_name f) (fi_size f) (fi_file f).
Definition set_fi_file_name (f : file_info) (v : list ascii) : file_info :=
  mk_file_info (fi_sha1_sum f) v (fi_size f) (fi_file f).

Definition set_pi_addr (p : part_info) (v : Z) : part_info :=
  mk_part_info v (pi_size p) (pi_done p) (pi_fi p).
Definition set_pi_size (p : part_info) (v : Z) : part_info :=
  mk_part_info (pi_addr p) v (pi_done p) (pi_fi p).
Definition set_pi_done (p : part_info) (v : Z) : part_info :=
  mk_part_info (pi_addr p) (pi_size p) v (pi_fi p).
Definition set_pi_fi (p : part_info) (v : file_info) : part_info :=
  mk_part_info (pi_addr p) (pi_size p) (pi_done p) v.

Definition get_part (ctx : mgos_upd_ctx) (r : part_ref) : part_info :=
  match r with
  | FwPart => fw_part ctx
  | FsPart => fs_part ctx
  | FsDirPart => fs_dir_part ctx
  end.

Definition set_part (ctx : mgos_upd_ctx) (r : part_ref) (p : part_info)
  : mgos_upd_ctx :=
  match r with
  | FwPart =>
      mk_ctx p (fs_part ctx) (fs_dir_part ctx) (slot_to_write ctx)
        (current_part ctx) (current_write_address ctx) (erased_till ctx)
        (status_msg ctx)
  | FsPart =>
      mk_ctx (fw_part ctx) p (fs_dir_part ctx) (slot_to_write ctx)
        (current_part ctx) (current_write_address ctx) (erased_till ctx)
        (status_msg ctx)
  | FsDirPart =>
      mk_ctx (fw_part ctx) (fs_part ctx) p (slot_to_write ctx)
        (current_part ctx) (current_write_address ctx) (erased_till ctx)
        (status_msg ctx)
  end.

Definition set_slot_to_write (ctx : mgos_upd_ctx) (v : Z) : mgos_upd_ctx :=
  mk_ctx (fw_part ctx) (fs_part ctx) (fs_dir_part ctx) v
    (current_part ctx) (current_write_address ctx) (erased_till ctx)
    (status_msg ctx).
Definition set_current_part (ctx : mgos_upd_ctx) (v : option part_ref)
  : mgos_upd_ctx :=
  mk_ctx (fw_part ctx) (fs_part ctx) (fs_dir_part ctx) (slot_to_write ctx)
    v (current_write_address ctx) (erased_till ctx) (status_msg ctx).
Definition set_current_write_address (ctx : mgos_upd_ctx) (v : Z)
  : mgos_upd_ctx :=
  mk_ctx (fw_part ctx) (fs_part ctx) (fs_dir_part ctx) (slot_to_write ctx)
    (current_part ctx) v (erased_till ctx) (status_msg ctx).
Definition set_erased_till (ctx : mgos_upd_ctx) (v : Z) : mgos_upd_ctx :=
  mk_ctx (fw_part ctx) (fs_part ctx) (fs_dir_part ctx) (slot_to_write ctx)
    (current_part ctx) (current_write_address ctx) v (status_msg ctx).
Definition set_status_msg (ctx : mgos_upd_ctx) (v : string) : mgos_upd_ctx :=
  mk_ctx (fw_part ctx) (fs_part ctx) (fs_dir_part ctx) (slot_to_write ctx)
    (current_part ctx) (current_write_address ctx) (erased_till ctx)
    (Some v).

(** ** The device *)

Inductive event :=
| EvEraseSector (sec_no : Z)
| EvEraseBlock (block_no : Z)
| EvWrite (addr : Z) (data : list Z)
| EvGetConfig
| EvSetConfig (cfg : rboot_config).

(** The SDK, rBoot and hash functions the updater calls.  Result codes are
    those of the C functions (0 is success for the flash driver). *)
Class Platform := {
  flash : Type;
  spi_flash_read : flash -> Z -> Z -> Z * list Z;
  spi_flash_write : flash -> Z -> list Z -> Z * flash;
  spi_flash_erase_sector : flash -> Z -> Z * flash;
  SPIEraseBlock : flash -> Z -> Z * flash;
  rboot_get_config : flash -> rboot_config;
  rboot_set_config : flash -> rboot_config -> flash;
  cs_sha1 : list Z -> list Z;
  bin2hex : list Z -> list ascii
}.

Section Updater.
Context `{P : Platform}.

(** The state outside the update context: the flash chip with the boot
    configuration sector, the calls made so far, the [static] pointer of
    [get_rboot_config] ([None] is NULL) with the configuration it points
    to, whether [malloc] succeeds, and the value an uninitialised
    [uint32_t] local holds. *)
Record world := mk_world {
  hw : flash;
  trace : list event;
  cfg_cache : option rboot_config;
  malloc_ok : bool;
  uninit : Z
}.

Definition log (w : world) (e : event) : world :=
  mk_world (hw w) (trace w ++ [e]) (cfg_cache w) (malloc_ok w) (uninit w).
Definition set_hw (w : world) (h : flash) : world :=
  mk_world h (trace w) (cfg_cache w) (malloc_ok w) (uninit w).
Definition set_cfg_cache (w : world) (c : rboot_config) : world :=
  mk_world (hw w) (trace w) (Some c) (malloc_ok w) (uninit w).

(** [get_rboot_config]: the configuration is loaded from flash on the
    first call and the same object is handed out ever after. *)
Definition get_rboot_config (w : world) : option rboot_config * world :=
  match cfg_cache w with
  | Some cfg => (Some cfg, w)
  | None =>
      if malloc_ok w then
        let cfg := rboot_get_config (hw w) in
        (Some cfg, set_cfg_cache (log w EvGetConfig) cfg)
      else (None, w)
  end.

(** [rboot_set_config(cfg)] after the object behind the static pointer was
    changed to [cfg]. *)
Definition store_config (w : world) (cfg : rboot_config) : world :=
  set_hw (log (set_cfg_cache w cfg) (EvSetConfig cfg))
         (rboot_set_config (hw w) cfg).

(** [get_fs_size(uint8_t rom)]: the argument is converted to 8 bits.
    [None] is a read through the NULL pointer or outside the array. *)
Definition get_fs_size (rom : Z) (w : world) : option Z * world :=
  match get_rboot_config w with
  | (Some cfg, w1) => (fs_sizes cfg !! Z.to_nat (wrap8 rom), w1)
  | (None, w1) => (None, w1)
  end.

Definition mgos_upd_ctx_create : mgos_upd_ctx :=
  let zero_fi := mk_file_info (repeat NUL 40) (repeat NUL 50) 0 0 in
  let zero_pi := mk_part_info 0 0 0 zero_fi in
  mk_ctx zero_pi zero_pi zero_pi 0 None 0 0 None.

Definition mgos_upd_get_status_msg (ctx : mgos_upd_ctx) : option string :=
  status_msg ctx.

(** ** Manifest interpreter *)

(** [fill_file_part_info(ctx, tok, part_name, pi)].  [addr0] is what the
    local [addr] holds before [json_scanf] runs; [part_name] is only
    logged and is left out, as are all [LOG] calls.  The digest is copied
    with the size of the buffer, 40, whatever the length of the token is;
    [None] is a copy that reads beyond the manifest. *)
Definition fill_file_part_info (addr0 : Z) (ctx : mgos_upd_ctx)
    (tok : option part_token) (pi : part_ref)
  : option (Z * mgos_upd_ctx) :=
  let t := match tok with Some t => t | None => invalid_part_token end in
  let addr := match t_addr t with Some a => wrap32 a | None => addr0 end in
  let sha :=
    match t_cs_sha1 t with Some s => s | None => JSON_INVALID_TOKEN end in
  let src :=
    match t_src t with Some s => s | None => JSON_INVALID_TOKEN end in
  let ctx :=
    match t_size t with
    | Some s => set_part ctx pi (set_pi_size (get_part ctx pi) s)
    | None => ctx
    end in
  let ctx :=
    set_part ctx pi
      (set_pi_addr (get_part ctx pi)
         (wrap32 (addr + slot_to_write ctx * FW_SLOT_SIZE))) in
  if tok_len sha =? 0 then Some (-1, ctx)
  else
    let p := get_part ctx pi in
    match memcpy (fi_sha1_sum (pi_fi p)) (tok_ptr sha) 40 with
    | None => None
    | Some sha1_sum =>
        let ctx :=
          set_part ctx pi (set_pi_fi p (set_fi_sha1_sum (pi_fi p) sha1_sum)) in
        if (tok_len src <=? 0) || (tok_len src >=? 50) then Some (-1, ctx)
        else
          let p := get_part ctx pi in
          match memcpy (fi_file_name (pi_fi p)) (tok_ptr src)
                  (Z.to_nat (tok_len src)) with
          | None => None
          | Some file_name =>
              Some (1,
                    set_part ctx pi
                      (set_pi_fi p (set_fi_file_name (pi_fi p) file_name)))
          end
    end.

Definition mgos_upd_begin (ctx : mgos_upd_ctx) (parts : manifest_parts)
    (w : world) : option (Z * mgos_upd_ctx * world) :=
  match get_rboot_config w with
  | (None, w) =>
      Some (-1, set_status_msg ctx "Failed to get rBoot config", w)
  | (Some cfg, w) =>
      let ctx :=
        set_slot_to_write ctx (if current_rom cfg =? 0 then 1 else 0) in
      match fill_file_part_info (uninit w) ctx (m_fw parts) FwPart with
      | None => None
      | Some (r, ctx) =>
          let fw_part_present := r >=? 0 in
          if negb fw_part_present then
            Some (-1, set_status_msg ctx "Firmware part is missing", w)
          else
            match fill_file_part_info (uninit w) ctx (m_fs parts) FsPart with
            | None => None
            | Some (r, ctx) =>
                if r <? 0 then
                  Some (-1, set_status_msg ctx "FS part is missing", w)
                else Some (1, ctx, w)
            end
      end
  end.

(** ** Checksum verifier *)

(** The end of [verify_checksum], after the loop: [sha] is what was fed
    to [cs_sha1_update]. *)
Definition verify_checksum_compare (sha : list Z)
    (provided_checksum : list ascii) : Z :=
  let written_checksum := bin2hex (cs_sha1 sha) in
  if negb (strncasecmp written_checksum provided_checksum
             (Z.to_nat SHA1SUM_LEN) =? 0)
  then -1 else 1.

(** The [while (len != 0)] loop of [verify_checksum] and what follows
    it. *)
Fixpoint verify_checksum_loop (fuel : nat) (h : flash) (sha : list Z)
    (addr len : Z) (provided_checksum : list ascii) : option Z :=
  if len =? 0 then Some (verify_checksum_compare sha provided_checksum)
  else
    match fuel with
    | O => None
    | S fuel =>
        let to_read := if len >? 4 * 100 then 4 * 100 else len in
        let '(rc, read_buf) := spi_flash_read h addr to_read in
        if negb (rc =? 0) then Some (-1)
        else
          verify_checksum_loop fuel h
            (sha ++ firstn (Z.to_nat to_read) read_buf)
            (wrap32 (addr + to_read)) (len - to_read) provided_checksum
    end.

(** Every round reads at least one byte, so [len] rounds are enough. *)
Definition verify_checksum (h : flash) (addr len : Z)
    (provided_checksum : list ascii) : option Z :=
  verify_checksum_loop (Z.to_nat len) h [] addr len provided_checksum.

(** ** Part / file state machine *)

Definition prepare_to_write (ctx : mgos_upd_ctx) (fi : mgos_upd_file_info)
    (part : part_ref) (w : world) : option (Z * mgos_upd_ctx * world) :=
  if negb (pi_done (get_part ctx part) =? 0) then Some (0, ctx, w)
  else
    let ctx := set_current_part ctx (Some part) in
    let p := get_part ctx part in
    let ctx :=
      set_part ctx part (set_pi_fi p (set_fi_size (pi_fi p) (ufi_size fi))) in
    let p := get_part ctx part in
    let ctx := set_current_write_address ctx (pi_addr p) in
    let ctx := set_erased_till ctx (pi_addr p) in
    match verify_checksum (hw w) (pi_addr p) (ufi_size fi)
            (fi_sha1_sum (pi_fi p)) with
    | None => None
    | Some r =>
        if r =? 1 then Some (0, set_part ctx part (set_pi_done p 1), w)
        else Some (1, ctx, w)
    end.

Definition mgos_upd_file_begin (ctx : mgos_upd_ctx)
    (fi : mgos_upd_file_info) (w : world)
  : option (mgos_upd_file_action * mgos_upd_ctx * world) :=
  let ctx := set_status_msg ctx "Failed to update file" in
  let finish (res : option (Z * mgos_upd_ctx * world)) :=
    match res with
    | None => None
    | Some (ret, ctx, w) =>
        if ret <? 0 then Some (MGOS_UPDATER_ABORT, ctx, w)
        else Some (if ret =? 0 then MGOS_UPDATER_SKIP_FILE
                   else MGOS_UPDATER_PROCESS_FILE, ctx, w)
    end in
  if strcmp (ufi_name fi) (fi_file_name (pi_fi (fw_part ctx))) =? 0 then
    finish (prepare_to_write ctx fi FwPart w)
  else if strcmp (ufi_name fi) (fi_file_name (pi_fi (fs_part ctx))) =? 0 then
    finish (prepare_to_write ctx fi FsPart w)
  else Some (MGOS_UPDATER_SKIP_FILE, ctx, w).

(** ** Flash writer *)

(** One round of the loop of [prepare_flash]: erase the block or the
    sector that holds [erased_till].  The result code is that of the
    erase call. *)
Definition prepare_flash_erase (ctx : mgos_upd_ctx) (w : world)
  : option (Z * mgos_upd_ctx * world) :=
  let sec_no := erased_till ctx / FLASH_SECTOR_SIZE in
  let sector :=
    let '(rc, h) := spi_flash_erase_sector (hw w) sec_no in
    let w := set_hw (log w (EvEraseSector sec_no)) h in
    if negb (rc =? 0) then Some (rc, ctx, w)
    else
      Some (0,
            set_erased_till ctx (wrap32 ((sec_no + 1) * FLASH_SECTOR_SIZE)),
            w) in
  if erased_till ctx mod FLASH_ERASE_BLOCK_SIZE =? 0 then
    match current_part ctx with
    | None => None
    | Some cp =>
        let part := get_part ctx cp in
        if wrap32 (pi_addr part + fi_size (pi_fi part))
             >=? wrap32 (erased_till ctx + FLASH_ERASE_BLOCK_SIZE)
        then
          let block_no := erased_till ctx / FLASH_ERASE_BLOCK_SIZE in
          let '(rc, h) := SPIEraseBlock (hw w) block_no in
          let w := set_hw (log w (EvEraseBlock block_no)) h in
          if negb (rc =? 0) then Some (rc, ctx, w)
          else Some (0, set_erased_till ctx
                          (wrap32 ((block_no + 1) * FLASH_ERASE_BLOCK_SIZE)), w)
        else sector
    end
  else sector.

Fixpoint prepare_flash (fuel : nat) (ctx : mgos_upd_ctx)
    (bytes_to_write : Z) (w : world) : option (Z * mgos_upd_ctx * world) :=
  if wrap32 (current_write_address ctx + bytes_to_write) >? erased_till ctx
  then
    match fuel with
    | O => None
    | S fuel =>
        match prepare_flash_erase ctx w with
        | None => None
        | Some (rc, ctx, w) =>
            if negb (rc =? 0) then Some (-1, ctx, w)
            else prepare_flash fuel ctx bytes_to_write w
        end
    end
  else Some (1, ctx, w).

Definition mgos_upd_file_data (fuel : nat) (ctx : mgos_upd_ctx)
    (fi : mgos_upd_file_info) (data : list Z) (w : world)
  : option (Z * mgos_upd_ctx * world) :=
  let data_len := Z.of_nat (List.length data) in
  if (data_len <? UPDATER_MIN_BLOCK_SIZE)
     && (wrap32 (ufi_size fi - ufi_processed fi) >? UPDATER_MIN_BLOCK_SIZE)
  then Some (0, ctx, w)
  else
    match prepare_flash fuel ctx data_len w with
    | None => None
    | Some (r, ctx, w) =>
        if r <? 0 then Some (-1, set_status_msg ctx "Failed to erase flash", w)
        else
          let bytes_to_write_aligned := Z.land data_len (wrap32 (-4)) in
          let aligned_write :=
            if bytes_to_write_aligned >? 0 then
              let addr := current_write_address ctx in
              let buf := firstn (Z.to_nat bytes_to_write_aligned) data in
              let '(rc, h) := spi_flash_write (hw w) addr buf in
              let w := set_hw (log w (EvWrite addr buf)) h in
              if negb (rc =? 0) then inl (ctx, w)
              else
                inr (skipn (Z.to_nat bytes_to_write_aligned) data,
                     data_len - bytes_to_write_aligned,
                     set_current_write_address ctx
                       (wrap32 (addr + bytes_to_write_aligned)),
                     w, int32 bytes_to_write_aligned)
            else inr (data, data_len, ctx, w, 0) in
          match aligned_write with
          | inl (ctx, w) =>
              Some (-1, set_status_msg ctx "Failed to write to flash", w)
          | inr (data_p, data_len, ctx, w, bytes_processed) =>
              let rest :=
                wrap32 (ufi_size fi - ufi_processed fi
                        - bytes_to_write_aligned) in
              if (rest >? 0) && (rest <? 4) && (data_len >=? 4) then
                match memcpy [0xFF; 0xFF; 0xFF; 0xFF] data_p
                        (Z.to_nat rest) with
                | None => None
                | Some align_buf =>
                    let addr := current_write_address ctx in
                    let '(rc, h) := spi_flash_write (hw w) addr align_buf in
                    let w := set_hw (log w (EvWrite addr align_buf)) h in
                    if negb (rc =? 0) then
                      Some (-1,
                            set_status_msg ctx "Failed to write to flash", w)
                    else Some (int32 (bytes_processed + rest), ctx, w)
                end
              else Some (bytes_processed, ctx, w)
          end
    end.

Definition mgos_upd_file_end (ctx : mgos_upd_ctx) (fi : mgos_upd_file_info)
    (tail : list Z) (w : world) : option (Z * mgos_upd_ctx * world) :=
  let tail_len := Z.of_nat (List.length tail) in
  if negb (tail_len =? 0) then None
  else
    match current_part ctx with
    | None => None
    | Some cp =>
        let part := get_part ctx cp in
        match verify_checksum (hw w) (pi_addr part) (ufi_size fi)
                (fi_sha1_sum (pi_fi part)) with
        | None => None
        | Some r =>
            if r <? 0 then Some (-1, set_status_msg ctx "Invalid checksum", w)
            else Some (tail_len, set_part ctx cp (set_pi_done part 1), w)
        end
    end.

(** ** Boot configuration manager *)

Definition mgos_upd_finalize (ctx : mgos_upd_ctx) (w : world)
  : option (Z * mgos_upd_ctx * world) :=
  if pi_done (fw_part ctx) =? 0 then
    Some (-1, set_status_msg ctx "Missing fw part", w)
  else if (pi_done (fs_part ctx) =? 0) && (pi_done (fs_dir_part ctx) =? 0) then
    Some (-2, set_status_msg ctx "Missing fs part", w)
  else
    match get_rboot_config w with
    | (None, _) => None
    | (Some cfg, w) =>
        if slot_to_write ctx =? current_rom cfg then
          let cfg :=
            mk_rboot_config (current_rom cfg) (previous_rom cfg)
              (fs_addresses cfg) (fs_sizes cfg) (roms cfg) (roms_sizes cfg)
              (is_first_boot cfg) (fw_updated cfg) 1 (boot_attempts cfg) in
          Some (1, ctx, store_config w cfg)
        else
          let previous_rom' := current_rom cfg in
          let current_rom' := wrap8 (slot_to_write ctx) in
          let i := Z.to_nat current_rom' in
          let cfg :=
            mk_rboot_config current_rom' previous_rom'
              (<[i := pi_addr (fs_part ctx)]> (fs_addresses cfg))
              (<[i := fi_size (pi_fi (fs_part ctx))]> (fs_sizes cfg))
              (<[i := pi_addr (fw_part ctx)]> (roms cfg))
              (<[i := fi_size (pi_fi (fw_part ctx))]> (roms_sizes cfg))
              1 1 1 0 in
          Some (1, ctx, store_config w cfg)
    end.

Definition mgos_upd_boot_commit (w : world) : option world :=
  match get_rboot_config w with
  | (None, _) => None
  | (Some cfg, w) =>
      if fw_updated cfg =? 0 then Some w
      else
        let cfg :=
          mk_rboot_config (current_rom cfg) (previous_rom cfg)
            (fs_addresses cfg) (fs_sizes cfg) (roms cfg) (roms_sizes cfg)
            0 0 (user_flags cfg) (boot_attempts cfg) in
        Some (store_config w cfg)
  end.

Definition mgos_upd_boot_revert (w : world) : option world :=
  match get_rboot_config w with
  | (None, _) => None
  | (Some cfg, w) =>
      if fw_updated cfg =? 0 then Some w
      else
        let cfg :=
          mk_rboot_config (previous_rom cfg) (previous_rom cfg)
            (fs_addresses cfg) (fs_sizes cfg) (roms cfg) (roms_sizes cfg)
            0 0 (user_flags cfg) (boot_attempts cfg) in
        Some (store_config w cfg)
  end.

End Updater.

(** ** A simulated device

    A small instance of [Platform] on which the functions can be run:
    flash is a finite table of programmed bytes (a cell that is absent
    reads as the erased value [0xFF]), every driver call succeeds, and
    the digest is an additive checksum in the first of 20 bytes, standing
    in for SHA-1. *)
Module Sim.

Record sim_flash := mk_sim_flash {
  cells : list (Z * Z);
  boot_sector : rboot_config
}.

Fixpoint read_cell (m : list (Z * Z)) (a : Z) : Z :=
  match m with
  | [] => 0xFF
  | (k, v) :: m' => if k =? a then v else read_cell m' a
  end.

Definition read (h : sim_flash) (addr n : Z) : Z * list Z :=
  (0, List.map (fun i => read_cell (cells h) (addr + Z.of_nat i))
        (seq 0 (Z.to_nat n))).

Fixpoint program (m : list (Z * Z)) (addr : Z) (data : list Z)
  : list (Z * Z) :=
  match data with
  | [] => m
  | b :: data' => (addr, b) :: program m (addr + 1) data'
  end.

Definition write (h : sim_flash) (addr : Z) (data : list Z) : Z * sim_flash :=
  (0, mk_sim_flash (program (cells h) addr data) (boot_sector h)).

Definition erase (h : sim_flash) (lo hi : Z) : Z * sim_flash :=
  (0, mk_sim_flash
        (List.filter (fun kv => negb ((lo <=? fst kv) && (fst kv <? hi)))
           (cells h))
        (boot_sector h)).

Definition hex_digit (n : Z) : ascii :=
  if n <? 10 then ascii_of_nat (Z.to_nat (48 + n))
  else ascii_of_nat (Z.to_nat (87 + n)).

Fixpoint hex (l : list Z) : list ascii :=
  match l with
  | [] => []
  | b :: l' => hex_digit (b / 16) :: hex_digit (b mod 16) :: hex l'
  end.

Definition digest (l : list Z) : list Z :=
  (fold_right Z.add 0 l mod 256) :: repeat 0 19.

#[export] Instance platform : Platform := {|
  flash := sim_flash;
  spi_flash_read := read;
  spi_flash_write := write;
  spi_flash_erase_sector h sec_no :=
    erase h (sec_no * FLASH_SECTOR_SIZE) ((sec_no + 1) * FLASH_SECTOR_SIZE);
  SPIEraseBlock h block_no :=
    erase h (block_no * FLASH_ERASE_BLOCK_SIZE)
            ((block_no + 1) * FLASH_ERASE_BLOCK_SIZE);
  rboot_get_config := boot_sector;
  rboot_set_config h cfg := mk_sim_flash (cells h) cfg;
  cs_sha1 := digest;
  bin2hex := hex
|}.

Definition chars (s : string) : list ascii := list_ascii_of_string s.

(** The 40 hex digits of a digest whose first byte is written [s]. *)
Definition digest_text (s : string) : list ascii :=
  chars s ++ repeat "0"%char 38.

(** Slot 0 is running; no update is pending. *)
Definition cfg0 : rboot_config :=
  mk_rboot_config 0 1 [0x6d000; 0x16d000] [0x10000; 0x10000]
    [0x1000; 0x101000] [0x6c000; 0x6c000] 0 0 0 0.

(** Freshly booted: nothing cached yet, flash erased. *)
Definition w0 : @world platform :=
  mk_world (mk_sim_flash [] cfg0) [] None true 0.

(** A manifest with a six-byte firmware image and a four-byte file system
    image.  The expected digests are those of the data in [fw_data] and
    [fs_data]. *)
Definition fw_data : list Z := [1; 2; 3; 4; 5; 6].
Definition fs_data : list Z := [7; 7; 7; 7].

Definition fw_token : part_token :=
  mk_part_token (Some 0x1000) (Some (mk_json_token (digest_text "15") 40))
    (Some (mk_json_token (chars "fw.bin") 6)) (Some 6).
Definition fs_token : part_token :=
  mk_part_token (Some 0x6d000) (Some (mk_json_token (digest_text "1C") 40))
    (Some (mk_json_token (chars "fs.bin") 6)) (Some 4).

Definition manifest : manifest_parts :=
  mk_manifest_parts (Some fw_token) (Some fs_token) None.

Definition fw_file (processed : Z) : mgos_upd_file_info :=
  mk_upd_file_info (chars "fw.bin") 6 processed.
Definition fs_file (processed : Z) : mgos_upd_file_info :=
  mk_upd_file_info (chars "fs.bin") 4 processed.

End Sim.

(** ** Vocabulary of the properties *)

Definition is_get_config (e : event) : bool :=
  match e with EvGetConfig => true | _ => false end.

Definition is_set_config (e : event) : bool :=
  match e with EvSetConfig _ => true | _ => false end.

Definition is_erase_or_write (e : event) : bool :=
  match e with
  | EvEraseSector _ | EvEraseBlock _ | EvWrite _ _ => true
  | _ => false
  end.

(** Number of bytes handed to [spi_flash_write] in a trace. *)
Fixpoint written_bytes (t : list event) : Z :=
  match t with
  | [] => 0
  | EvWrite _ data :: t' => Z.of_nat (List.length data) + written_bytes t'
  | _ :: t' => written_bytes t'
  end.

(** The flash range [lo, hi) an erase call clears. *)
Definition erased_region (e : event) : option (Z * Z) :=
  match e with
  | EvEraseSector n => Some (n * FLASH_SECTOR_SIZE, (n + 1) * FLASH_SECTOR_SIZE)
  | EvEraseBlock n =>
      Some (n * FLASH_ERASE_BLOCK_SIZE, (n + 1) * FLASH_ERASE_BLOCK_SIZE)
  | _ => None
  end.

(** A part of the manifest that [fill_file_part_info] accepts and whose
    address stays inside the 32-bit flash address space in either slot. *)
Definition valid_part_token (t : part_token) (a : Z) : Prop :=
  t_addr t = Some a /\ 0 <= a /\ a + FW_SLOT_SIZE < 2 ^ 32 /\
  (exists sha, t_cs_sha1 t = Some sha /\ tok_len sha <> 0) /\
  (exists src, t_src t = Some src /\ 0 < tok_len src < 50).

(** What [fill_file_part_info] reads of the manifest for a part lies
    inside the manifest: when the digest token is not empty, the 40
    characters from its start on, and then, when the [src] token has 1 to
    49 characters, these characters. *)
Definition reads_in_bounds (tok : option part_token) : Prop :=
  let t := match tok with Some t => t | None => invalid_part_token end in
  let sha :=
    match t_cs_sha1 t with Some s => s | None => JSON_INVALID_TOKEN end in
  let src :=
    match t_src t with Some s => s | None => JSON_INVALID_TOKEN end in
  tok_len sha <> 0 ->
  (40 <= List.length (tok_ptr sha))%nat /\
  (0 < tok_len src < 50 ->
   (Z.to_nat (tok_len src) <= List.length (tok_ptr src))%nat).

(** The part [mgos_upd_file_begin] selects for a file: the firmware part
    if the name is that of its source file, else the file system part if
    the name is that of its source file, else none. *)
Definition matching_part (ctx : mgos_upd_ctx) (fi : mgos_upd_file_info)
  : option part_ref :=
  if strcmp (ufi_name fi) (fi_file_name (pi_fi (fw_part ctx))) =? 0
  then Some FwPart
  else if strcmp (ufi_name fi) (fi_file_name (pi_fi (fs_part ctx))) =? 0
  then Some FsPart
  else None.

(** [ctx'] differs from [ctx] at most in the two cursors and the status
    message. *)
Definition same_parts (ctx ctx' : mgos_upd_ctx) : Prop :=
  fw_part ctx' = fw_part ctx /\ fs_part ctx' = fs_part ctx /\
  fs_dir_part ctx' = fs_dir_part ctx /\
  current_part ctx' = current_part ctx /\
  slot_to_write ctx' = slot_to_write ctx.

Section Protocol.
Context `{P : Platform}.

(** The events [w'] has on top of the trace of [w]. *)
Definition new_events (w w' : world) : list event :=
  skipn (List.length (trace w)) (trace w').

(** How often the boot configuration was loaded from flash between [w]
    and [w']. *)
Definition config_loads (w w' : world) : nat :=
  List.length (List.filter is_get_config (new_events w w')).

(** The content of the flash region [addr, addr + len) as
    [verify_checksum] reads it, in pieces of at most 400 bytes; [None]
    when a read fails (or the fuel ends first). *)
Fixpoint read_region (fuel : nat) (h : flash) (addr len : Z)
  : option (list Z) :=
  if len =? 0 then Some []
  else
    match fuel with
    | O => None
    | S fuel =>
        let n := if len >? 400 then 400 else len in
        let '(rc, buf) := spi_flash_read h addr n in
        if negb (rc =? 0) then None
        else
          match read_region fuel h (wrap32 (addr + n)) (len - n) with
          | Some rest => Some (firstn (Z.to_nat n) buf ++ rest)
          | None => None
          end
    end.

(** The driver call an event of the trace stands for, made on the flash
    [h]: its result code and the flash it leaves. *)
Definition driver_call (h : flash) (e : event) : Z * flash :=
  match e with
  | EvEraseSector sec_no => spi_flash_erase_sector h sec_no
  | EvEraseBlock block_no => SPIEraseBlock h block_no
  | EvWrite addr data => spi_flash_write h addr data
  | EvGetConfig => (0, h)
  | EvSetConfig cfg => (0, rboot_set_config h cfg)
  end.

(** The calls of [t], made one after the other from the flash [h], all
    return 0; the result is the flash they leave. *)
Fixpoint calls_succeed (h : flash) (t : list event) : option flash :=
  match t with
  | [] => Some h
  | e :: t' =>
      let '(rc, h1) := driver_call h e in
      if rc =? 0 then calls_succeed h1 t' else None
  end.

(** One call of a public operation of the updater on one context. *)
Inductive step : mgos_upd_ctx * world -> mgos_upd_ctx * world -> Prop :=
| step_begin ctx w parts r ctx' w' :
    mgos_upd_begin ctx parts w = Some (r, ctx', w') ->
    step (ctx, w) (ctx', w')
| step_file_begin ctx w fi r ctx' w' :
    mgos_upd_file_begin ctx fi w = Some (r, ctx', w') ->
    step (ctx, w) (ctx', w')
| step_file_data fuel ctx w fi data r ctx' w' :
    mgos_upd_file_data fuel ctx fi data w = Some (r, ctx', w') ->
    step (ctx, w) (ctx', w')
| step_file_end ctx w fi tail r ctx' w' :
    mgos_upd_file_end ctx fi tail w = Some (r, ctx', w') ->
    step (ctx, w) (ctx', w')
| step_finalize ctx w r ctx' w' :
    mgos_upd_finalize ctx w = Some (r, ctx', w') ->
    step (ctx, w) (ctx', w')
| step_boot_commit ctx w w' :
    mgos_upd_boot_commit w = Some w' ->
    step (ctx, w) (ctx, w')
| step_boot_revert ctx w w' :
    mgos_upd_boot_revert w = Some w' ->
    step (ctx, w) (ctx, w').

(** The states of one update attempt: from a fresh context, any number of
    calls. *)
Inductive reachable : mgos_upd_ctx * world -> Prop :=
| reachable_create w : reachable (mgos_upd_ctx_create, w)
| reachable_step s s' : reachable s -> step s s' -> reachable s'.

(** Any number of [mgos_upd_file_data] calls. *)
Inductive data_calls : mgos_upd_ctx * world -> mgos_upd_ctx * world -> Prop :=
| data_calls_nil s : data_calls s s
| data_calls_cons fuel ctx w fi data r ctx' w' s'' :
    mgos_upd_file_data fuel ctx fi data w = Some (r, ctx', w') ->
    data_calls (ctx', w') s'' ->
    data_calls (ctx, w) s''.

(** The three operations of the boot configuration manager. *)
Inductive bcm_op :=
| OpFinalize (ctx : mgos_upd_ctx)
| OpCommit
| OpRevert.

Definition run_bcm_op (op : bcm_op) (w : world) : option world :=
  match op with
  | OpFinalize ctx =>
      match mgos_upd_finalize ctx w with
      | Some (_, _, w') => Some w'
      | None => None
      end
  | OpCommit => mgos_upd_boot_commit w
  | OpRevert => mgos_upd_boot_revert w
  end.

(** "The operation reads the persistent configuration once": between the
    call and the return there is exactly one load. *)
Definition loads_once (op : bcm_op) (w : world) : Prop :=
  forall w' : world, run_bcm_op op w = Some w' -> config_loads w w' = 1%nat.

(** "Never erases flash whose offset is already >= erased_till": no
    offset at or above [erased_till] lies in the range an erase round
    clears. *)
Definition erases_nothing_from_erased_till (ctx : mgos_upd_ctx) (w : world)
  : Prop :=
  forall (rc : Z) (ctx' : mgos_upd_ctx) (w' : world) (ev : event)
         (lo hi o : Z),
    prepare_flash_erase ctx w = Some (rc, ctx', w') ->
    In ev (new_events w w') ->
    erased_region ev = Some (lo, hi) ->
    lo <= o < hi -> ~ (erased_till ctx <= o).

(** The same with the offsets below [erased_till], those that count as
    erased already. *)
Definition erases_nothing_below_erased_till (ctx : mgos_upd_ctx) (w : world)
  : Prop :=
  forall (rc : Z) (ctx' : mgos_upd_ctx) (w' : world) (ev : event)
         (lo hi o : Z),
    prepare_flash_erase ctx w = Some (rc, ctx', w') ->
    In ev (new_events w w') ->
    erased_region ev = Some (lo, hi) ->
    lo <= o < hi -> ~ (o < erased_till ctx).

End Protocol.

(** Runs on the simulated device. *)
Module SimRun.
Import Sim.

Definition result_world {A} (r : option (A * mgos_upd_ctx * @world platform))
  : @world platform :=
  match r with Some (_, _, w) => w | None => w0 end.
Definition result_ctx {A} (r : option (A * mgos_upd_ctx * @world platform))
  : mgos_upd_ctx :=
  match r with Some (_, ctx, _) => ctx | None => mgos_upd_ctx_create end.

(** After [mgos_upd_begin] with the sample manifest. *)
Definition begun := mgos_upd_begin mgos_upd_ctx_create manifest w0.
Definition ctx_begun : mgos_upd_ctx := result_ctx begun.
Definition w_begun : @world platform := result_world begun.

(** After [mgos_upd_file_begin] for the firmware file. *)
Definition fw_started := mgos_upd_file_begin ctx_begun (fw_file 0) w_begun.

(** The whole six-byte firmware file offered in one chunk, then the two
    bytes that were not consumed offered again. *)
Definition fw_chunk1 :=
  mgos_upd_file_data 5 (result_ctx fw_started) (fw_file 0) fw_data
    (result_world fw_started).
Definition fw_chunk2 :=
  mgos_upd_file_data 5 (result_ctx fw_chunk1) (fw_file 4) [5; 6]
    (result_world fw_chunk1).

(** A context in which both parts were written and verified. *)
Definition ctx_done : mgos_upd_ctx :=
  let c := ctx_begun in
  set_part (set_part c FwPart (set_pi_done (fw_part c) 1))
    FsPart (set_pi_done (fs_part c) 1).

Definition finalized := mgos_upd_finalize ctx_done w_begun.
Definition w_pending : @world platform := result_world finalized.

(** The same device after a reboot into the new slot: the static pointer
    is NULL again. *)
Definition w_rebooted : @world platform :=
  mk_world (hw w_pending) [] None true 0.

Definition result_code {A} (r : option (A * mgos_upd_ctx * @world platform))
  : option A :=
  match r with Some (a, _, _) => Some a | None => None end.

(** The end of the firmware file after the two chunks above. *)
Definition fw_ended :=
  mgos_upd_file_end (result_ctx fw_chunk2) (fw_file 4) []
    (result_world fw_chunk2).

(** The file system file: begin, one chunk of four bytes, end. *)
Definition fs_started := mgos_upd_file_begin ctx_begun (fs_file 0) w_begun.
Definition fs_chunk :=
  mgos_upd_file_data 5 (result_ctx fs_started) (fs_file 0) fs_data
    (result_world fs_started).
Definition fs_ended :=
  mgos_upd_file_end (result_ctx fs_chunk) (fs_file 4) []
    (result_world fs_chunk).

(** A device whose inactive slot already holds the file system image. *)
Definition w_fs_present : @world platform :=
  mk_world (mk_sim_flash (program [] 0x16d000 fs_data) cfg0) [EvGetConfig]
    (Some cfg0) true 0.

(** Only the firmware part is done. *)
Definition ctx_fw_only : mgos_upd_ctx :=
  set_part ctx_begun FwPart (set_pi_done (fw_part ctx_begun) 1).

(** The configuration [finalized] stored, and the device after a commit
    in the same run. *)
Definition cfg_pending : rboot_config :=
  match cfg_cache w_pending with Some c => c | None => cfg0 end.
Definition w_committed : @world platform :=
  match mgos_upd_boot_commit w_pending with Some w => w | None => w0 end.
Definition w_reverted_after_reboot : @world platform :=
  match mgos_upd_boot_revert w_rebooted with Some w => w | None => w0 end.

(** The firmware file is being written, with [erased_till] in the middle
    of a sector. *)
Definition ctx_mid_sector : mgos_upd_ctx :=
  set_erased_till (result_ctx fw_started) 0x101800.

Definition erase_at_start :=
  prepare_flash_erase (result_ctx fw_started) (result_world fw_started).
Definition erase_mid_sector :=
  prepare_flash_erase ctx_mid_sector (result_world fw_started).

(** A file of 50000 bytes and one of 100 bytes, and a chunk of 100
    bytes. *)
Definition big_file : mgos_upd_file_info :=
  mk_upd_file_info (chars "fs.bin") 50000 0.
Definition last_100 : mgos_upd_file_info :=
  mk_upd_file_info (chars "fs.bin") 50000 49900.
Definition chunk_100 : list Z := repeat 7 100.

End SimRun.

(** ** Post-boot merge *)

(** The SPIFFS functions [mgos_upd_apply_update] calls.  [fs_mount]
    returns 0 when the file system was mounted. *)
Class Spiffs `{P : Platform} := {
  spiffs : Type;
  fs_mount : flash -> Z -> Z -> Z * spiffs * flash;
  mgos_upd_merge_spiffs : flash -> spiffs -> Z * flash;
  SPIFFS_unmount : flash -> spiffs -> flash
}.

Inductive fs_event :=
| EvMount (addr size : Z)
| EvMerge
| EvUnmount.

Section ApplyUpdate.
Context `{S : Spiffs}.

(** [mgos_upd_apply_update]; the third component lists the SPIFFS calls
    made.  An index outside the arrays of the configuration is a read out
    of bounds, [None]. *)
Definition mgos_upd_apply_update (w : world)
  : option (Z * world * list fs_event) :=
  match get_rboot_config w with
  | (None, _) => None
  | (Some cfg, w) =>
      match fs_sizes cfg !! Z.to_nat (previous_rom cfg),
            fs_addresses cfg !! Z.to_nat (previous_rom cfg) with
      | Some old_fs_size, Some old_fs_addr =>
          let '(rc, old_fs, h) := fs_mount (hw w) old_fs_addr old_fs_size in
          let mounted := EvMount old_fs_addr old_fs_size in
          if negb (rc =? 0) then Some (-1, set_hw w h, [mounted])
          else
            let '(ret, h) := mgos_upd_merge_spiffs h old_fs in
            let h := SPIFFS_unmount h old_fs in
            Some (ret, set_hw w h, [mounted; EvMerge; EvUnmount])
      | _, _ => None
      end
  end.

End ApplyUpdate.

(** ** Vocabulary of further properties *)

(** A part of the manifest as [fill_file_part_info] accepts it: the part is
    there, its [cs_sha1] token is not empty and its [src] token has 1 to 49
    characters. *)
Definition part_accepted (tok : option part_token) : Prop :=
  exists (t : part_token) (sha src : json_token),
    tok = Some t /\
    t_cs_sha1 t = Some sha /\ tok_len sha <> 0 /\
    t_src t = Some src /\ 0 < tok_len src < 50.

(** The ranges of the erase calls of [t] follow one another from [lo]; the
    result is where the last one ends. *)
Fixpoint erase_span (lo : Z) (t : list event) : option Z :=
  match t with
  | [] => Some lo
  | ev :: t' =>
      match erased_region ev with
      | Some (l, h) => if l =? lo then erase_span h t' else None
      | None => None
      end
  end.

(** The [n] bytes of a memory from address [addr] on. *)
Definition bytes_at (mem : Z -> Z) (addr : Z) (n : nat) : list Z :=
  List.map (fun i => mem (addr + Z.of_nat i)) (seq 0 n).

(** The least multiple of the sector size at or above [x]. *)
Definition sector_ceil (x : Z) : Z :=
  (x + FLASH_SECTOR_SIZE - 1) / FLASH_SECTOR_SIZE * FLASH_SECTOR_SIZE.

(** The context as [prepare_to_write] sets it up for a part that is not
    done, before it looks at the flash: the part is the current part, it
    carries the declared size of the file, and both cursors are at its
    address. *)
Definition prepared_for (ctx : mgos_upd_ctx) (fi : mgos_upd_file_info)
    (p : part_ref) : mgos_upd_ctx :=
  let c := set_current_part ctx (Some p) in
  let part := get_part c p in
  let c :=
    set_part c p (set_pi_fi part (set_fi_size (pi_fi part) (ufi_size fi))) in
  let addr := pi_addr (get_part c p) in
  set_erased_till (set_current_write_address c addr) addr.

(** The name and digest buffers of all three parts have their declared
    sizes, and the last cell of each name buffer is NUL. *)
Definition buffers_ok (ctx : mgos_upd_ctx) : Prop :=
  forall q : part_ref,
    List.length (fi_sha1_sum (pi_fi (get_part ctx q))) = 40%nat /\
    List.length (fi_file_name (pi_fi (get_part ctx q))) = 50%nat /\
    fi_file_name (pi_fi (get_part ctx q)) !! 49%nat = Some NUL.

(** The text of a string token. *)
Definition tok_text (t : json_token) : list ascii :=
  firstn (Z.to_nat (tok_len t)) (tok_ptr t).

Section MoreProtocol.
Context `{P : Platform}.

(** Calls of [mgos_upd_file_data] that all succeed, with the sum of the
    counts they return.  The chunks are shorter than 2^31 bytes and the
    addresses stay a block short of the end of the address space. *)
Inductive data_run
  : mgos_upd_ctx * world -> Z -> mgos_upd_ctx * world -> Prop :=
| data_run_nil s : data_run s 0 s
| data_run_cons fuel ctx w fi data r ctx' w' total s'' :
    Z.of_nat (List.length data) < 2 ^ 31 ->
    0 <= current_write_address ctx ->
    0 <= erased_till ctx ->
    current_write_address ctx + Z.of_nat (List.length data)
    + FLASH_ERASE_BLOCK_SIZE <= 2 ^ 32 ->
    mgos_upd_file_data fuel ctx fi data w = Some (r, ctx', w') ->
    0 <= r ->
    data_run (ctx', w') total s'' ->
    data_run (ctx, w) (r + total) s''.

(** The flash driver reads [h] as the memory [mem]: every read succeeds
    and returns the bytes at the addresses asked for. *)
Definition reads_as (h : flash) (mem : Z -> Z) : Prop :=
  forall addr n : Z,
    0 <= n -> spi_flash_read h addr n = (0, bytes_at mem addr (Z.to_nat n)).

End MoreProtocol.

(** Further runs on the simulated device. *)
Module SimMore.
Import Sim SimRun.

(** A file system driver that mounts any image, merges with result 0 and
    leaves the flash as it is. *)
#[export] Instance sim_spiffs : @Spiffs platform := {|
  spiffs := Z * Z;
  fs_mount h addr size := (0, (addr, size), h);
  mgos_upd_merge_spiffs h fs := (0, h);
  SPIFFS_unmount h fs := h
|}.


(** The erase loop for the six bytes of the firmware file. *)
Definition erase_run :=
  prepare_flash 5 (result_ctx fw_started) 6 (result_world fw_started).

(** The file system file written with the firmware part done already, and
    the update finalized. *)
Definition fs_started' := mgos_upd_file_begin ctx_fw_only (fs_file 0) w_begun.
Definition fs_chunk' :=
  mgos_upd_file_data 5 (result_ctx fs_started') (fs_file 0) fs_data
    (result_world fs_started').
Definition fs_ended' :=
  mgos_upd_file_end (result_ctx fs_chunk') (fs_file 4) []
    (result_world fs_chunk').
Definition finalized' :=
  mgos_upd_finalize (result_ctx fs_ended') (result_world fs_ended').

(** The expected digest of the file system image in lower case. *)
Definition fs_digest_upper : list ascii := digest_text "1C".
Definition fs_digest_lower : list ascii := digest_text "1c".

(** A manifest that ends two characters into the digest of the firmware
    part. *)
Definition manifest_cut : manifest_parts :=
  mk_manifest_parts
    (Some (mk_part_token (Some 0x1000) (Some (mk_json_token (chars "15") 2))
             (Some (mk_json_token (chars "fw.bin") 6)) (Some 6)))
    (Some fs_token) None.

(** A second manifest for the same context, with a shorter name for the
    firmware file. *)
Definition short_fw : part_token :=
  mk_part_token (Some 0x1000) (Some (mk_json_token (digest_text "15") 40))
    (Some (mk_json_token (chars "fw") 2)) (Some 6).
Definition refilled := fill_file_part_info 0 ctx_begun (Some short_fw) FwPart.
Definition ctx_refilled : mgos_upd_ctx :=
  match refilled with Some (_, c) => c | None => ctx_begun end.

End SimMore.

(** ** Proof automation *)

(** Case analysis on the tests a function body makes. *)
Ltac break_if :=
  match goal with
  | |- context [if ?c then _ else _] => destruct c eqn:?
  | |- context [match ?x with Some _ => _ | None => _ end] => destruct x eqn:?
  | |- context [let '(_, _) := ?x in _] => destruct x eqn:?
  end.

Ltac break_if_in H :=
  match type of H with
  | context [if ?c then _ else _] => destruct c eqn:?
  | context [match ?x with Some _ => _ | None => _ end] => destruct x eqn:?
  | context [let '(_, _) := ?x in _] => destruct x eqn:?
  end.

(** * Properties *)

(** ** Machine integers *)

Lemma wrap32_small (x : Z) : 0 <= x < 2 ^ 32 -> wrap32 x = x.
Proof. intros H. unfold wrap32. apply Z.mod_small. exact H. Qed.

Lemma wrap8_slot (s : Z) : s = 0 \/ s = 1 -> wrap8 s = s.
Proof. intros [-> | ->]; reflexivity. Qed.

Lemma int32_small (x : Z) : 0 <= x < 2 ^ 31 -> int32 x = x.
Proof.
  intros H. unfold int32. rewrite Z.mod_small; lia.
Qed.

(** [len & -4] on 32 bits clears the two low bits. *)
Lemma land_minus4 (n : Z) :
  0 <= n < 2 ^ 32 -> Z.land n (wrap32 (-4)) = 4 * (n / 4).
Proof.
  intros Hn.
  replace (wrap32 (-4)) with (Z.shiftl (Z.ones 30) 2) by reflexivity.
  replace (4 * (n / 4)) with (Z.shiftl (Z.shiftr n 2) 2)
    by (rewrite Z.shiftl_mul_pow2, Z.shiftr_div_pow2 by lia;
        change (2 ^ 2) with 4; lia).
  apply Z.bits_inj'. intros i Hi.
  rewrite Z.land_spec, !Z.shiftl_spec by lia.
  destruct (Z.ltb_spec i 2) as [Hlt | Hge].
  - rewrite (Z.testbit_neg_r (Z.ones 30) (i - 2)) by lia.
    rewrite (Z.testbit_neg_r (Z.shiftr n 2) (i - 2)) by lia.
    apply andb_false_r.
  - rewrite Z.shiftr_spec by lia.
    replace (i - 2 + 2) with i by lia.
    destruct (Z.ltb_spec i 32) as [Hlt32 | Hge32].
    + rewrite Z.ones_spec_low by lia. apply andb_true_r.
    + rewrite Z.ones_spec_high by lia. rewrite andb_false_r.
      symmetry. apply Z.bits_above_log2; [lia |].
      destruct (Z.eq_dec n 0) as [-> | Hnz]; [simpl; lia |].
      apply Z.log2_lt_pow2; [lia |].
      pose proof (Z.pow_le_mono_r 2 32 i ltac:(lia) ltac:(lia)). lia.
Qed.

Lemma land_minus4_bounds (n : Z) :
  0 <= n < 2 ^ 32 ->
  0 <= Z.land n (wrap32 (-4)) <= n /\ n - Z.land n (wrap32 (-4)) < 4.
Proof.
  intros Hn. rewrite land_minus4 by exact Hn.
  pose proof (Z.div_mod n 4 ltac:(lia)) as Hdm.
  pose proof (Z.mod_pos_bound n 4 ltac:(lia)) as Hmod.
  pose proof (Z.div_pos n 4 ltac:(lia) ltac:(lia)) as Hdiv.
  lia.
Qed.

Lemma written_bytes_app (t1 t2 : list event) :
  written_bytes (t1 ++ t2) = written_bytes t1 + written_bytes t2.
Proof.
  induction t1 as [| x t1 IH]; simpl; [reflexivity |].
  rewrite IH. destruct x; lia.
Qed.

Section BootConfig.
Context `{P : Platform}.

(** ** The accessor of the boot configuration *)

Lemma get_rboot_config_cached (w : world) (cfg : rboot_config) :
  cfg_cache w = Some cfg -> get_rboot_config w = (Some cfg, w).
Proof. intros H. unfold get_rboot_config. rewrite H. reflexivity. Qed.

Lemma get_rboot_config_first (w : world) :
  cfg_cache w = None -> malloc_ok w = true ->
  get_rboot_config w
  = (Some (rboot_get_config (hw w)),
     set_cfg_cache (log w EvGetConfig) (rboot_get_config (hw w))).
Proof.
  intros Hc Hm. unfold get_rboot_config. rewrite Hc, Hm. reflexivity.
Qed.

(** What a successful call leaves behind: the flash is as before, the
    result is cached, and the trace grew by one load exactly when the
    pointer was NULL. *)
Lemma get_rboot_config_some (w w1 : world) (cfg : rboot_config) :
  get_rboot_config w = (Some cfg, w1) ->
  hw w1 = hw w /\ cfg_cache w1 = Some cfg /\
  ((cfg_cache w = Some cfg /\ w1 = w) \/
   (cfg_cache w = None /\ cfg = rboot_get_config (hw w) /\
    trace w1 = trace w ++ [EvGetConfig])).
Proof.
  unfold get_rboot_config.
  destruct (cfg_cache w) as [c |] eqn:Hc.
  - intros [= <- <-]. auto.
  - destruct (malloc_ok w); intros [= <- <-]. simpl. auto 6.
Qed.

Lemma get_rboot_config_idem (w w1 : world) (cfg : rboot_config) :
  get_rboot_config w = (Some cfg, w1) ->
  get_rboot_config w1 = (Some cfg, w1).
Proof.
  intros H. apply get_rboot_config_cached.
  apply (get_rboot_config_some _ _ _ H).
Qed.

Lemma new_events_self (w : world) : new_events w w = [].
Proof. unfold new_events. apply skipn_all. Qed.

Lemma new_events_app (w w' : world) (t : list event) :
  trace w' = trace w ++ t -> new_events w w' = t.
Proof.
  intros H. unfold new_events. rewrite H.
  rewrite skipn_app, skipn_all, Nat.sub_diag. reflexivity.
Qed.

Lemma store_config_trace (w : world) (cfg : rboot_config) :
  trace (store_config w cfg) = trace w ++ [EvSetConfig cfg].
Proof. reflexivity. Qed.

End BootConfig.

Section BootManager.
Context `{P : Platform}.

Lemma pi_done_nonzero (p : part_info) :
  pi_done p <> 0 -> (pi_done p =? 0) = false.
Proof. intros H. apply Z.eqb_neq. exact H. Qed.

(** C1: [mgos_upd_finalize] fails and leaves the boot configuration (the
    whole device) as it was when the firmware part is not done, or when
    neither the file system part nor the file system directory part is
    done.  When the required parts are done and [slot_to_write] is the other
    slot, it returns 1: [previous_rom] is the old [current_rom],
    [current_rom] is [slot_to_write], the addresses and sizes of the new
    slot are those of the written parts, [is_first_boot], [fw_updated]
    and [user_flags] are 1, [boot_attempts] is 0, and the configuration is
    stored by one call of [rboot_set_config]. *)
Theorem mgos_upd_finalize_correct (ctx : mgos_upd_ctx) (w : world) :
  (pi_done (fw_part ctx) = 0 ->
   mgos_upd_finalize ctx w
   = Some (-1, set_status_msg ctx "Missing fw part", w)) /\
  (pi_done (fw_part ctx) <> 0 ->
   pi_done (fs_part ctx) = 0 -> pi_done (fs_dir_part ctx) = 0 ->
   mgos_upd_finalize ctx w
   = Some (-2, set_status_msg ctx "Missing fs part", w)) /\
  (forall (cfg : rboot_config) (w1 : world),
     pi_done (fw_part ctx) <> 0 ->
     pi_done (fs_part ctx) <> 0 \/ pi_done (fs_dir_part ctx) <> 0 ->
     get_rboot_config w = (Some cfg, w1) ->
     slot_to_write ctx = 0 \/ slot_to_write ctx = 1 ->
     slot_to_write ctx <> current_rom cfg ->
     let slot := Z.to_nat (slot_to_write ctx) in
     let cfg' :=
       mk_rboot_config (slot_to_write ctx) (current_rom cfg)
         (<[slot := pi_addr (fs_part ctx)]> (fs_addresses cfg))
         (<[slot := fi_size (pi_fi (fs_part ctx))]> (fs_sizes cfg))
         (<[slot := pi_addr (fw_part ctx)]> (roms cfg))
         (<[slot := fi_size (pi_fi (fw_part ctx))]> (roms_sizes cfg))
         1 1 1 0 in
     exists w' : world,
       mgos_upd_finalize ctx w = Some (1, ctx, w') /\
       cfg_cache w' = Some cfg' /\
       hw w' = rboot_set_config (hw w) cfg' /\
       trace w' = trace w1 ++ [EvSetConfig cfg']).
Proof.
  split; [| split].
  - intros Hfw. unfold mgos_upd_finalize. rewrite Hfw. reflexivity.
  - intros Hfw Hfs Hdir. unfold mgos_upd_finalize.
    rewrite (pi_done_nonzero _ Hfw), Hfs, Hdir. reflexivity.
  - intros cfg w1 Hfw Hfs Hcfg Hslot Hne slot cfg'.
    exists (store_config w1 cfg').
    destruct (get_rboot_config_some _ _ _ Hcfg) as (Hhw & _ & _).
    split; [| split; [reflexivity | split; [| reflexivity]]].
    + unfold mgos_upd_finalize.
      rewrite (pi_done_nonzero _ Hfw).
      replace ((pi_done (fs_part ctx) =? 0) && (pi_done (fs_dir_part ctx) =? 0))
        with false
        by (symmetry; apply andb_false_iff;
            destruct Hfs as [H | H]; [left | right];
            apply Z.eqb_neq; exact H).
      rewrite Hcfg.
      replace (slot_to_write ctx =? current_rom cfg) with false
        by (symmetry; apply Z.eqb_neq; exact Hne).
      rewrite (wrap8_slot _ Hslot). reflexivity.
    + simpl. rewrite Hhw. reflexivity.
Qed.

(** When the slot to write is the running one, only [user_flags] is set
    and stored. *)
Lemma mgos_upd_finalize_same_slot (ctx : mgos_upd_ctx) (w w1 : world)
    (cfg : rboot_config) :
  pi_done (fw_part ctx) <> 0 ->
  pi_done (fs_part ctx) <> 0 \/ pi_done (fs_dir_part ctx) <> 0 ->
  get_rboot_config w = (Some cfg, w1) ->
  slot_to_write ctx = current_rom cfg ->
  mgos_upd_finalize ctx w
  = Some (1, ctx,
          store_config w1
            (mk_rboot_config (current_rom cfg) (previous_rom cfg)
               (fs_addresses cfg) (fs_sizes cfg) (roms cfg) (roms_sizes cfg)
               (is_first_boot cfg) (fw_updated cfg) 1 (boot_attempts cfg))).
Proof.
  intros Hfw Hfs Hcfg Hslot. unfold mgos_upd_finalize.
  rewrite (pi_done_nonzero _ Hfw).
  replace ((pi_done (fs_part ctx) =? 0) && (pi_done (fs_dir_part ctx) =? 0))
    with false
    by (symmetry; apply andb_false_iff;
        destruct Hfs as [H | H]; [left | right]; apply Z.eqb_neq; exact H).
  rewrite Hcfg, Hslot, Z.eqb_refl. reflexivity.
Qed.

(** A call that returns 1 passed both completion checks. *)
Lemma mgos_upd_finalize_success (ctx ctx' : mgos_upd_ctx) (w w' : world) :
  mgos_upd_finalize ctx w = Some (1, ctx', w') ->
  pi_done (fw_part ctx) <> 0 /\
  (pi_done (fs_part ctx) <> 0 \/ pi_done (fs_dir_part ctx) <> 0).
Proof.
  unfold mgos_upd_finalize.
  destruct (pi_done (fw_part ctx) =? 0) eqn:Hfw; [discriminate |].
  destruct (pi_done (fs_part ctx) =? 0) eqn:Hfs;
    destruct (pi_done (fs_dir_part ctx) =? 0) eqn:Hdir; simpl;
    try discriminate; intros _;
    apply Z.eqb_neq in Hfw; split; try exact Hfw.
  - right. apply Z.eqb_neq. exact Hdir.
  - left. apply Z.eqb_neq. exact Hfs.
  - left. apply Z.eqb_neq. exact Hfs.
Qed.

(** C2: when [fw_updated] is 0, [mgos_upd_boot_commit] and
    [mgos_upd_boot_revert] change nothing and store nothing (the device is
    as the accessor left it).  When it is not 0, revert makes
    [previous_rom] the current slot, commit keeps the current slot, both
    clear [fw_updated] and [is_first_boot], and both store the result by
    one call of [rboot_set_config] before they return.  After a finalize
    that switched slots, the slot revert goes back to is the one that ran
    before the finalize. *)
Theorem boot_commit_revert_correct (w w1 : world) (cfg : rboot_config) :
  get_rboot_config w = (Some cfg, w1) ->
  (fw_updated cfg = 0 ->
   mgos_upd_boot_commit w = Some w1 /\
   mgos_upd_boot_revert w = Some w1 /\
   hw w1 = hw w /\ cfg_cache w1 = Some cfg /\
   List.filter is_set_config (new_events w w1) = []) /\
  (fw_updated cfg <> 0 ->
   let committed :=
     mk_rboot_config (current_rom cfg) (previous_rom cfg)
       (fs_addresses cfg) (fs_sizes cfg) (roms cfg) (roms_sizes cfg)
       0 0 (user_flags cfg) (boot_attempts cfg) in
   let reverted :=
     mk_rboot_config (previous_rom cfg) (previous_rom cfg)
       (fs_addresses cfg) (fs_sizes cfg) (roms cfg) (roms_sizes cfg)
       0 0 (user_flags cfg) (boot_attempts cfg) in
   mgos_upd_boot_commit w = Some (store_config w1 committed) /\
   mgos_upd_boot_revert w = Some (store_config w1 reverted) /\
   (forall c : rboot_config,
      cfg_cache (store_config w1 c) = Some c /\
      hw (store_config w1 c) = rboot_set_config (hw w) c /\
      new_events w1 (store_config w1 c) = [EvSetConfig c])) /\
  (forall (ctx : mgos_upd_ctx) (w_old w_old1 : world) (cfg_old : rboot_config),
     get_rboot_config w_old = (Some cfg_old, w_old1) ->
     slot_to_write ctx <> current_rom cfg_old ->
     mgos_upd_finalize ctx w_old = Some (1, ctx, w) ->
     exists cfg' : rboot_config,
       mgos_upd_boot_revert w = Some (store_config w1 cfg') /\
       current_rom cfg' = current_rom cfg_old /\
       fw_updated cfg' = 0 /\ is_first_boot cfg' = 0).
Proof.
  intros Hcfg.
  destruct (get_rboot_config_some _ _ _ Hcfg) as (Hhw & Hcache & Htr).
  split; [| split].
  - intros Hupd.
    unfold mgos_upd_boot_commit, mgos_upd_boot_revert.
    rewrite Hcfg, Hupd. simpl.
    repeat split; try assumption.
    destruct Htr as [[_ ->] | (_ & _ & Ht)].
    + rewrite new_events_self. reflexivity.
    + rewrite (new_events_app _ _ _ Ht). reflexivity.
  - intros Hupd committed reverted.
    unfold mgos_upd_boot_commit, mgos_upd_boot_revert.
    rewrite Hcfg. apply Z.eqb_neq in Hupd. rewrite Hupd.
    repeat split.
    + simpl. rewrite Hhw. reflexivity.
    + apply new_events_app. reflexivity.
  - intros ctx w_old w_old1 cfg_old Hold Hne Hfin.
    unfold mgos_upd_finalize in Hfin.
    destruct (pi_done (fw_part ctx) =? 0); [discriminate |].
    destruct ((pi_done (fs_part ctx) =? 0) && (pi_done (fs_dir_part ctx) =? 0));
      [discriminate |].
    rewrite Hold in Hfin.
    apply Z.eqb_neq in Hne. rewrite Hne in Hfin.
    injection Hfin as Hw. subst w.
    unfold get_rboot_config in Hcfg. simpl in Hcfg.
    injection Hcfg as Hc Hw1. subst cfg w1.
    eexists. split; [| split; [| split]].
    + unfold mgos_upd_boot_revert, get_rboot_config. simpl. reflexivity.
    + reflexivity.
    + reflexivity.
    + reflexivity.
Qed.

(** C5 (as amended): an operation of the boot configuration manager loads
    the configuration from flash at most once, as its first device call,
    and only when the static pointer of [get_rboot_config] is still NULL;
    once a snapshot is cached every later operation works on it without a
    load.  Whatever an operation changes in the configuration it stores by
    a call of [rboot_set_config] with the changed configuration, its last
    device call before it returns; an operation that stores nothing left
    the configuration as the accessor returned it. *)
Theorem bcm_op_loads_and_stores (op : bcm_op) (w w' : world) :
  run_bcm_op op w = Some w' ->
  (cfg_cache w <> None -> config_loads w w' = 0%nat) /\
  (config_loads w w' <= 1)%nat /\
  (config_loads w w' = 1%nat ->
   cfg_cache w = None /\
   exists t : list event, new_events w w' = EvGetConfig :: t) /\
  (w' = w \/
   exists (cfg : rboot_config) (w1 : world),
     get_rboot_config w = (Some cfg, w1) /\
     (w' = w1 \/
      exists cfg' : rboot_config,
        w' = store_config w1 cfg' /\
        cfg_cache w' = Some cfg' /\
        hw w' = rboot_set_config (hw w) cfg' /\
        trace w' = trace w1 ++ [EvSetConfig cfg'])).
Proof.
  intros Hrun.
  assert (Hshape :
    w' = w \/
    exists (cfg : rboot_config) (w1 : world),
      get_rboot_config w = (Some cfg, w1) /\
      (w' = w1 \/ exists cfg' : rboot_config, w' = store_config w1 cfg')).
  { destruct op as [ctx | |]; simpl in Hrun.
    - unfold mgos_upd_finalize in Hrun.
      destruct (pi_done (fw_part ctx) =? 0);
        [injection Hrun as <-; left; reflexivity |].
      destruct ((pi_done (fs_part ctx) =? 0)
                && (pi_done (fs_dir_part ctx) =? 0));
        [injection Hrun as <-; left; reflexivity |].
      destruct (get_rboot_config w) as [[cfg |] w1] eqn:Hcfg;
        [| discriminate].
      right. exists cfg, w1. split; [reflexivity |]. right.
      destruct (slot_to_write ctx =? current_rom cfg);
        injection Hrun as <-; eexists; reflexivity.
    - unfold mgos_upd_boot_commit in Hrun.
      destruct (get_rboot_config w) as [[cfg |] w1] eqn:Hcfg;
        [| discriminate].
      right. exists cfg, w1. split; [reflexivity |].
      destruct (fw_updated cfg =? 0); injection Hrun as <-;
        [left; reflexivity | right; eexists; reflexivity].
    - unfold mgos_upd_boot_revert in Hrun.
      destruct (get_rboot_config w) as [[cfg |] w1] eqn:Hcfg;
        [| discriminate].
      right. exists cfg, w1. split; [reflexivity |].
      destruct (fw_updated cfg =? 0); injection Hrun as <-;
        [left; reflexivity | right; eexists; reflexivity]. }
  assert (Hev :
    new_events w w' = [] \/
    (exists c, new_events w w' = [EvSetConfig c]) \/
    (cfg_cache w = None /\
     (new_events w w' = [EvGetConfig] \/
      exists c, new_events w w' = [EvGetConfig; EvSetConfig c]))).
  { destruct Hshape as [-> | (cfg & w1 & Hcfg & Hw')].
    - left. apply new_events_self.
    - destruct (get_rboot_config_some _ _ _ Hcfg) as (_ & _ & Htr).
      destruct Htr as [[_ ->] | (Hnone & _ & Ht)].
      + destruct Hw' as [-> | (c & ->)].
        * left. apply new_events_self.
        * right. left. exists c. apply new_events_app. reflexivity.
      + right. right. split; [exact Hnone |].
        destruct Hw' as [-> | (c & ->)].
        * left. apply new_events_app. exact Ht.
        * right. exists c. apply new_events_app.
          rewrite store_config_trace, Ht, <- app_assoc. reflexivity. }
  unfold config_loads.
  split; [| split; [| split]].
  - intros Hsome.
    destruct Hev as [-> | [(c & ->) | (Hnone & _)]];
      [reflexivity | reflexivity | contradiction].
  - destruct Hev as [-> | [(c & ->) | (_ & [-> | (c & ->)])]]; simpl; lia.
  - destruct Hev as [-> | [(c & ->) | (Hnone & [-> | (c & ->)])]]; simpl;
      intros Hone; try discriminate; split; try exact Hnone; eexists;
      reflexivity.
  - destruct Hshape as [-> | (cfg & w1 & Hcfg & Hw')]; [left; reflexivity |].
    right. exists cfg, w1. split; [exact Hcfg |].
    destruct Hw' as [-> | (c & ->)]; [left; reflexivity |].
    right. exists c.
    destruct (get_rboot_config_some _ _ _ Hcfg) as (Hhw & _ & _).
    repeat split. simpl. rewrite Hhw. reflexivity.
Qed.

End BootManager.

Section Manifest.
Context `{P : Platform}.

(** [fill_file_part_info] writes to the part it is given and to nothing
    else, and never to that part's [done] flag. *)
Lemma fill_file_part_info_frame (addr0 : Z) (ctx ctx' : mgos_upd_ctx)
    (tok : option part_token) (pi : part_ref) (r : Z) :
  fill_file_part_info addr0 ctx tok pi = Some (r, ctx') ->
  slot_to_write ctx' = slot_to_write ctx /\
  current_part ctx' = current_part ctx /\
  pi_done (get_part ctx' pi) = pi_done (get_part ctx pi) /\
  (forall q : part_ref, q <> pi -> get_part ctx' q = get_part ctx q).
Proof.
  unfold fill_file_part_info. intros H.
  repeat break_if_in H; try discriminate; injection H as <- <-;
    (split; [| split; [| split]]);
    try (intros q Hq; destruct q, pi; try reflexivity; contradiction);
    destruct pi; reflexivity.
Qed.

Lemma memcpy_some {A} (dst src : list A) (n : nat) :
  (n <= List.length src)%nat ->
  memcpy dst src n = Some (firstn n src ++ skipn n dst).
Proof.
  intros Hn. unfold memcpy.
  destruct (Nat.leb_spec n (List.length src)); [reflexivity | lia].
Qed.

Lemma memcpy_none {A} (dst src : list A) (n : nat) :
  (List.length src < n)%nat -> memcpy dst src n = None.
Proof.
  intros Hn. unfold memcpy.
  destruct (Nat.leb_spec n (List.length src)); [lia | reflexivity].
Qed.

Lemma memcpy_inv {A} (dst src out : list A) (n : nat) :
  memcpy dst src n = Some out ->
  (n <= List.length src)%nat /\ out = firstn n src ++ skipn n dst.
Proof.
  unfold memcpy.
  destruct (Nat.leb_spec n (List.length src)); [| discriminate].
  intros [= <-]. auto.
Qed.

(** A valid part is accepted whenever the call returns, and the call
    returns when the manifest holds what is read of it. *)
Lemma fill_file_part_info_valid (addr0 : Z) (ctx : mgos_upd_ctx)
    (t : part_token) (a : Z) (pi : part_ref) :
  valid_part_token t a ->
  (forall (r : Z) (ctx' : mgos_upd_ctx),
     fill_file_part_info addr0 ctx (Some t) pi = Some (r, ctx') ->
     r = 1 /\
     pi_addr (get_part ctx' pi)
     = wrap32 (a + slot_to_write ctx * FW_SLOT_SIZE)) /\
  (reads_in_bounds (Some t) ->
   exists ctx' : mgos_upd_ctx,
     fill_file_part_info addr0 ctx (Some t) pi = Some (1, ctx')).
Proof.
  intros (Ha & Ha0 & Ha1 & (sha & Hsha & Hlen) & (src & Hsrc & Hsl)).
  unfold fill_file_part_info. rewrite Ha, Hsha, Hsrc.
  apply Z.eqb_neq in Hlen. rewrite Hlen.
  replace ((tok_len src <=? 0) || (tok_len src >=? 50)) with false
    by (symmetry; apply orb_false_iff; split;
        [apply Z.leb_gt | rewrite Z.geb_leb; apply Z.leb_gt];
        lia).
  rewrite (wrap32_small a) by (unfold FW_SLOT_SIZE in Ha1; lia).
  split.
  - intros r ctx' H.
    destruct (memcpy _ (tok_ptr sha) 40) as [s1 |]; [| discriminate].
    cbv zeta in H.
    destruct (memcpy _ (tok_ptr src) _) as [s2 |]; [| discriminate].
    injection H as <- <-. split; [reflexivity |].
    destruct pi, (t_size t); reflexivity.
  - intros Hm. unfold reads_in_bounds in Hm. rewrite Hsha, Hsrc in Hm.
    apply Z.eqb_neq in Hlen. destruct (Hm Hlen) as (Msha & Msrc).
    rewrite (memcpy_some _ (tok_ptr sha) 40) by exact Msha.
    cbv zeta.
    rewrite (memcpy_some _ (tok_ptr src)) by (apply Msrc; exact Hsl).
    eexists. reflexivity.
Qed.

(** What a call of [mgos_upd_begin] that returns on a valid manifest
    gives: result 1, the world after the configuration was fetched, the
    other slot and the shifted addresses. *)
Lemma mgos_upd_begin_valid (ctx ctx' : mgos_upd_ctx)
    (parts : manifest_parts) (w w1 w' : world) (cfg : rboot_config)
    (fw fs : part_token) (a_fw a_fs r : Z) :
  get_rboot_config w = (Some cfg, w1) ->
  current_rom cfg = 0 \/ current_rom cfg = 1 ->
  m_fw parts = Some fw -> valid_part_token fw a_fw ->
  m_fs parts = Some fs -> valid_part_token fs a_fs ->
  mgos_upd_begin ctx parts w = Some (r, ctx', w') ->
  r = 1 /\ w' = w1 /\
  slot_to_write ctx' = 1 - current_rom cfg /\
  pi_addr (fw_part ctx') = a_fw + slot_to_write ctx' * FW_SLOT_SIZE /\
  pi_addr (fs_part ctx') = a_fs + slot_to_write ctx' * FW_SLOT_SIZE.
Proof.
  intros Hcfg Hrom Hfw Vfw Hfs Vfs.
  unfold mgos_upd_begin. rewrite Hcfg, Hfw, Hfs.
  set (slot := if current_rom cfg =? 0 then 1 else 0).
  assert (Hslot : slot = 1 - current_rom cfg)
    by (unfold slot; destruct Hrom as [-> | ->]; reflexivity).
  destruct (fill_file_part_info (uninit w1) (set_slot_to_write ctx slot)
              (Some fw) FwPart) as [[r1 c1] |] eqn:E1; [| discriminate].
  destruct (proj1 (fill_file_part_info_valid (uninit w1)
                     (set_slot_to_write ctx slot) fw a_fw FwPart Vfw)
              r1 c1 E1) as (-> & A1).
  simpl negb. cbv iota.
  destruct (fill_file_part_info_frame _ _ _ _ _ _ E1) as (S1 & _ & _ & _).
  destruct (fill_file_part_info (uninit w1) c1 (Some fs) FsPart)
    as [[r2 c2] |] eqn:E2; [| discriminate].
  destruct (proj1 (fill_file_part_info_valid (uninit w1) c1 fs a_fs FsPart
                     Vfs) r2 c2 E2) as (-> & A2).
  simpl. intros [= <- <- <-].
  destruct (fill_file_part_info_frame _ _ _ _ _ _ E2) as (S2 & _ & _ & F2).
  split; [reflexivity |]. split; [reflexivity |].
  assert (Hs2 : slot_to_write c2 = slot) by (rewrite S2, S1; reflexivity).
  assert (Hrange : slot = 0 \/ slot = 1)
    by (rewrite Hslot; destruct Hrom as [-> | ->]; auto).
  destruct Vfw as (_ & Ha0 & Ha1 & _). destruct Vfs as (_ & Hb0 & Hb1 & _).
  unfold FW_SLOT_SIZE in *.
  split; [rewrite Hs2; exact Hslot |]. split.
  - change (fw_part c2) with (get_part c2 FwPart).
    rewrite (F2 FwPart) by discriminate. rewrite A1. simpl slot_to_write.
    rewrite Hs2. apply wrap32_small. destruct Hrange as [-> | ->]; lia.
  - change (fs_part c2) with (get_part c2 FsPart).
    rewrite A2, S1. simpl slot_to_write.
    rewrite Hs2. apply wrap32_small. destruct Hrange as [-> | ->]; lia.
Qed.

(** C9: for a manifest whose firmware and file system parts are both
    valid, on a device running slot 0 or 1, [mgos_upd_begin] returns 1,
    [slot_to_write] is 1 minus the running slot, and the flash address of
    each part is its address in the manifest plus [slot_to_write] times
    [FW_SLOT_SIZE].  The call returns when the manifest holds the 40
    characters that are read at each digest token and the text of each
    [src] token (a shorter manifest is read beyond its end); and every
    call that returns, returns just that. *)
Theorem mgos_upd_begin_slot_alternation (ctx : mgos_upd_ctx)
    (parts : manifest_parts) (w w1 : world) (cfg : rboot_config)
    (fw fs : part_token) (a_fw a_fs : Z) :
  get_rboot_config w = (Some cfg, w1) ->
  current_rom cfg = 0 \/ current_rom cfg = 1 ->
  m_fw parts = Some fw -> valid_part_token fw a_fw ->
  m_fs parts = Some fs -> valid_part_token fs a_fs ->
  (reads_in_bounds (Some fw) -> reads_in_bounds (Some fs) ->
   exists ctx' : mgos_upd_ctx,
     mgos_upd_begin ctx parts w = Some (1, ctx', w1) /\
     slot_to_write ctx' = 1 - current_rom cfg /\
     pi_addr (fw_part ctx') = a_fw + slot_to_write ctx' * FW_SLOT_SIZE /\
     pi_addr (fs_part ctx') = a_fs + slot_to_write ctx' * FW_SLOT_SIZE) /\
  (forall (r : Z) (ctx' : mgos_upd_ctx) (w' : world),
     mgos_upd_begin ctx parts w = Some (r, ctx', w') ->
     r = 1 /\ w' = w1 /\
     slot_to_write ctx' = 1 - current_rom cfg /\
     pi_addr (fw_part ctx') = a_fw + slot_to_write ctx' * FW_SLOT_SIZE /\
     pi_addr (fs_part ctx') = a_fs + slot_to_write ctx' * FW_SLOT_SIZE).
Proof.
  intros Hcfg Hrom Hfw Vfw Hfs Vfs.
  split; [| intros r ctx' w'; eapply mgos_upd_begin_valid; eassumption].
  intros Mfw Mfs.
  assert (Hdef : exists ctx' : mgos_upd_ctx,
            mgos_upd_begin ctx parts w = Some (1, ctx', w1)).
  { unfold mgos_upd_begin. rewrite Hcfg, Hfw, Hfs.
    destruct (proj2 (fill_file_part_info_valid (uninit w1)
                       (set_slot_to_write ctx
                          (if current_rom cfg =? 0 then 1 else 0))
                       fw a_fw FwPart Vfw) Mfw) as (c1 & E1).
    rewrite E1. simpl negb. cbv iota.
    destruct (proj2 (fill_file_part_info_valid (uninit w1) c1 fs a_fs FsPart
                       Vfs) Mfs) as (c2 & E2).
    rewrite E2. simpl. eauto. }
  destruct Hdef as (ctx' & E). exists ctx'. split; [exact E |].
  destruct (mgos_upd_begin_valid _ _ _ _ _ _ _ _ _ _ _ _ Hcfg Hrom Hfw Vfw
              Hfs Vfs E) as (_ & _ & H).
  exact H.
Qed.

(** Whatever the manifest, [mgos_upd_begin] leaves [slot_to_write] at 0
    or 1 when it got the configuration. *)
Lemma mgos_upd_begin_slot_range (ctx ctx' : mgos_upd_ctx)
    (parts : manifest_parts) (w w' : world) (r : Z) :
  mgos_upd_begin ctx parts w = Some (r, ctx', w') ->
  cfg_cache w' <> None ->
  slot_to_write ctx' = 0 \/ slot_to_write ctx' = 1.
Proof.
  unfold mgos_upd_begin.
  destruct (get_rboot_config w) as [[cfg |] w1] eqn:Hcfg.
  - intros H _.
    destruct (fill_file_part_info (uninit w1)
                (set_slot_to_write ctx (if current_rom cfg =? 0 then 1 else 0))
                (m_fw parts) FwPart) as [[r1 c1] |] eqn:E1; [| discriminate].
    destruct (fill_file_part_info_frame _ _ _ _ _ _ E1) as (S1 & _).
    simpl in S1.
    destruct (negb (r1 >=? 0)).
    + injection H as <- <- <-. simpl. rewrite S1.
      destruct (current_rom cfg =? 0); auto.
    + destruct (fill_file_part_info (uninit w1) c1 (m_fs parts) FsPart)
        as [[r2 c2] |] eqn:E2; [| discriminate].
      destruct (fill_file_part_info_frame _ _ _ _ _ _ E2) as (S2 & _).
      destruct (r2 <? 0); injection H as <- <- <-; simpl; rewrite S2, S1;
        destruct (current_rom cfg =? 0); auto.
  - intros H Hc. injection H as <- <- <-.
    unfold get_rboot_config in Hcfg.
    destruct (cfg_cache w) eqn:Hcw; [discriminate |].
    destruct (malloc_ok w); [discriminate |].
    injection Hcfg as <-. contradiction.
Qed.

End Manifest.

Section Checksum.
Context `{P : Platform}.

Lemma verify_checksum_compare_range (sha : list Z) (cs : list ascii) :
  verify_checksum_compare sha cs = 1 \/ verify_checksum_compare sha cs = -1.
Proof. unfold verify_checksum_compare. destruct (negb _); auto. Qed.

Lemma verify_checksum_compare_match (sha : list Z) (cs : list ascii) :
  verify_checksum_compare sha cs = 1 <->
  strncasecmp (bin2hex (cs_sha1 sha)) cs (Z.to_nat SHA1SUM_LEN) = 0.
Proof.
  unfold verify_checksum_compare.
  destruct (Z.eqb_spec (strncasecmp (bin2hex (cs_sha1 sha)) cs
                          (Z.to_nat SHA1SUM_LEN)) 0) as [Heq | Hne];
    simpl negb; cbv iota; split; intros H;
    try reflexivity; try assumption; try discriminate; contradiction.
Qed.

#[local] Opaque verify_checksum_compare.

Lemma verify_checksum_loop_eq (fuel : nat) (h : flash) (sha : list Z)
    (addr len : Z) (cs : list ascii) :
  verify_checksum_loop fuel h sha addr len cs
  = if len =? 0 then Some (verify_checksum_compare sha cs)
    else
      match fuel with
      | O => None
      | S fuel =>
          let to_read := if len >? 4 * 100 then 4 * 100 else len in
          let '(rc, read_buf) := spi_flash_read h addr to_read in
          if negb (rc =? 0) then Some (-1)
          else
            verify_checksum_loop fuel h
              (sha ++ firstn (Z.to_nat to_read) read_buf)
              (wrap32 (addr + to_read)) (len - to_read) cs
      end.
Proof. destruct fuel; reflexivity. Qed.



(** A region that fits one read: the result is 1 exactly when the read
    succeeds and the hex digest of the bytes read equals the expected one
    up to case. *)
Lemma verify_checksum_one_read (h : flash) (addr len : Z) (cs : list ascii) :
  0 < len <= 400 ->
  verify_checksum h addr len cs
  = let '(rc, buf) := spi_flash_read h addr len in
    if negb (rc =? 0) then Some (-1)
    else Some (verify_checksum_compare (firstn (Z.to_nat len) buf) cs).
Proof.
  intros Hlen. unfold verify_checksum.
  rewrite verify_checksum_loop_eq.
  destruct (Z.eqb_spec len 0) as [? | _]; [lia |].
  destruct (Z.to_nat len) as [| n] eqn:Hn; [lia |].
  cbv zeta.
  destruct (Z.gtb_spec len (4 * 100)) as [? | _]; [lia |].
  destruct (spi_flash_read h addr len) as [rc buf].
  destruct (negb (rc =? 0)); [reflexivity |].
  rewrite verify_checksum_loop_eq, Z.sub_diag.
  change (0 =? 0) with true. cbv iota. rewrite app_nil_l, Hn. reflexivity.
Qed.

(** The loop hashes what [read_region] returns, after what was hashed
    before; a failed read gives -1. *)
Lemma verify_checksum_loop_region (fuel : nat) :
  forall (h : flash) (sha : list Z) (addr len : Z) (cs : list ascii),
    0 <= len <= Z.of_nat fuel ->
    verify_checksum_loop fuel h sha addr len cs
    = Some (match read_region fuel h addr len with
            | Some data => verify_checksum_compare (sha ++ data) cs
            | None => -1
            end).
Proof.
  induction fuel as [| fuel IH]; intros h sha addr len cs Hlen;
    rewrite verify_checksum_loop_eq.
  - assert (len = 0) as -> by lia. simpl. rewrite app_nil_r. reflexivity.
  - simpl read_region.
    destruct (Z.eqb_spec len 0) as [-> | Hnz];
      [rewrite app_nil_r; reflexivity |].
    cbv zeta. change (4 * 100) with 400.
    destruct (spi_flash_read h addr (if len >? 400 then 400 else len))
      as [rc buf].
    destruct (negb (rc =? 0)); [reflexivity |].
    rewrite IH by (destruct (Z.gtb_spec len 400); lia).
    destruct (read_region fuel h _ _) as [rest |]; [| reflexivity].
    rewrite <- app_assoc. reflexivity.
Qed.

(** [verify_checksum] returns 1 exactly when every read succeeds and the
    hex digest of the region equals the expected one up to case. *)
Lemma verify_checksum_spec (h : flash) (addr len : Z) (cs : list ascii) :
  0 <= len ->
  (verify_checksum h addr len cs = Some 1 <->
   exists data : list Z,
     read_region (Z.to_nat len) h addr len = Some data /\
     strncasecmp (bin2hex (cs_sha1 data)) cs (Z.to_nat SHA1SUM_LEN) = 0).
Proof.
  intros Hlen. unfold verify_checksum.
  rewrite verify_checksum_loop_region by lia. simpl app.
  destruct (read_region (Z.to_nat len) h addr len) as [data |].
  - split.
    + intros [= H]. exists data. split; [reflexivity |].
      apply verify_checksum_compare_match. exact H.
    + intros (d & [= <-] & Hd). f_equal.
      apply verify_checksum_compare_match. exact Hd.
  - split; [discriminate | intros (d & Hd & _); discriminate].
Qed.

End Checksum.

Section FileProtocol.
Context `{P : Platform}.

Lemma matching_part_set_status_msg (ctx : mgos_upd_ctx) (s : string)
    (fi : mgos_upd_file_info) :
  matching_part (set_status_msg ctx s) fi = matching_part ctx fi.
Proof. reflexivity. Qed.

(** [mgos_upd_file_begin] by the part it selects. *)
Lemma mgos_upd_file_begin_dispatch (ctx : mgos_upd_ctx)
    (fi : mgos_upd_file_info) (w : world) :
  mgos_upd_file_begin ctx fi w
  = let ctx0 := set_status_msg ctx "Failed to update file" in
    match matching_part ctx fi with
    | None => Some (MGOS_UPDATER_SKIP_FILE, ctx0, w)
    | Some part =>
        match prepare_to_write ctx0 fi part w with
        | None => None
        | Some (ret, ctx', w') =>
            if ret <? 0 then Some (MGOS_UPDATER_ABORT, ctx', w')
            else Some (if ret =? 0 then MGOS_UPDATER_SKIP_FILE
                       else MGOS_UPDATER_PROCESS_FILE, ctx', w')
        end
    end.
Proof.
  unfold mgos_upd_file_begin, matching_part. simpl.
  destruct (strcmp (ufi_name fi) (fi_file_name (pi_fi (fw_part ctx))) =? 0);
    [reflexivity |].
  destruct (strcmp (ufi_name fi) (fi_file_name (pi_fi (fs_part ctx))) =? 0);
    reflexivity.
Qed.

Lemma matching_part_not_dir (ctx : mgos_upd_ctx) (fi : mgos_upd_file_info) :
  matching_part ctx fi <> Some FsDirPart.
Proof. unfold matching_part. repeat break_if; discriminate. Qed.

(** What [prepare_to_write] does to the context: the device is not
    touched, no file name changes, only the part it is given changes, and
    when it asks for the file (result 1) that part is the current part and
    is not done. *)
Lemma prepare_to_write_frame (ctx ctx' : mgos_upd_ctx)
    (fi : mgos_upd_file_info) (part : part_ref) (w w' : world) (r : Z) :
  prepare_to_write ctx fi part w = Some (r, ctx', w') ->
  w' = w /\ (r = 0 \/ r = 1) /\
  (forall q : part_ref,
     fi_file_name (pi_fi (get_part ctx' q))
     = fi_file_name (pi_fi (get_part ctx q))) /\
  (forall q : part_ref, q <> part -> get_part ctx' q = get_part ctx q) /\
  (current_part ctx' = current_part ctx \/ current_part ctx' = Some part) /\
  (r = 1 -> current_part ctx' = Some part).
Proof.
  unfold prepare_to_write. intros H.
  repeat break_if_in H; try discriminate; injection H as <- <- <-;
    (split; [reflexivity |]); (split; [auto |]);
    (split; [intros q; destruct q, part; reflexivity |]);
    (split; [intros q Hq; destruct q, part; try reflexivity; contradiction |]);
    (split; [destruct part; auto |]);
    intros; try discriminate; destruct part; reflexivity.
Qed.

Lemma matching_part_names (ctx ctx' : mgos_upd_ctx) (fi : mgos_upd_file_info) :
  (forall q : part_ref,
     fi_file_name (pi_fi (get_part ctx' q))
     = fi_file_name (pi_fi (get_part ctx q))) ->
  matching_part ctx' fi = matching_part ctx fi.
Proof.
  intros H. unfold matching_part.
  rewrite (H FwPart : fi_file_name (pi_fi (fw_part ctx')) = _).
  rewrite (H FsPart : fi_file_name (pi_fi (fs_part ctx')) = _).
  reflexivity.
Qed.

End FileProtocol.

Section FlashWriter.
Context `{P : Platform}.

(** One erase round: the call made, and what it does to the context. *)
Lemma prepare_flash_erase_inv (ctx ctx' : mgos_upd_ctx) (w w' : world)
    (rc : Z) :
  prepare_flash_erase ctx w = Some (rc, ctx', w') ->
  exists (ev : event) (h : flash) (v : Z),
    w' = set_hw (log w ev) h /\
    ((ev = EvEraseSector (erased_till ctx / FLASH_SECTOR_SIZE) /\
      v = wrap32 ((erased_till ctx / FLASH_SECTOR_SIZE + 1)
                  * FLASH_SECTOR_SIZE))
     \/
     (ev = EvEraseBlock (erased_till ctx / FLASH_ERASE_BLOCK_SIZE) /\
      v = wrap32 ((erased_till ctx / FLASH_ERASE_BLOCK_SIZE + 1)
                  * FLASH_ERASE_BLOCK_SIZE) /\
      erased_till ctx mod FLASH_ERASE_BLOCK_SIZE = 0)) /\
    ((rc = 0 /\ ctx' = set_erased_till ctx v) \/ (rc <> 0 /\ ctx' = ctx)).
Proof.
  unfold prepare_flash_erase. intros H.
  destruct (Z.eqb_spec (erased_till ctx mod FLASH_ERASE_BLOCK_SIZE) 0)
    as [Hal | Hal].
  - destruct (current_part ctx) as [cp |]; [| discriminate].
    destruct (wrap32 _ >=? wrap32 _).
    + destruct (SPIEraseBlock (hw w) _) as [rc0 h] eqn:E.
      destruct (Z.eqb_spec rc0 0) as [-> | Hrc]; simpl in H;
        injection H as <- <- <-; do 3 eexists;
        (split; [reflexivity |]); (split; [right; eauto |]); auto.
    + destruct (spi_flash_erase_sector (hw w) _) as [rc0 h] eqn:E.
      destruct (Z.eqb_spec rc0 0) as [-> | Hrc]; simpl in H;
        injection H as <- <- <-; do 3 eexists;
        (split; [reflexivity |]); (split; [left; eauto |]); auto.
  - destruct (spi_flash_erase_sector (hw w) _) as [rc0 h] eqn:E.
    destruct (Z.eqb_spec rc0 0) as [-> | Hrc]; simpl in H;
      injection H as <- <- <-; do 3 eexists;
      (split; [reflexivity |]); (split; [left; eauto |]); auto.
Qed.

(** An erase round only moves [erased_till] and only talks to the flash
    driver. *)
Lemma prepare_flash_erase_frame (ctx ctx' : mgos_upd_ctx) (w w' : world)
    (rc : Z) :
  prepare_flash_erase ctx w = Some (rc, ctx', w') ->
  same_parts ctx ctx' /\
  current_write_address ctx' = current_write_address ctx /\
  status_msg ctx' = status_msg ctx /\
  cfg_cache w' = cfg_cache w /\
  exists ev : event,
    trace w' = trace w ++ [ev] /\ is_erase_or_write ev = true /\
    written_bytes [ev] = 0.
Proof.
  intros H. apply prepare_flash_erase_inv in H.
  destruct H as (ev & h & v & -> & Hev & Hctx).
  assert (Hsame : same_parts ctx ctx' /\
                  current_write_address ctx' = current_write_address ctx /\
                  status_msg ctx' = status_msg ctx).
  { destruct Hctx as [(_ & ->) | (_ & ->)]; unfold same_parts; simpl;
      repeat split. }
  destruct Hsame as (H1 & H2 & H3).
  repeat (split; [assumption || reflexivity |]).
  exists ev. split; [reflexivity |].
  destruct Hev as [(-> & _) | (-> & _)]; split; reflexivity.
Qed.

(** With [erased_till] a block short of the end of the address space, an
    erase round that succeeds moves [erased_till] up, to the end of the
    range it erased, and that range holds the old [erased_till]. *)
Lemma prepare_flash_erase_advance (ctx ctx' : mgos_upd_ctx) (w w' : world)
    (rc : Z) :
  0 <= erased_till ctx ->
  erased_till ctx + FLASH_ERASE_BLOCK_SIZE < 2 ^ 32 ->
  prepare_flash_erase ctx w = Some (rc, ctx', w') ->
  (rc <> 0 -> erased_till ctx' = erased_till ctx) /\
  (rc = 0 ->
   erased_till ctx < erased_till ctx'
   <= erased_till ctx + FLASH_ERASE_BLOCK_SIZE).
Proof.
  intros H0 Hmax H. apply prepare_flash_erase_inv in H.
  destruct H as (ev & h & v & _ & Hev & Hctx).
  unfold FLASH_ERASE_BLOCK_SIZE, FLASH_SECTOR_SIZE in *.
  split; intros Hrc; destruct Hctx as [(Hz & ->) | (Hnz & ->)];
    try contradiction; try reflexivity. simpl.
  destruct Hev as [(_ & ->) | (_ & -> & _)];
    rewrite wrap32_small; Z.div_mod_to_equations; lia.
Qed.

Lemma same_parts_refl (ctx : mgos_upd_ctx) : same_parts ctx ctx.
Proof. unfold same_parts. auto. Qed.

Lemma same_parts_trans (c1 c2 c3 : mgos_upd_ctx) :
  same_parts c1 c2 -> same_parts c2 c3 -> same_parts c1 c3.
Proof.
  unfold same_parts. intros (A1 & A2 & A3 & A4 & A5) (B1 & B2 & B3 & B4 & B5).
  repeat split; congruence.
Qed.

(** [prepare_flash] only moves [erased_till], and what it adds to the
    trace are erase calls. *)
Lemma prepare_flash_frame (fuel : nat) :
  forall (ctx ctx' : mgos_upd_ctx) (bytes r : Z) (w w' : world),
    prepare_flash fuel ctx bytes w = Some (r, ctx', w') ->
    same_parts ctx ctx' /\
    current_write_address ctx' = current_write_address ctx /\
    status_msg ctx' = status_msg ctx /\
    cfg_cache w' = cfg_cache w /\
    (r = 1 \/ r = -1) /\
    exists t : list event,
      trace w' = trace w ++ t /\ written_bytes t = 0 /\
      forallb is_erase_or_write t = true.
Proof.
  induction fuel as [| fuel IH]; intros ctx ctx' bytes r w w' H; simpl in H.
  - destruct (wrap32 _ >? erased_till ctx); [discriminate |].
    injection H as <- <- <-.
    repeat (split; [apply same_parts_refl || reflexivity || auto |]).
    exists []. rewrite app_nil_r. auto.
  - destruct (wrap32 _ >? erased_till ctx).
    + destruct (prepare_flash_erase ctx w) as [[[rc c1] w1] |] eqn:E;
        [| discriminate].
      destruct (prepare_flash_erase_frame _ _ _ _ _ E)
        as (S1 & A1 & M1 & C1 & ev & T1 & Eev & Wev).
      destruct (negb (rc =? 0)).
      * injection H as <- <- <-.
        repeat (split; [assumption || auto |]).
        exists [ev]. rewrite T1. simpl in *. rewrite Eev. auto.
      * apply IH in H.
        destruct H as (S2 & A2 & M2 & C2 & Hr & t & T2 & Wt & Et).
        split; [eapply same_parts_trans; eassumption |].
        repeat (split; [congruence || assumption |]).
        exists (ev :: t). rewrite T2, T1, <- app_assoc.
        split; [reflexivity |]. simpl in *. rewrite Eev, Et.
        destruct ev; try discriminate; split; try reflexivity; lia.
    + injection H as <- <- <-.
      repeat (split; [apply same_parts_refl || reflexivity || auto |]).
      exists []. rewrite app_nil_r. auto.
Qed.

(** [erased_till] does not go down in [prepare_flash], and a result of 1
    means the range to write is below it. *)
Lemma prepare_flash_monotone (fuel : nat) :
  forall (ctx ctx' : mgos_upd_ctx) (bytes r : Z) (w w' : world),
    0 <= erased_till ctx ->
    wrap32 (current_write_address ctx + bytes) + FLASH_ERASE_BLOCK_SIZE
    <= 2 ^ 32 ->
    prepare_flash fuel ctx bytes w = Some (r, ctx', w') ->
    erased_till ctx <= erased_till ctx' /\
    (r = 1 ->
     wrap32 (current_write_address ctx + bytes) <= erased_till ctx').
Proof.
  induction fuel as [| fuel IH]; intros ctx ctx' bytes r w w' H0 Hmax H;
    simpl in H.
  - destruct (Z.gtb_spec (wrap32 (current_write_address ctx + bytes))
                (erased_till ctx)); [discriminate |].
    injection H as <- <- <-. split; [lia | intros _; lia].
  - destruct (Z.gtb_spec (wrap32 (current_write_address ctx + bytes))
                (erased_till ctx)) as [Hgt | Hle].
    + destruct (prepare_flash_erase ctx w) as [[[rc c1] w1] |] eqn:E;
        [| discriminate].
      destruct (prepare_flash_erase_advance ctx c1 w w1 rc H0 ltac:(lia) E)
        as (Hfail & Hok).
      destruct (prepare_flash_erase_frame _ _ _ _ _ E) as (_ & A1 & _).
      destruct (Z.eqb_spec rc 0) as [Hz | Hnz]; simpl in H.
      * specialize (Hok Hz).
        apply IH in H; [| lia | rewrite A1; exact Hmax].
        rewrite A1 in H. destruct H as (Hm & Hr). split; [lia | exact Hr].
      * injection H as <- <- <-. specialize (Hfail Hnz).
        split; [lia | intros; lia].
    + injection H as <- <- <-. split; [lia | intros _; lia].
Qed.

(** [prepare_flash] returns when it has one unit of fuel per byte between
    [erased_till] and the end of the range (each round gains at least one
    byte), a current part is set and the range ends a block short of the
    end of the address space. *)
Lemma prepare_flash_terminates (fuel : nat) :
  forall (ctx : mgos_upd_ctx) (bytes : Z) (w : world),
    current_part ctx <> None ->
    0 <= erased_till ctx ->
    wrap32 (current_write_address ctx + bytes) + FLASH_ERASE_BLOCK_SIZE
    <= 2 ^ 32 ->
    wrap32 (current_write_address ctx + bytes) - erased_till ctx
    <= Z.of_nat fuel ->
    exists (r : Z) (ctx' : mgos_upd_ctx) (w' : world),
      prepare_flash fuel ctx bytes w = Some (r, ctx', w').
Proof.
  induction fuel as [| fuel IH]; intros ctx bytes w Hcp H0 Hmax Hfuel;
    simpl.
  - destruct (Z.gtb_spec (wrap32 (current_write_address ctx + bytes))
                (erased_till ctx)); [lia | eauto].
  - destruct (Z.gtb_spec (wrap32 (current_write_address ctx + bytes))
                (erased_till ctx)) as [Hgt | Hle]; [| eauto].
    destruct (prepare_flash_erase ctx w) as [[[rc c1] w1] |] eqn:E.
    + destruct (prepare_flash_erase_advance ctx c1 w w1 rc H0 ltac:(lia) E)
        as (Hfail & Hok).
      destruct (prepare_flash_erase_frame _ _ _ _ _ E)
        as ((_ & _ & _ & Hcp1 & _) & A1 & _).
      destruct (Z.eqb_spec rc 0) as [Hz | Hnz]; simpl; [| eauto].
      specialize (Hok Hz). apply IH.
      * rewrite Hcp1. exact Hcp.
      * lia.
      * rewrite A1. exact Hmax.
      * rewrite A1. lia.
    + exfalso. unfold prepare_flash_erase in E.
      destruct (current_part ctx); [| contradiction].
      repeat break_if_in E; discriminate.
Qed.

Lemma calls_succeed_snoc (h h1 : flash) (t : list event) (ev : event) :
  calls_succeed h t = Some h1 ->
  calls_succeed h (t ++ [ev])
  = (if fst (driver_call h1 ev) =? 0 then Some (snd (driver_call h1 ev))
     else None).
Proof.
  revert h. induction t as [| e t IH]; intros h H; simpl in *.
  - injection H as ->. destruct (driver_call h1 ev) as [rc h2]. simpl.
    destruct (rc =? 0); reflexivity.
  - destruct (driver_call h e) as [rc h2].
    destruct (rc =? 0); [apply IH; exact H | discriminate].
Qed.

(** The erase round is one call of the driver: the event it logs, made on
    the flash as it was, gives the result code and the flash of the
    round. *)
Lemma prepare_flash_erase_call (ctx ctx' : mgos_upd_ctx) (w w' : world)
    (rc : Z) :
  prepare_flash_erase ctx w = Some (rc, ctx', w') ->
  exists ev : event,
    trace w' = trace w ++ [ev] /\ erased_region ev <> None /\
    driver_call (hw w) ev = (rc, hw w').
Proof.
  unfold prepare_flash_erase. intros H.
  destruct (Z.eqb_spec (erased_till ctx mod FLASH_ERASE_BLOCK_SIZE) 0)
    as [Hal | Hal].
  - destruct (current_part ctx) as [cp |]; [| discriminate].
    destruct (wrap32 _ >=? wrap32 _).
    + destruct (SPIEraseBlock (hw w) _) as [rc0 h] eqn:E.
      destruct (Z.eqb_spec rc0 0) as [-> | Hrc]; simpl in H;
        injection H as <- <- <-; eexists;
        (split; [reflexivity |]); (split; [| exact E]); discriminate.
    + destruct (spi_flash_erase_sector (hw w) _) as [rc0 h] eqn:E.
      destruct (Z.eqb_spec rc0 0) as [-> | Hrc]; simpl in H;
        injection H as <- <- <-; eexists;
        (split; [reflexivity |]); (split; [| exact E]); discriminate.
  - destruct (spi_flash_erase_sector (hw w) _) as [rc0 h] eqn:E.
    destruct (Z.eqb_spec rc0 0) as [-> | Hrc]; simpl in H;
      injection H as <- <- <-; eexists;
      (split; [reflexivity |]); (split; [| exact E]); discriminate.
Qed.

(** The calls [prepare_flash] makes are erase calls.  With result 1 all of
    them succeeded and the flash is what they left; with result -1 all but
    the last succeeded and the last returned an error.  When it makes no
    call, the context is as it was. *)
Lemma prepare_flash_calls (fuel : nat) :
  forall (ctx ctx' : mgos_upd_ctx) (bytes r : Z) (w w' : world)
         (t : list event),
    prepare_flash fuel ctx bytes w = Some (r, ctx', w') ->
    trace w' = trace w ++ t ->
    Forall (fun ev => erased_region ev <> None) t /\
    (t = [] -> ctx' = ctx) /\
    ((r = 1 /\ calls_succeed (hw w) t = Some (hw w')) \/
     (r = -1 /\
      exists (t0 : list event) (ev : event) (h1 : flash),
        t = t0 ++ [ev] /\ calls_succeed (hw w) t0 = Some h1 /\
        fst (driver_call h1 ev) <> 0 /\
        hw w' = snd (driver_call h1 ev))).
Proof.
  induction fuel as [| fuel IH]; intros ctx ctx' bytes r w w' t H T;
    simpl in H.
  - destruct (wrap32 _ >? erased_till ctx); [discriminate |].
    injection H as <- <- <-.
    assert (t = []) as ->
      by (apply (app_inv_head (trace w)); rewrite app_nil_r; auto).
    split; [constructor |]. split; [reflexivity |]. left. auto.
  - destruct (wrap32 _ >? erased_till ctx).
    + destruct (prepare_flash_erase ctx w) as [[[rc c1] w1] |] eqn:E;
        [| discriminate].
      destruct (prepare_flash_erase_call _ _ _ _ _ E) as (ev & T1 & Hev & Hd).
      destruct (Z.eqb_spec rc 0) as [Hz | Hnz]; simpl in H.
      * destruct (prepare_flash_frame _ _ _ _ _ _ _ H)
          as (_ & _ & _ & _ & _ & t2 & T2 & _).
        assert (t = ev :: t2) as ->.
        { apply (app_inv_head (trace w)). rewrite <- T, T2, T1, <- app_assoc.
          reflexivity. }
        destruct (IH _ _ _ _ _ _ _ H T2) as (F2 & _ & Hr).
        split; [constructor; assumption |]. split; [discriminate |].
        destruct Hr as [(-> & Hs) | (-> & t0 & e & h1 & -> & Hs & Hf & Hh)].
        -- left. split; [reflexivity |]. simpl. rewrite Hd, Hz. exact Hs.
        -- right. split; [reflexivity |].
           exists (ev :: t0), e, h1. split; [reflexivity |].
           split; [simpl; rewrite Hd, Hz; exact Hs |]. auto.
      * injection H as <- <- <-.
        assert (t = [ev]) as ->
          by (apply (app_inv_head (trace w)); rewrite <- T, T1; reflexivity).
        split; [constructor; [assumption | constructor] |].
        split; [discriminate |].
        right. split; [reflexivity |].
        exists [], ev, (hw w). split; [reflexivity |].
        split; [reflexivity |]. rewrite Hd. auto.
    + injection H as <- <- <-.
      assert (t = []) as ->
        by (apply (app_inv_head (trace w)); rewrite app_nil_r; auto).
      split; [constructor |]. split; [reflexivity |]. left. auto.
Qed.

End FlashWriter.

Section FileData.
Context `{P : Platform}.

(** The test that guards the padded write of the tail,
    [rest > 0 && rest < 4 && data.len >= 4], is made after [data.len] was
    reduced to [len mod 4]; it never holds.  [mgos_upd_file_data]
    therefore is: defer, or erase and write the aligned prefix. *)
Lemma mgos_upd_file_data_eq (fuel : nat) (ctx : mgos_upd_ctx)
    (fi : mgos_upd_file_info) (data : list Z) (w : world) :
  Z.of_nat (List.length data) < 2 ^ 32 ->
  mgos_upd_file_data fuel ctx fi data w
  = let len := Z.of_nat (List.length data) in
    if (len <? UPDATER_MIN_BLOCK_SIZE)
       && (wrap32 (ufi_size fi - ufi_processed fi) >? UPDATER_MIN_BLOCK_SIZE)
    then Some (0, ctx, w)
    else
      match prepare_flash fuel ctx len w with
      | None => None
      | Some (r, c, w1) =>
          if r <? 0 then Some (-1, set_status_msg c "Failed to erase flash", w1)
          else
            let a := 4 * (len / 4) in
            if a >? 0 then
              let buf := firstn (Z.to_nat a) data in
              let addr := current_write_address c in
              let '(rc, h) := spi_flash_write (hw w1) addr buf in
              let w2 := set_hw (log w1 (EvWrite addr buf)) h in
              if negb (rc =? 0) then
                Some (-1, set_status_msg c "Failed to write to flash", w2)
              else
                Some (int32 a,
                      set_current_write_address c
                        (wrap32 (current_write_address c + a)), w2)
            else Some (0, c, w1)
      end.
Proof.
  intros Hlen. unfold mgos_upd_file_data. cbv zeta.
  set (len := Z.of_nat (List.length data)) in *.
  assert (H0 : 0 <= len) by (unfold len; lia).
  rewrite (land_minus4 len) by lia.
  destruct ((len <? UPDATER_MIN_BLOCK_SIZE) && _); [reflexivity |].
  destruct (prepare_flash fuel ctx len w) as [[[r c] w1] |]; [| reflexivity].
  destruct (r <? 0); [reflexivity |].
  destruct (Z.gtb_spec (4 * (len / 4)) 0) as [Hgt | Hle].
  - destruct (spi_flash_write (hw w1) (current_write_address c) _) as [rc h].
    destruct (negb (rc =? 0)); [reflexivity |].
    replace (len - 4 * (len / 4) >=? 4) with false
      by (symmetry; rewrite Z.geb_leb; apply Z.leb_gt;
          Z.div_mod_to_equations; lia).
    rewrite andb_false_r. reflexivity.
  - replace (len >=? 4) with false
      by (symmetry; rewrite Z.geb_leb; apply Z.leb_gt;
          Z.div_mod_to_equations; lia).
    rewrite andb_false_r. reflexivity.
Qed.

(** [mgos_upd_file_data] changes the two cursors and the status message
    only, and leaves the cached boot configuration alone. *)
Lemma mgos_upd_file_data_frame (fuel : nat) (ctx ctx' : mgos_upd_ctx)
    (fi : mgos_upd_file_info) (data : list Z) (w w' : world) (r : Z) :
  mgos_upd_file_data fuel ctx fi data w = Some (r, ctx', w') ->
  same_parts ctx ctx' /\ cfg_cache w' = cfg_cache w.
Proof.
  unfold mgos_upd_file_data. cbv zeta. intros H.
  destruct (_ && _) in H;
    [injection H as <- <- <-; split; [apply same_parts_refl | reflexivity] |].
  destruct (prepare_flash fuel ctx _ w) as [[[r1 c1] w1] |] eqn:E;
    [| discriminate].
  destruct (prepare_flash_frame _ _ _ _ _ _ _ E) as (S1 & _ & _ & C1 & _).
  assert (Hst : forall s, same_parts ctx (set_status_msg c1 s))
    by (intros s; exact S1).
  assert (Hcw : forall v, same_parts ctx (set_current_write_address c1 v))
    by (intros v; exact S1).
  repeat (break_if_in H; cbv beta iota zeta in H);
    try discriminate; injection H as <- <- <-; split; auto.
Qed.

(** What one call hands to [spi_flash_write]: nothing, or the aligned
    prefix of the chunk at [current_write_address]; the result is then the
    length of that prefix.  No call writes a padded tail. *)
Lemma mgos_upd_file_data_writes (fuel : nat) (ctx ctx' : mgos_upd_ctx)
    (fi : mgos_upd_file_info) (data : list Z) (w w' : world) (r : Z) :
  Z.of_nat (List.length data) < 2 ^ 31 ->
  mgos_upd_file_data fuel ctx fi data w = Some (r, ctx', w') ->
  let a := 4 * (Z.of_nat (List.length data) / 4) in
  (r = -1 /\ written_bytes (new_events w w') <= a) \/
  (r = 0 /\ written_bytes (new_events w w') = 0) \/
  (r = a /\ written_bytes (new_events w w') = a /\
   exists t : list event,
     new_events w w'
     = t ++ [EvWrite (current_write_address ctx)
               (firstn (Z.to_nat a) data)]).
Proof.
  intros Hlen H. rewrite mgos_upd_file_data_eq in H by lia.
  cbv zeta in H. intros a.
  set (len := Z.of_nat (List.length data)) in *.
  assert (Ha : 0 <= a <= len) by (unfold a; Z.div_mod_to_equations; lia).
  destruct (_ && _) in H.
  { injection H as <- <- <-. right. left.
    rewrite new_events_self. auto. }
  destruct (prepare_flash fuel ctx len w) as [[[r1 c1] w1] |] eqn:E;
    [| discriminate].
  destruct (prepare_flash_frame _ _ _ _ _ _ _ E)
    as (_ & A1 & _ & _ & _ & t & T1 & W1 & _).
  destruct (r1 <? 0).
  { injection H as <- <- <-. left.
    rewrite (new_events_app _ _ _ T1). split; [reflexivity | lia]. }
  destruct (Z.gtb_spec (4 * (len / 4)) 0) as [Hgt | Hle].
  - destruct (spi_flash_write (hw w1) (current_write_address c1) _)
      as [rc h].
    assert (Hfl : Z.of_nat (List.length (firstn (Z.to_nat a) data)) = a).
    { rewrite length_firstn. unfold len in Ha. lia. }
    destruct (negb (rc =? 0)); injection H as <- <- <-.
    + left. split; [reflexivity |].
      rewrite (new_events_app w _ (t ++ [EvWrite (current_write_address c1)
                                          (firstn (Z.to_nat a) data)])).
      * rewrite written_bytes_app, W1. simpl. fold a. lia.
      * simpl. rewrite T1, <- app_assoc. reflexivity.
    + right. right. fold a.
      rewrite (new_events_app w _ (t ++ [EvWrite (current_write_address c1)
                                          (firstn (Z.to_nat a) data)]))
        by (simpl; rewrite T1, <- app_assoc; reflexivity).
      split; [apply int32_small; lia |]. split.
      * rewrite written_bytes_app, W1. simpl. lia.
      * exists t. rewrite A1. reflexivity.
  - injection H as <- <- <-. right. left.
    rewrite (new_events_app _ _ _ T1). auto.
Qed.

End FileData.

Section FlashClaims.
Context `{P : Platform}.

(** C6: a chunk shorter than 2048 bytes that arrives while more than 2048
    bytes of the file remain is deferred: the call returns 0 and changes
    nothing, so nothing is erased or written.  A short chunk that arrives
    when at most 2048 bytes remain (the final remainder, such as 100 bytes
    of the last 100) is processed in that call: the call returns, the
    range is erased up to the end of the chunk and the aligned prefix of
    the chunk is written at the write address, which moves on by the count
    returned; every driver call made returned 0 and the flash is what
    these calls left.  The only other outcome is [-1], and then the last
    call made is an erase call or the write of the aligned prefix, the
    calls before it succeeded, and that call itself returned an error; the
    status message names the erase or the write and the write address has
    not moved. *)
Theorem mgos_upd_file_data_min_block (fuel : nat) (ctx : mgos_upd_ctx)
    (fi : mgos_upd_file_info) (data : list Z) (w : world) :
  let len := Z.of_nat (List.length data) in
  len < UPDATER_MIN_BLOCK_SIZE ->
  0 <= ufi_processed fi <= ufi_size fi -> ufi_size fi < 2 ^ 32 ->
  (ufi_size fi - ufi_processed fi > UPDATER_MIN_BLOCK_SIZE ->
   mgos_upd_file_data fuel ctx fi data w = Some (0, ctx, w)) /\
  (ufi_size fi - ufi_processed fi <= UPDATER_MIN_BLOCK_SIZE ->
   current_part ctx <> None ->
   0 <= erased_till ctx -> 0 <= current_write_address ctx ->
   current_write_address ctx + len + FLASH_ERASE_BLOCK_SIZE <= 2 ^ 32 ->
   current_write_address ctx + len - erased_till ctx <= Z.of_nat fuel ->
   exists (r : Z) (ctx' : mgos_upd_ctx) (w' : world),
     mgos_upd_file_data fuel ctx fi data w = Some (r, ctx', w') /\
     ((r = -1 /\
       (status_msg ctx' = Some "Failed to erase flash"%string \/
        status_msg ctx' = Some "Failed to write to flash"%string) /\
       current_write_address ctx' = current_write_address ctx /\
       exists (t0 : list event) (ev : event) (h1 : flash),
         new_events w w' = t0 ++ [ev] /\
         calls_succeed (hw w) t0 = Some h1 /\
         fst (driver_call h1 ev) <> 0 /\
         hw w' = snd (driver_call h1 ev) /\
         ((erased_region ev <> None /\
           status_msg ctx' = Some "Failed to erase flash"%string) \/
          (ev = EvWrite (current_write_address ctx)
                  (firstn (Z.to_nat (4 * (len / 4))) data) /\
           status_msg ctx' = Some "Failed to write to flash"%string))) \/
      (r = 4 * (len / 4) /\
       current_write_address ctx' = current_write_address ctx + r /\
       current_write_address ctx + len <= erased_till ctx' /\
       written_bytes (new_events w w') = r /\
       (0 < r ->
        exists t : list event,
          new_events w w'
          = t ++ [EvWrite (current_write_address ctx)
                    (firstn (Z.to_nat r) data)]) /\
       calls_succeed (hw w) (new_events w w') = Some (hw w') /\
       (erased_till ctx < current_write_address ctx + len ->
        exists ev : event,
          In ev (new_events w w') /\ erased_region ev <> None)))).
Proof.
  intros len Hshort Hproc Hsize.
  assert (Hlen0 : 0 <= len) by (unfold len; lia).
  unfold UPDATER_MIN_BLOCK_SIZE in *.
  assert (Hrem : wrap32 (ufi_size fi - ufi_processed fi)
                 = ufi_size fi - ufi_processed fi)
    by (apply wrap32_small; lia).
  split.
  - intros Hmore. unfold mgos_upd_file_data. cbv zeta. fold len.
    rewrite Hrem. unfold UPDATER_MIN_BLOCK_SIZE.
    replace (len <? 2048) with true by (symmetry; apply Z.ltb_lt; lia).
    replace (ufi_size fi - ufi_processed fi >? 2048) with true
      by (symmetry; rewrite Z.gtb_ltb; apply Z.ltb_lt; lia).
    reflexivity.
  - intros Hlast Hcp He Hcwa Hmax Hfuel.
    unfold FLASH_ERASE_BLOCK_SIZE in Hmax.
    assert (Hend : wrap32 (current_write_address ctx + len)
                   = current_write_address ctx + len)
      by (apply wrap32_small; lia).
    destruct (prepare_flash_terminates fuel ctx len w Hcp He)
      as (r1 & c1 & w1 & E);
      [rewrite Hend; unfold FLASH_ERASE_BLOCK_SIZE; lia
      | rewrite Hend; lia |].
    destruct (prepare_flash_frame _ _ _ _ _ _ _ E)
      as (_ & A1 & M1 & _ & Hr1 & t & T1 & W1 & _).
    destruct (prepare_flash_calls _ _ _ _ _ _ _ _ E T1)
      as (Ft & Hnil & Hcalls).
    destruct (prepare_flash_monotone fuel ctx c1 len r1 w w1 He) as (_ & Hcov);
      [rewrite Hend; unfold FLASH_ERASE_BLOCK_SIZE; lia | exact E |].
    rewrite Hend in Hcov.
    pose proof (mgos_upd_file_data_eq fuel ctx fi data w ltac:(fold len; lia))
      as Heq.
    cbv zeta in Heq. fold len in Heq. rewrite Hrem in Heq.
    unfold UPDATER_MIN_BLOCK_SIZE in Heq.
    replace (ufi_size fi - ufi_processed fi >? 2048) with false in Heq
      by (symmetry; rewrite Z.gtb_ltb; apply Z.ltb_ge; lia).
    rewrite andb_false_r, E in Heq.
    assert (Ha : 0 <= 4 * (len / 4) <= len)
      by (Z.div_mod_to_equations; lia).
    assert (Herased : erased_till ctx < current_write_address ctx + len ->
              current_write_address ctx + len <= erased_till c1 ->
              forall t2 : list event,
                exists ev : event, In ev (t ++ t2) /\ erased_region ev <> None).
    { intros Hlt Hge t2. destruct t as [| ev t].
      - rewrite (Hnil eq_refl) in Hge. lia.
      - exists ev. split; [left; reflexivity |].
        inversion Ft; assumption. }
    destruct Hcalls as [(-> & Hs) | (-> & t0 & ev & h1 & -> & Hs & Hf & Hh)];
      simpl (_ <? 0) in Heq; cbv iota in Heq.
    + specialize (Hcov eq_refl).
      destruct (Z.gtb_spec (4 * (len / 4)) 0) as [Hgt | Hle].
      * destruct (spi_flash_write (hw w1) (current_write_address c1) _)
          as [rc h] eqn:Ew.
        pose proof (calls_succeed_snoc _ _ _
                      (EvWrite (current_write_address c1)
                         (firstn (Z.to_nat (4 * (len / 4))) data)) Hs)
          as Hsn.
        simpl driver_call in Hsn. rewrite Ew in Hsn. simpl in Hsn.
        destruct (Z.eqb_spec rc 0) as [Hz | Hnz]; simpl negb in Heq;
          cbv iota in Heq; do 3 eexists; (split; [exact Heq |]).
        -- right. rewrite int32_small by lia.
           split; [reflexivity |]. simpl.
           split; [rewrite A1; apply wrap32_small; lia |].
           split; [exact Hcov |].
           rewrite (new_events_app w _
                      (t ++ [EvWrite (current_write_address c1)
                               (firstn (Z.to_nat (4 * (len / 4))) data)]))
             by (simpl; rewrite T1, <- app_assoc; reflexivity).
           split.
           { rewrite written_bytes_app, W1. simpl.
             rewrite length_firstn. fold len in Ha |- *. lia. }
           split; [intros _; exists t; rewrite A1; reflexivity |].
           split; [exact Hsn |].
           intros Hlt. apply Herased; assumption.
        -- left. split; [reflexivity |].
           split; [right; reflexivity |].
           split; [exact A1 |].
           exists t, (EvWrite (current_write_address c1)
                        (firstn (Z.to_nat (4 * (len / 4))) data)), (hw w1).
           rewrite (new_events_app w _
                      (t ++ [EvWrite (current_write_address c1)
                               (firstn (Z.to_nat (4 * (len / 4))) data)]))
             by (simpl; rewrite T1, <- app_assoc; reflexivity).
           split; [reflexivity |]. split; [exact Hs |].
           simpl driver_call. rewrite Ew. simpl.
           split; [exact Hnz |]. split; [reflexivity |].
           right. rewrite A1. split; reflexivity.
      * do 3 eexists. split; [exact Heq |]. right.
        assert (Hz : 4 * (len / 4) = 0) by lia.
        rewrite Hz. split; [reflexivity |].
        split; [rewrite A1; lia |]. split; [exact Hcov |].
        rewrite (new_events_app _ _ _ T1).
        split; [exact W1 |]. split; [intros; lia |].
        split; [exact Hs |].
        intros Hlt. rewrite <- (app_nil_r t). apply Herased; assumption.
    + do 3 eexists. split; [exact Heq |]. left.
      split; [reflexivity |]. split; [left; reflexivity |].
      split; [exact A1 |].
      exists t0, ev, h1. rewrite (new_events_app _ _ _ T1).
      split; [reflexivity |]. split; [exact Hs |].
      split; [exact Hf |]. split; [exact Hh |].
      left. split; [| reflexivity].
      apply Forall_app in Ft. destruct Ft as (_ & Fe).
      inversion Fe; assumption.
Qed.

(** C8 (as amended): [prepare_flash] erases nothing when the range to be
    written ends at or below [erased_till].  Each erase round clears the
    block or the sector that holds [erased_till]; that range starts at
    [erased_till] itself when [erased_till] is sector aligned, so nothing
    below it is erased again, and after a successful erase [erased_till]
    is the end of the range, above its old value.  A block is erased when
    [erased_till] is block aligned and the current part reaches at least a
    block beyond it, a sector otherwise.  [erased_till] never goes down in
    [prepare_flash] nor in [mgos_upd_file_data]. *)
Theorem prepare_flash_erase_minimal (ctx : mgos_upd_ctx) (w : world)
    (cp : part_ref) :
  let e := erased_till ctx in
  let part := get_part ctx cp in
  current_part ctx = Some cp ->
  0 <= e -> e + FLASH_ERASE_BLOCK_SIZE < 2 ^ 32 ->
  0 <= pi_addr part + fi_size (pi_fi part) < 2 ^ 32 ->
  (forall (fuel : nat) (bytes : Z),
     wrap32 (current_write_address ctx + bytes) <= e ->
     prepare_flash fuel ctx bytes w = Some (1, ctx, w)) /\
  (exists (rc : Z) (ctx' : mgos_upd_ctx) (w' : world) (ev : event)
          (lo hi : Z),
     prepare_flash_erase ctx w = Some (rc, ctx', w') /\
     trace w' = trace w ++ [ev] /\
     (e mod FLASH_ERASE_BLOCK_SIZE = 0 /\
      pi_addr part + fi_size (pi_fi part) >= e + FLASH_ERASE_BLOCK_SIZE ->
      ev = EvEraseBlock (e / FLASH_ERASE_BLOCK_SIZE)) /\
     (~ (e mod FLASH_ERASE_BLOCK_SIZE = 0 /\
         pi_addr part + fi_size (pi_fi part) >= e + FLASH_ERASE_BLOCK_SIZE) ->
      ev = EvEraseSector (e / FLASH_SECTOR_SIZE)) /\
     erased_region ev = Some (lo, hi) /\
     lo <= e < hi /\
     (e mod FLASH_SECTOR_SIZE = 0 -> lo = e) /\
     (rc = 0 -> erased_till ctx' = hi) /\
     (rc <> 0 -> erased_till ctx' = e)) /\
  (forall (fuel : nat) (bytes r : Z) (ctx' : mgos_upd_ctx) (w' : world),
     wrap32 (current_write_address ctx + bytes) + FLASH_ERASE_BLOCK_SIZE
     <= 2 ^ 32 ->
     prepare_flash fuel ctx bytes w = Some (r, ctx', w') ->
     e <= erased_till ctx') /\
  (forall (fuel : nat) (fi : mgos_upd_file_info) (data : list Z) (r : Z)
          (ctx' : mgos_upd_ctx) (w' : world),
     wrap32 (current_write_address ctx + Z.of_nat (List.length data))
     + FLASH_ERASE_BLOCK_SIZE <= 2 ^ 32 ->
     mgos_upd_file_data fuel ctx fi data w = Some (r, ctx', w') ->
     e <= erased_till ctx').
Proof.
  intros e part Hcp He Hmax Hpart.
  split; [| split; [| split]].
  - intros fuel bytes Hle.
    destruct fuel; simpl;
      (destruct (Z.gtb_spec (wrap32 (current_write_address ctx + bytes))
                  (erased_till ctx)); [unfold e in *; lia | reflexivity]).
  - unfold prepare_flash_erase. rewrite Hcp. fold e. fold part.
    unfold FLASH_ERASE_BLOCK_SIZE, FLASH_SECTOR_SIZE in *.
    rewrite (wrap32_small (pi_addr part + fi_size (pi_fi part))) by lia.
    rewrite (wrap32_small (e + 65536)) by lia.
    assert (Hsec :
      exists rc ctx' w',
        (let '(rc, h) := spi_flash_erase_sector (hw w) (e / 4096) in
         let w0 := set_hw (log w (EvEraseSector (e / 4096))) h in
         if negb (rc =? 0) then Some (rc, ctx, w0)
         else Some (0, set_erased_till ctx (wrap32 ((e / 4096 + 1) * 4096)),
                    w0))
        = Some (rc, ctx', w') /\
        trace w' = trace w ++ [EvEraseSector (e / 4096)] /\
        (rc = 0 -> erased_till ctx' = (e / 4096 + 1) * 4096) /\
        (rc <> 0 -> erased_till ctx' = e)).
    { destruct (spi_flash_erase_sector (hw w) (e / 4096)) as [rc h].
      destruct (Z.eqb_spec rc 0) as [-> | Hrc]; simpl;
        do 3 eexists; (split; [reflexivity |]); (split; [reflexivity |]);
        split; intros; try contradiction; try reflexivity.
      simpl. apply wrap32_small. Z.div_mod_to_equations. lia. }
    destruct Hsec as (rcs & cs & ws & Es & Ts & Hs0 & Hs1).
    destruct (Z.eqb_spec (e mod 65536) 0) as [Hal | Hal].
    + destruct (Z.geb_spec (pi_addr part + fi_size (pi_fi part)) (e + 65536))
        as [Hreach | Hshort].
      * destruct (SPIEraseBlock (hw w) (e / 65536)) as [rc h].
        exists rc.
        destruct (Z.eqb_spec rc 0) as [-> | Hrc]; simpl;
          do 2 eexists; exists (EvEraseBlock (e / 65536));
          exists (e / 65536 * 65536), ((e / 65536 + 1) * 65536);
          (split; [reflexivity |]); (split; [reflexivity |]);
          (split; [reflexivity |]);
          (split; [intros Hn; exfalso; apply Hn; split; [exact Hal | lia] |]);
          (split; [reflexivity |]);
          (split; [Z.div_mod_to_equations; lia |]);
          (split; [intros _; Z.div_mod_to_equations; lia |]);
          split; intros; try contradiction; try reflexivity.
        simpl. apply wrap32_small. Z.div_mod_to_equations. lia.
      * exists rcs, cs, ws, (EvEraseSector (e / 4096)).
        exists (e / 4096 * 4096), ((e / 4096 + 1) * 4096).
        split; [exact Es |]. split; [exact Ts |].
        split; [intros (_ & Hc); lia |].
        split; [reflexivity |]. split; [reflexivity |].
        split; [Z.div_mod_to_equations; lia |].
        split; [intros; Z.div_mod_to_equations; lia |].
        split; assumption.
    + exists rcs, cs, ws, (EvEraseSector (e / 4096)).
      exists (e / 4096 * 4096), ((e / 4096 + 1) * 4096).
      split; [exact Es |]. split; [exact Ts |].
      split; [intros (Hc & _); contradiction |].
      split; [reflexivity |]. split; [reflexivity |].
      split; [Z.div_mod_to_equations; lia |].
      split; [intros; Z.div_mod_to_equations; lia |].
      split; assumption.
  - intros fuel bytes r ctx' w' Hend H.
    apply (prepare_flash_monotone fuel ctx ctx' bytes r w w' He Hend H).
  - intros fuel fi data r ctx' w' Hend H.
    unfold mgos_upd_file_data in H. cbv zeta in H.
    destruct (_ && _) in H; [injection H as <- <- <-; fold e; lia |].
    destruct (prepare_flash fuel ctx _ w) as [[[r1 c1] w1] |] eqn:E;
      [| discriminate].
    destruct (prepare_flash_monotone fuel ctx c1 _ r1 w w1 He Hend E)
      as (Hm & _).
    fold e in Hm.
    repeat (break_if_in H; cbv beta iota zeta in H);
      try discriminate; injection H as <- <- <-; exact Hm.
Qed.

End FlashClaims.

Section StateMachine.
Context `{P : Platform}.

Lemma mgos_upd_file_begin_done (ctx : mgos_upd_ctx) (fi : mgos_upd_file_info)
    (w : world) (part : part_ref) :
  matching_part ctx fi = Some part ->
  pi_done (get_part ctx part) <> 0 ->
  mgos_upd_file_begin ctx fi w
  = Some (MGOS_UPDATER_SKIP_FILE,
          set_status_msg ctx "Failed to update file", w).
Proof.
  intros Hm Hdone. rewrite mgos_upd_file_begin_dispatch. cbv zeta.
  rewrite Hm. unfold prepare_to_write.
  replace (pi_done (get_part (set_status_msg ctx "Failed to update file") part))
    with (pi_done (get_part ctx part)) by (destruct part; reflexivity).
  apply Z.eqb_neq in Hdone. rewrite Hdone. reflexivity.
Qed.

Lemma data_calls_frame (s s' : mgos_upd_ctx * world) :
  data_calls s s' -> same_parts (fst s) (fst s').
Proof.
  induction 1 as [s | fuel ctx w fi data r ctx' w' s'' Hd _ IH]; simpl in *.
  - apply same_parts_refl.
  - eapply same_parts_trans; [| exact IH].
    apply (mgos_upd_file_data_frame _ _ _ _ _ _ _ _ Hd).
Qed.

Lemma same_parts_get_part (ctx ctx' : mgos_upd_ctx) (q : part_ref) :
  same_parts ctx ctx' -> get_part ctx' q = get_part ctx q.
Proof. intros (A & B & C & _). destruct q; assumption. Qed.

(** What a successful [mgos_upd_file_end] leaves: the current part is
    done, nothing else changed. *)
Lemma mgos_upd_file_end_success (ctx ctx' : mgos_upd_ctx)
    (fi : mgos_upd_file_info) (tail : list Z) (w w' : world) (r : Z) :
  mgos_upd_file_end ctx fi tail w = Some (r, ctx', w') -> r <> -1 ->
  exists cp : part_ref,
    current_part ctx = Some cp /\ w' = w /\ r = 0 /\
    ctx' = set_part ctx cp (set_pi_done (get_part ctx cp) 1).
Proof.
  unfold mgos_upd_file_end. intros H Hr.
  destruct (Z.eqb_spec (Z.of_nat (List.length tail)) 0) as [Ht | Ht];
    simpl in H; [| discriminate].
  destruct (current_part ctx) as [cp |]; [| discriminate].
  destruct (verify_checksum _ _ _ _) as [v |]; [| discriminate].
  destruct (v <? 0); injection H as <- <- <-; [contradiction |].
  exists cp. auto.
Qed.

(** C4: [mgos_upd_file_begin] for a file that selects a part that is
    already done returns SKIP and leaves the device as it is: nothing is
    erased or written.  For a part that is not done, when the content of
    its flash region passes [verify_checksum] against the expected digest,
    it marks the part done and returns SKIP, again with the device
    untouched.  After a run of begin (PROCESS), any calls of data, and a
    successful end, a second begin for the same file name returns SKIP with
    the device untouched. *)
Theorem mgos_upd_file_begin_skips (ctx : mgos_upd_ctx)
    (fi : mgos_upd_file_info) (w : world) (part : part_ref) :
  matching_part ctx fi = Some part ->
  let p := get_part ctx part in
  (pi_done p <> 0 ->
   mgos_upd_file_begin ctx fi w
   = Some (MGOS_UPDATER_SKIP_FILE,
           set_status_msg ctx "Failed to update file", w)) /\
  (pi_done p = 0 ->
   verify_checksum (hw w) (pi_addr p) (ufi_size fi) (fi_sha1_sum (pi_fi p))
   = Some 1 ->
   exists ctx' : mgos_upd_ctx,
     mgos_upd_file_begin ctx fi w = Some (MGOS_UPDATER_SKIP_FILE, ctx', w) /\
     pi_done (get_part ctx' part) = 1 /\
     (forall q : part_ref, q <> part -> get_part ctx' q = get_part ctx q)) /\
  (forall (ctx1 ctx2 ctx3 : mgos_upd_ctx) (w1 w2 w3 : world)
          (fi_end fi2 : mgos_upd_file_info) (r : Z),
     mgos_upd_file_begin ctx fi w
     = Some (MGOS_UPDATER_PROCESS_FILE, ctx1, w1) ->
     data_calls (ctx1, w1) (ctx2, w2) ->
     mgos_upd_file_end ctx2 fi_end [] w2 = Some (r, ctx3, w3) ->
     r <> -1 ->
     ufi_name fi2 = ufi_name fi ->
     pi_done (get_part ctx3 part) = 1 /\
     mgos_upd_file_begin ctx3 fi2 w3
     = Some (MGOS_UPDATER_SKIP_FILE,
             set_status_msg ctx3 "Failed to update file", w3)).
Proof.
  intros Hm p. split; [| split].
  - intros Hdone. apply (mgos_upd_file_begin_done _ _ _ _ Hm Hdone).
  - intros Hdone Hv. rewrite mgos_upd_file_begin_dispatch. cbv zeta.
    rewrite Hm. unfold prepare_to_write.
    replace (pi_done (get_part (set_status_msg ctx "Failed to update file") part))
      with (pi_done p) by (destruct part; reflexivity).
    rewrite Hdone. simpl negb. cbv iota.
    match goal with
    | |- context [verify_checksum ?h ?a ?l ?c] =>
        replace (verify_checksum h a l c) with (Some 1)
          by (rewrite <- Hv; destruct part; reflexivity)
    end.
    simpl. eexists. split; [reflexivity |].
    split; [destruct part; reflexivity |].
    intros q Hq. destruct q, part; try reflexivity; contradiction.
  - intros ctx1 ctx2 ctx3 w1 w2 w3 fi_end fi2 r Hb Hd He Hr Hname.
    rewrite mgos_upd_file_begin_dispatch in Hb. cbv zeta in Hb.
    rewrite Hm in Hb.
    destruct (prepare_to_write _ fi part w) as [[[ret c] w0] |] eqn:Ep;
      [| discriminate].
    destruct (prepare_to_write_frame _ _ _ _ _ _ _ Ep)
      as (_ & Hret & Hnames & _ & _ & Hcur).
    assert (ret = 1 /\ c = ctx1) as (-> & ->).
    { destruct Hret as [-> | ->]; simpl in Hb; [discriminate |].
      injection Hb as <- <-. auto. }
    specialize (Hcur eq_refl).
    pose proof (data_calls_frame _ _ Hd) as Hsame. simpl in Hsame.
    destruct (mgos_upd_file_end_success _ _ _ _ _ _ _ He Hr)
      as (cp & Hcp & -> & -> & ->).
    assert (cp = part) as ->.
    { destruct Hsame as (_ & _ & _ & Hc & _). congruence. }
    assert (Hdone3 : pi_done (get_part
                       (set_part ctx2 part
                          (set_pi_done (get_part ctx2 part) 1)) part) = 1)
      by (destruct part; reflexivity).
    split; [exact Hdone3 |].
    apply mgos_upd_file_begin_done with (part := part); [| lia].
    rewrite <- Hm. unfold matching_part. rewrite Hname.
    replace (fi_file_name (pi_fi (fw_part (set_part ctx2 part
               (set_pi_done (get_part ctx2 part) 1)))))
      with (fi_file_name (pi_fi (get_part ctx2 FwPart)))
      by (destruct part; reflexivity).
    replace (fi_file_name (pi_fi (fs_part (set_part ctx2 part
               (set_pi_done (get_part ctx2 part) 1)))))
      with (fi_file_name (pi_fi (get_part ctx2 FsPart)))
      by (destruct part; reflexivity).
    rewrite !(same_parts_get_part _ _ _ Hsame), !Hnames. reflexivity.
Qed.


(** The invariant behind C10. *)
Lemma step_keeps_fs_dir_part (ctx ctx' : mgos_upd_ctx) (w w' : world) :
  step (ctx, w) (ctx', w') ->
  current_part ctx <> Some FsDirPart ->
  fs_dir_part ctx' = fs_dir_part ctx /\
  current_part ctx' <> Some FsDirPart.
Proof.
  intros Hstep Hcur.
  inversion Hstep as
    [c0 w0 parts r c1 w1 H | c0 w0 fi r c1 w1 H
    | fuel c0 w0 fi data r c1 w1 H | c0 w0 fi tail r c1 w1 H
    | c0 w0 r c1 w1 H | c0 w0 w1 H | c0 w0 w1 H]; subst;
    try (split; [reflexivity | exact Hcur]).
  - unfold mgos_upd_begin in H.
    destruct (get_rboot_config w) as [[cfg |] wc];
      [| injection H as <- <- <-; auto].
    destruct (fill_file_part_info (uninit wc) _ (m_fw parts) FwPart)
      as [[r1 x1] |] eqn:E1; [| discriminate].
    destruct (fill_file_part_info_frame _ _ _ _ _ _ E1) as (_ & C1 & _ & F1).
    specialize (F1 FsDirPart ltac:(discriminate)). simpl in F1, C1.
    destruct (negb (r1 >=? 0)).
    + injection H as <- <- <-. simpl. split; congruence.
    + destruct (fill_file_part_info (uninit wc) x1 (m_fs parts) FsPart)
        as [[r2 x2] |] eqn:E2; [| discriminate].
      destruct (fill_file_part_info_frame _ _ _ _ _ _ E2)
        as (_ & C2 & _ & F2).
      specialize (F2 FsDirPart ltac:(discriminate)). simpl in F2.
      destruct (r2 <? 0); injection H as <- <- <-; simpl; split; congruence.
  - rewrite mgos_upd_file_begin_dispatch in H. cbv zeta in H.
    destruct (matching_part ctx fi) as [part |] eqn:Hm;
      [| injection H as <- <- <-; auto].
    assert (Hpart : part <> FsDirPart)
      by (intros ->; exact (matching_part_not_dir _ _ Hm)).
    destruct (prepare_to_write _ fi part w) as [[[ret c] wp] |] eqn:Ep;
      [| discriminate].
    destruct (prepare_to_write_frame _ _ _ _ _ _ _ Ep)
      as (_ & _ & _ & Hfr & Hc & _).
    specialize (Hfr FsDirPart ltac:(congruence)). simpl in Hfr, Hc.
    destruct (ret <? 0); injection H as <- <- <-;
      (split; [exact Hfr | destruct Hc as [-> | ->]; congruence]).
  - destruct (mgos_upd_file_data_frame _ _ _ _ _ _ _ _ H)
      as ((_ & _ & Hd & Hc & _) & _).
    split; congruence.
  - unfold mgos_upd_file_end in H.
    destruct (negb _); [discriminate |].
    destruct (current_part ctx) as [cp |] eqn:Hcp; [| discriminate].
    destruct (verify_checksum _ _ _ _) as [v |]; [| discriminate].
    destruct (v <? 0); injection H as <- <- <-; simpl.
    + split; [reflexivity | congruence].
    + destruct cp; simpl; try (split; [reflexivity | congruence]).
      exfalso. congruence.
  - unfold mgos_upd_finalize in H.
    repeat (break_if_in H; cbv beta iota zeta in H);
      try discriminate; injection H as <- <- <-; auto.
Qed.

(** C10: in every state one update attempt can reach, the file system
    directory part is as [mgos_upd_ctx_create] left it, so its [done] flag
    is 0, and it is never the current part.  In such a state
    [mgos_upd_finalize] returns 1 only when the file system part itself is
    done, and fails with -1 or -2, leaving the device as it is, when the
    file system part is not done. *)
Theorem fs_dir_part_never_done (s : mgos_upd_ctx * world) :
  reachable s ->
  fs_dir_part (fst s) = fs_dir_part mgos_upd_ctx_create /\
  pi_done (fs_dir_part (fst s)) = 0 /\
  current_part (fst s) <> Some FsDirPart /\
  (forall (ctx' : mgos_upd_ctx) (w' : world),
     mgos_upd_finalize (fst s) (snd s) = Some (1, ctx', w') ->
     pi_done (fs_part (fst s)) <> 0) /\
  (pi_done (fs_part (fst s)) = 0 ->
   exists r : Z,
     (r = -1 \/ r = -2) /\
     exists ctx' : mgos_upd_ctx,
       mgos_upd_finalize (fst s) (snd s) = Some (r, ctx', snd s)).
Proof.
  intros Hreach.
  assert (Hinv : fs_dir_part (fst s) = fs_dir_part mgos_upd_ctx_create /\
                 current_part (fst s) <> Some FsDirPart).
  { induction Hreach as [w | [c w] [c' w'] _ IH Hstep]; simpl.
    - split; [reflexivity | discriminate].
    - simpl in IH. destruct IH as (Hd & Hc).
      destruct (step_keeps_fs_dir_part _ _ _ _ Hstep Hc) as (Hd' & Hc').
      split; [congruence | exact Hc']. }
  destruct Hinv as (Hdir & Hcur).
  assert (Hdone : pi_done (fs_dir_part (fst s)) = 0)
    by (rewrite Hdir; reflexivity).
  repeat (split; [assumption |]). split.
  - intros ctx' w' Hfin.
    destruct (mgos_upd_finalize_success _ _ _ _ Hfin) as (_ & [H | H]);
      [exact H | contradiction].
  - intros Hfs. unfold mgos_upd_finalize.
    destruct (pi_done (fs_part (fst s)) =? 0) eqn:E;
      [| apply Z.eqb_neq in E; contradiction].
    rewrite Hdone. simpl.
    destruct (pi_done (fw_part (fst s)) =? 0); eauto 6.
Qed.

End StateMachine.

(** * The claims on the simulated device *)

Section OnTheSimulatedDevice.
Import Sim SimRun.

(** C3: a file of six bytes (6 mod 4 = 2) offered to
    [mgos_upd_file_data] in one chunk.  The call writes the four aligned
    bytes and returns 4; the two bytes of the tail offered again are not
    written and the call returns 0.  In all, 4 bytes reach
    [spi_flash_write], not the 8 of the size rounded up, no [0xFF] padding
    is written, and [mgos_upd_file_end] then fails on the checksum. *)
Theorem unaligned_tail_is_not_written :
  result_code fw_started = Some MGOS_UPDATER_PROCESS_FILE /\
  result_code fw_chunk1 = Some 4 /\
  new_events (result_world fw_started) (result_world fw_chunk1)
  = [EvEraseSector 257; EvWrite 0x101000 [1; 2; 3; 4]] /\
  result_code fw_chunk2 = Some 0 /\
  new_events (result_world fw_chunk1) (result_world fw_chunk2) = [] /\
  written_bytes (trace (result_world fw_chunk2)) = 4 /\
  result_code fw_ended = Some (-1) /\
  status_msg (result_ctx fw_ended) = Some "Invalid checksum"%string /\
  pi_done (fw_part (result_ctx fw_ended)) = 0.
Proof. vm_compute. repeat split. Qed.

(** C5, the claim as written fails: [mgos_upd_finalize] after
    [mgos_upd_begin], and a commit in the run that finalized, work on the
    configuration that [get_rboot_config] cached and load nothing from
    flash. *)
Lemma cached_config_is_not_loaded_again :
  cfg_cache w_begun = Some cfg0 /\
  run_bcm_op (OpFinalize ctx_done) w_begun = Some w_pending /\
  config_loads w_begun w_pending = 0%nat /\
  ~ loads_once (OpFinalize ctx_done) w_begun /\
  cfg_cache w_pending = Some cfg_pending /\
  run_bcm_op OpCommit w_pending = Some w_committed /\
  config_loads w_pending w_committed = 0%nat /\
  ~ loads_once OpCommit w_pending.
Proof.
  repeat (split; [reflexivity |]). split.
  - intros H. specialize (H w_pending eq_refl).
    vm_compute in H. discriminate H.
  - repeat (split; [reflexivity |]).
    intros H. specialize (H w_committed eq_refl).
    vm_compute in H. discriminate H.
Qed.

(** C8, the claim as written fails: the sector an erase round clears
    holds [erased_till] itself, an offset at or above [erased_till]; and
    when [erased_till] is in the middle of a sector the round also clears
    offsets below it. *)
Lemma prepare_flash_erases_around_erased_till :
  ~ erases_nothing_from_erased_till (result_ctx fw_started)
      (result_world fw_started) /\
  ~ erases_nothing_below_erased_till ctx_mid_sector (result_world fw_started).
Proof.
  split; intros H.
  - apply (H 0 (result_ctx erase_at_start) (result_world erase_at_start)
             (EvEraseSector 257) 0x101000 0x102000 0x101000).
    + vm_compute. reflexivity.
    + vm_compute. left. reflexivity.
    + reflexivity.
    + lia.
    + vm_compute. discriminate.
  - apply (H 0 (result_ctx erase_mid_sector) (result_world erase_mid_sector)
             (EvEraseSector 257) 0x101000 0x102000 0x101000).
    + vm_compute. reflexivity.
    + vm_compute. left. reflexivity.
    + reflexivity.
    + lia.
    + vm_compute. reflexivity.
Qed.

End OnTheSimulatedDevice.

(** * The theorems at concrete inputs *)

Section Instances.
Import Sim SimRun.

Lemma mgos_upd_finalize_correct_witness :
  mgos_upd_finalize mgos_upd_ctx_create w0
  = Some (-1, set_status_msg mgos_upd_ctx_create "Missing fw part", w0) /\
  mgos_upd_finalize ctx_fw_only w_begun
  = Some (-2, set_status_msg ctx_fw_only "Missing fs part", w_begun) /\
  exists w' : world,
    mgos_upd_finalize ctx_done w_begun = Some (1, ctx_done, w') /\
    cfg_cache w'
    = Some (mk_rboot_config 1 0 [0x6d000; 0x16d000] [0x10000; 0]
              [0x1000; 0x101000] [0x6c000; 0] 1 1 1 0) /\
    hw w'
    = rboot_set_config (hw w_begun)
        (mk_rboot_config 1 0 [0x6d000; 0x16d000] [0x10000; 0]
           [0x1000; 0x101000] [0x6c000; 0] 1 1 1 0) /\
    trace w'
    = trace w_begun
      ++ [EvSetConfig
            (mk_rboot_config 1 0 [0x6d000; 0x16d000] [0x10000; 0]
               [0x1000; 0x101000] [0x6c000; 0] 1 1 1 0)].
Proof.
  split; [| split].
  - apply (proj1 (mgos_upd_finalize_correct mgos_upd_ctx_create w0)).
    reflexivity.
  - apply (proj1 (proj2 (mgos_upd_finalize_correct ctx_fw_only w_begun))).
    + vm_compute. discriminate.
    + reflexivity.
    + reflexivity.
  - apply (proj2 (proj2 (mgos_upd_finalize_correct ctx_done w_begun))
             cfg0 w_begun).
    + vm_compute. discriminate.
    + left. vm_compute. discriminate.
    + reflexivity.
    + right. reflexivity.
    + vm_compute. discriminate.
Defined.

Lemma boot_commit_revert_correct_witness :
  (mgos_upd_boot_commit w0 = Some w_begun /\
   mgos_upd_boot_revert w0 = Some w_begun) /\
  (mgos_upd_boot_commit w_pending
   = Some (store_config w_pending
             (mk_rboot_config 1 0 [0x6d000; 0x16d000] [0x10000; 0]
                [0x1000; 0x101000] [0x6c000; 0] 0 0 1 0)) /\
   mgos_upd_boot_revert w_pending
   = Some (store_config w_pending
             (mk_rboot_config 0 0 [0x6d000; 0x16d000] [0x10000; 0]
                [0x1000; 0x101000] [0x6c000; 0] 0 0 1 0))) /\
  exists cfg' : rboot_config,
    mgos_upd_boot_revert w_pending = Some (store_config w_pending cfg') /\
    current_rom cfg' = current_rom cfg0.
Proof.
  split; [| split].
  - destruct (boot_commit_revert_correct w0 w_begun cfg0 eq_refl)
      as (H & _ & _).
    destruct (H eq_refl) as (Hc & Hr & _). split; [exact Hc | exact Hr].
  - destruct (boot_commit_revert_correct w_pending w_pending cfg_pending
                eq_refl) as (_ & H & _).
    assert (Hupd : fw_updated cfg_pending <> 0)
      by (vm_compute; discriminate).
    destruct (H Hupd) as (Hc & Hr & _). split; [exact Hc | exact Hr].
  - destruct (boot_commit_revert_correct w_pending w_pending cfg_pending
                eq_refl) as (_ & _ & H).
    assert (Hne : slot_to_write ctx_done <> current_rom cfg0)
      by (vm_compute; discriminate).
    destruct (H ctx_done w_begun w_begun cfg0 eq_refl Hne eq_refl)
      as (cfg' & Hr & Hrom & _).
    exists cfg'. split; [exact Hr | exact Hrom].
Defined.

Lemma bcm_op_loads_and_stores_witness :
  config_loads w_pending w_committed = 0%nat /\
  (config_loads w_rebooted w_reverted_after_reboot <= 1)%nat.
Proof.
  split.
  - apply (proj1 (bcm_op_loads_and_stores OpCommit w_pending w_committed
                    eq_refl)).
    vm_compute. discriminate.
  - apply (proj1 (proj2 (bcm_op_loads_and_stores OpRevert w_rebooted
                           w_reverted_after_reboot eq_refl))).
Defined.

Lemma mgos_upd_begin_slot_alternation_witness :
  exists ctx' : mgos_upd_ctx,
    mgos_upd_begin mgos_upd_ctx_create manifest w0
    = Some (1, ctx', w_begun) /\
    slot_to_write ctx' = 1 - current_rom cfg0 /\
    pi_addr (fw_part ctx') = 0x1000 + slot_to_write ctx' * FW_SLOT_SIZE /\
    pi_addr (fs_part ctx') = 0x6d000 + slot_to_write ctx' * FW_SLOT_SIZE.
Proof.
  assert (Vfw : valid_part_token fw_token 0x1000).
  { unfold valid_part_token.
    split; [reflexivity |]. split; [vm_compute; discriminate |].
    split; [vm_compute; reflexivity |]. split; eexists.
    - split; [reflexivity | vm_compute; discriminate].
    - split; [reflexivity | vm_compute; split; reflexivity]. }
  assert (Vfs : valid_part_token fs_token 0x6d000).
  { unfold valid_part_token.
    split; [reflexivity |]. split; [vm_compute; discriminate |].
    split; [vm_compute; reflexivity |]. split; eexists.
    - split; [reflexivity | vm_compute; discriminate].
    - split; [reflexivity | vm_compute; split; reflexivity]. }
  apply (proj1 (mgos_upd_begin_slot_alternation mgos_upd_ctx_create manifest
                  w0 w_begun cfg0 fw_token fs_token 0x1000 0x6d000
                  eq_refl (or_introl eq_refl) eq_refl Vfw eq_refl Vfs)).
  - intros _. split; [vm_compute; lia | intros _; vm_compute; lia].
  - intros _. split; [vm_compute; lia | intros _; vm_compute; lia].
Defined.

Lemma mgos_upd_file_begin_skips_witness :
  mgos_upd_file_begin ctx_done (fw_file 0) w_begun
  = Some (MGOS_UPDATER_SKIP_FILE,
          set_status_msg ctx_done "Failed to update file", w_begun) /\
  (exists ctx' : mgos_upd_ctx,
     mgos_upd_file_begin ctx_begun (fs_file 0) w_fs_present
     = Some (MGOS_UPDATER_SKIP_FILE, ctx', w_fs_present) /\
     pi_done (get_part ctx' FsPart) = 1) /\
  (pi_done (get_part (result_ctx fs_ended) FsPart) = 1 /\
   mgos_upd_file_begin (result_ctx fs_ended) (fs_file 0)
     (result_world fs_ended)
   = Some (MGOS_UPDATER_SKIP_FILE,
           set_status_msg (result_ctx fs_ended) "Failed to update file",
           result_world fs_ended)).
Proof.
  split; [| split].
  - apply (proj1 (mgos_upd_file_begin_skips ctx_done (fw_file 0) w_begun
                    FwPart eq_refl)).
    vm_compute. discriminate.
  - destruct (proj1 (proj2 (mgos_upd_file_begin_skips ctx_begun (fs_file 0)
                              w_fs_present FsPart eq_refl)))
      as (ctx' & Hb & Hd & _).
    + reflexivity.
    + vm_compute. reflexivity.
    + exists ctx'. split; [exact Hb | exact Hd].
  - apply (proj2 (proj2 (mgos_upd_file_begin_skips ctx_begun (fs_file 0)
                           w_begun FsPart eq_refl))
             (result_ctx fs_started) (result_ctx fs_chunk)
             (result_ctx fs_ended) (result_world fs_started)
             (result_world fs_chunk) (result_world fs_ended)
             (fs_file 4) (fs_file 0) 0).
    + vm_compute. reflexivity.
    + apply (data_calls_cons 5 _ _ (fs_file 0) fs_data 4
               (result_ctx fs_chunk) (result_world fs_chunk)).
      * vm_compute. reflexivity.
      * apply data_calls_nil.
    + vm_compute. reflexivity.
    + discriminate.
    + reflexivity.
Defined.

Lemma mgos_upd_file_data_min_block_witness :
  mgos_upd_file_data 0 (result_ctx fs_started) big_file chunk_100
    (result_world fs_started)
  = Some (0, result_ctx fs_started, result_world fs_started) /\
  exists (ctx' : mgos_upd_ctx) (w' : world),
    mgos_upd_file_data 100 (result_ctx fs_started) last_100 chunk_100
      (result_world fs_started) = Some (100, ctx', w') /\
    current_write_address ctx'
    = current_write_address (result_ctx fs_started) + 100 /\
    written_bytes (new_events (result_world fs_started) w') = 100 /\
    (exists ev : event,
       In ev (new_events (result_world fs_started) w') /\
       erased_region ev <> None).
Proof.
  split.
  - apply (proj1 (mgos_upd_file_data_min_block 0 (result_ctx fs_started)
                    big_file chunk_100 (result_world fs_started)
                    ltac:(vm_compute; reflexivity)
                    ltac:(vm_compute; split; discriminate)
                    ltac:(vm_compute; reflexivity))).
    vm_compute. reflexivity.
  - destruct (proj2 (mgos_upd_file_data_min_block 100 (result_ctx fs_started)
                       last_100 chunk_100 (result_world fs_started)
                       ltac:(vm_compute; reflexivity)
                       ltac:(vm_compute; split; discriminate)
                       ltac:(vm_compute; reflexivity))
                ltac:(vm_compute; discriminate)
                ltac:(vm_compute; discriminate)
                ltac:(vm_compute; discriminate)
                ltac:(vm_compute; discriminate)
                ltac:(vm_compute; discriminate)
                ltac:(vm_compute; discriminate))
      as (r & ctx' & w' & Hd & [Hfail | Hok]).
    + exfalso.
      destruct Hfail as (_ & _ & _ & t0 & ev & h1 & _ & _ & Hrc & _ & Hev).
      destruct Hev as [(Her & _) | (-> & _)].
      * destruct ev; try (apply Her; reflexivity); apply Hrc; reflexivity.
      * apply Hrc. reflexivity.
    + destruct Hok as (-> & Ha & _ & Hw & _ & _ & He).
      exists ctx', w'. split; [exact Hd |].
      split; [exact Ha |]. split; [exact Hw |].
      apply He. vm_compute. reflexivity.
Defined.


Lemma prepare_flash_erase_minimal_witness :
  prepare_flash 0 (result_ctx fw_chunk1) 2 (result_world fw_chunk1)
  = Some (1, result_ctx fw_chunk1, result_world fw_chunk1) /\
  erased_till (result_ctx fw_started) <= erased_till (result_ctx fw_chunk1).
Proof.
  split.
  - apply (proj1 (prepare_flash_erase_minimal (result_ctx fw_chunk1)
                    (result_world fw_chunk1) FwPart eq_refl
                    ltac:(vm_compute; discriminate)
                    ltac:(vm_compute; reflexivity)
                    ltac:(vm_compute; split; [discriminate | reflexivity]))).
    vm_compute. discriminate.
  - apply (proj2 (proj2 (proj2
             (prepare_flash_erase_minimal (result_ctx fw_started)
                (result_world fw_started) FwPart eq_refl
                ltac:(vm_compute; discriminate)
                ltac:(vm_compute; reflexivity)
                ltac:(vm_compute; split; [discriminate | reflexivity]))))
             5%nat (fw_file 0) fw_data 4 (result_ctx fw_chunk1)
             (result_world fw_chunk1)).
    + vm_compute. discriminate.
    + vm_compute. reflexivity.
Defined.

Lemma fs_dir_part_never_done_witness :
  reachable (ctx_begun, w_begun) /\
  pi_done (fs_dir_part ctx_begun) = 0 /\
  current_part ctx_begun <> Some FsDirPart.
Proof.
  assert (H : reachable (ctx_begun, w_begun)).
  { apply (reachable_step (mgos_upd_ctx_create, w0)).
    - apply reachable_create.
    - apply (step_begin mgos_upd_ctx_create w0 manifest 1).
      vm_compute. reflexivity. }
  split; [exact H |].
  destruct (fs_dir_part_never_done (ctx_begun, w_begun) H)
    as (_ & Hd & Hc & _).
  split; [exact Hd | exact Hc].
Defined.

End Instances.

(** * Further properties *)

Section ManifestMore.
Context `{P : Platform}.

(** [fill_file_part_info] returns 1 for a part it accepts and -1 for any
    other. *)
Lemma fill_file_part_info_code (addr0 : Z) (ctx ctx' : mgos_upd_ctx)
    (tok : option part_token) (pi : part_ref) (r : Z) :
  fill_file_part_info addr0 ctx tok pi = Some (r, ctx') ->
  (part_accepted tok /\ r = 1) \/ (~ part_accepted tok /\ r = -1).
Proof.
  unfold fill_file_part_info, part_accepted.
  destruct tok as [t |]; simpl;
    [| intros [= <- _]; right;
       split; [intros (t & sha & src & [=] & _) | reflexivity]].
  destruct (t_cs_sha1 t) as [sha |] eqn:Hsha; simpl;
    [| intros [= <- _]; right;
       split; [intros (t' & sha & src & [= <-] & H & _); congruence
              | reflexivity]].
  destruct (Z.eqb_spec (tok_len sha) 0) as [Hz | Hnz].
  { intros [= <- _]. right. split; [| reflexivity].
    intros (t' & sha' & src & [= <-] & H & Hl & _). congruence. }
  destruct (memcpy _ (tok_ptr sha) 40) as [s1 |]; [| discriminate].
  destruct (t_src t) as [src |] eqn:Hsrc; simpl;
    [| intros [= <- _]; right;
       split; [intros (t' & sha' & src & [= <-] & _ & _ & H & _);
               congruence | reflexivity]].
  destruct (Z.leb_spec (tok_len src) 0) as [Hle | Hgt]; simpl.
  { intros [= <- _]. right. split; [| reflexivity].
    intros (t' & sha' & src' & [= <-] & _ & _ & H & Hl).
    assert (src' = src) as -> by congruence. lia. }
  destruct (Z.geb_spec (tok_len src) 50) as [Hge | Hlt]; simpl.
  { intros [= <- _]. right. split; [| reflexivity].
    intros (t' & sha' & src' & [= <-] & _ & _ & H & Hl).
    assert (src' = src) as -> by congruence. lia. }
  destruct (memcpy _ (tok_ptr src) _) as [s2 |]; [| discriminate].
  intros [= <- _]. left. split; [| reflexivity].
  exists t, sha, src. repeat split; auto; lia.
Qed.

(** What [fill_file_part_info] leaves alone: the cursors, the status
    message and every [done] flag. *)
Lemma fill_file_part_info_keeps (addr0 : Z) (ctx ctx' : mgos_upd_ctx)
    (tok : option part_token) (pi : part_ref) (r : Z) :
  fill_file_part_info addr0 ctx tok pi = Some (r, ctx') ->
  current_write_address ctx' = current_write_address ctx /\
  erased_till ctx' = erased_till ctx /\
  status_msg ctx' = status_msg ctx /\
  (forall q : part_ref,
     pi_done (get_part ctx' q) = pi_done (get_part ctx q)).
Proof.
  unfold fill_file_part_info. intros H.
  repeat break_if_in H; try discriminate; injection H as <- <-;
    (split; [destruct pi; reflexivity |]);
    (split; [destruct pi; reflexivity |]);
    (split; [destruct pi; reflexivity |]);
    intros q; destruct q, pi; reflexivity.
Qed.


(** [fill_file_part_info] has a defined result exactly when what it reads
    of the manifest lies inside the manifest. *)
Lemma fill_file_part_info_defined (addr0 : Z) (ctx : mgos_upd_ctx)
    (tok : option part_token) (pi : part_ref) :
  fill_file_part_info addr0 ctx tok pi <> None <-> reads_in_bounds tok.
Proof.
  unfold reads_in_bounds, fill_file_part_info.
  set (sha := match t_cs_sha1 _ with Some s => s | None => _ end).
  set (src := match t_src _ with Some s => s | None => _ end).
  destruct (Z.eqb_spec (tok_len sha) 0) as [Hz | Hnz].
  { split; [intros _ Hc; contradiction | intros _; discriminate]. }
  destruct (Nat.leb_spec 40 (List.length (tok_ptr sha))) as [Hs | Hs].
  2: { rewrite memcpy_none by exact Hs.
       split; [intros Hc; contradiction | intros Hc].
       destruct (Hc Hnz) as (Hc1 & _). lia. }
  rewrite memcpy_some by exact Hs.
  destruct (Z.leb_spec (tok_len src) 0) as [Hle | Hgt]; simpl orb; cbv iota.
  { split; [intros _ _; split; [exact Hs | lia] | intros _; discriminate]. }
  destruct (Z.geb_spec (tok_len src) 50) as [Hge | Hlt]; cbv iota.
  { split; [intros _ _; split; [exact Hs | lia] | intros _; discriminate]. }
  destruct (Nat.leb_spec (Z.to_nat (tok_len src)) (List.length (tok_ptr src)))
    as [Hn | Hn].
  - rewrite memcpy_some by exact Hn.
    split; [intros _ _; split; [exact Hs | intros _; exact Hn]
           | intros _; discriminate].
  - rewrite memcpy_none by exact Hn.
    split; [intros Hc; contradiction | intros Hc].
    destruct (Hc Hnz) as (_ & Hc2). specialize (Hc2 ltac:(lia)). lia.
Qed.

(** [mgos_upd_begin] has a defined result exactly when it has no
    configuration, or what it reads of the manifest lies inside it: the
    firmware part, and the file system part when it gets that far. *)
Lemma mgos_upd_begin_defined (ctx : mgos_upd_ctx) (parts : manifest_parts)
    (w : world) :
  mgos_upd_begin ctx parts w <> None <->
  (fst (get_rboot_config w) = None \/
   (reads_in_bounds (m_fw parts) /\
    (part_accepted (m_fw parts) -> reads_in_bounds (m_fs parts)))).
Proof.
  unfold mgos_upd_begin.
  destruct (get_rboot_config w) as [[cfg |] w1]; simpl fst;
    [| split; [auto | discriminate]].
  set (c0 := set_slot_to_write ctx (if current_rom cfg =? 0 then 1 else 0)).
  pose proof (fill_file_part_info_defined (uninit w1) c0 (m_fw parts) FwPart)
    as Dfw.
  destruct (fill_file_part_info (uninit w1) c0 (m_fw parts) FwPart)
    as [[r1 c1] |] eqn:E1.
  - assert (Rfw : reads_in_bounds (m_fw parts))
      by (apply Dfw; discriminate).
    pose proof (fill_file_part_info_defined (uninit w1) c1 (m_fs parts)
                  FsPart) as Dfs.
    destruct (fill_file_part_info_code _ _ _ _ _ _ E1)
      as [(Afw & ->) | (Nfw & ->)]; simpl negb; cbv iota.
    + destruct (fill_file_part_info (uninit w1) c1 (m_fs parts) FsPart)
        as [[r2 c2] |] eqn:E2.
      * split; [intros _ | intros _; destruct (r2 <? 0); discriminate].
        right. split; [exact Rfw |]. intros _. apply Dfs. discriminate.
      * split; [intros Hc; contradiction |].
        intros [Hc | (_ & Hc)]; [discriminate |].
        apply Dfs in Hc; [contradiction | exact Afw].
    + split; [intros _ | discriminate].
      right. split; [exact Rfw | intros Hc; contradiction].
  - split; [intros Hc; contradiction |].
    intros [Hc | (Hc & _)]; [discriminate |].
    apply Dfw in Hc. contradiction.
Qed.


(** X2: a call of [mgos_upd_begin] that returns does not touch the flash
    and stores nothing: the device is as before, but for the one load of
    the configuration when none was cached.  In the context it changes
    [slot_to_write] and the descriptors of the firmware and file system
    parts only: no [done] flag changes (a part that was done stays done
    under a new manifest), the file system directory part, the current
    part and the two cursors are as before. *)
Theorem mgos_upd_begin_frame (ctx ctx' : mgos_upd_ctx)
    (parts : manifest_parts) (w w' : world) (r : Z) :
  mgos_upd_begin ctx parts w = Some (r, ctx', w') ->
  hw w' = hw w /\
  (w' = w \/
   (cfg_cache w = None /\ trace w' = trace w ++ [EvGetConfig])) /\
  (forall q : part_ref,
     pi_done (get_part ctx' q) = pi_done (get_part ctx q)) /\
  fs_dir_part ctx' = fs_dir_part ctx /\
  current_part ctx' = current_part ctx /\
  current_write_address ctx' = current_write_address ctx /\
  erased_till ctx' = erased_till ctx.
Proof.
  unfold mgos_upd_begin. intros H.
  destruct (get_rboot_config w) as [[cfg |] w1] eqn:Hcfg.
  - destruct (get_rboot_config_some _ _ _ Hcfg) as (Hhw & _ & Htr).
    assert (Hdev : w1 = w \/
                   (cfg_cache w = None /\ trace w1 = trace w ++ [EvGetConfig]))
      by (destruct Htr as [(_ & ->) | (Hn & _ & Ht)]; auto).
    set (c0 := set_slot_to_write ctx (if current_rom cfg =? 0 then 1 else 0))
      in *.
    destruct (fill_file_part_info (uninit w1) c0 (m_fw parts) FwPart)
      as [[r1 c1] |] eqn:E1; [| discriminate].
    destruct (fill_file_part_info_frame _ _ _ _ _ _ E1) as (_ & C1 & _ & F1).
    destruct (fill_file_part_info_keeps _ _ _ _ _ _ E1)
      as (A1 & T1 & _ & D1).
    specialize (F1 FsDirPart ltac:(discriminate)). simpl in F1, C1, A1, T1.
    assert (D0 : forall q, pi_done (get_part c1 q) = pi_done (get_part ctx q))
      by (intros q; rewrite D1; destruct q; reflexivity).
    destruct (negb (r1 >=? 0)).
    + injection H as <- <- <-.
      split; [exact Hhw |]. split; [exact Hdev |].
      split; [intros q; rewrite <- D0; destruct q; reflexivity |].
      simpl. repeat split; congruence.
    + destruct (fill_file_part_info (uninit w1) c1 (m_fs parts) FsPart)
        as [[r2 c2] |] eqn:E2; [| discriminate].
      destruct (fill_file_part_info_frame _ _ _ _ _ _ E2)
        as (_ & C2 & _ & F2).
      destruct (fill_file_part_info_keeps _ _ _ _ _ _ E2)
        as (A2 & T2 & _ & D2).
      specialize (F2 FsDirPart ltac:(discriminate)). simpl in F2.
      assert (D02 : forall q,
                pi_done (get_part c2 q) = pi_done (get_part ctx q))
        by (intros q; rewrite D2; apply D0).
      destruct (r2 <? 0); injection H as <- <- <-;
        (split; [exact Hhw |]); (split; [exact Hdev |]);
        (split; [intros q; rewrite <- D02; destruct q; reflexivity |]);
        simpl; repeat split; congruence.
  - injection H as <- <- <-.
    unfold get_rboot_config in Hcfg.
    destruct (cfg_cache w); [discriminate |].
    destruct (malloc_ok w); [discriminate |].
    injection Hcfg as <-. simpl.
    split; [reflexivity |]. split; [auto |].
    split; [intros q; destruct q; reflexivity | auto].
Qed.

End ManifestMore.

Section FileProtocolMore.
Context `{P : Platform}.

Lemma verify_checksum_loop_range (fuel : nat) :
  forall (h : flash) (sha : list Z) (addr len : Z) (cs : list ascii) (r : Z),
    verify_checksum_loop fuel h sha addr len cs = Some r -> r = 1 \/ r = -1.
Proof.
  induction fuel as [| fuel IH]; intros h sha addr len cs r;
    rewrite verify_checksum_loop_eq.
  - destruct (len =? 0); [| discriminate].
    intros [= <-]. apply verify_checksum_compare_range.
  - destruct (len =? 0);
      [intros [= <-]; apply verify_checksum_compare_range |].
    cbv zeta.
    destruct (spi_flash_read h addr _) as [rc buf].
    destruct (negb (rc =? 0)); [intros [= <-]; auto | apply IH].
Qed.

Lemma verify_checksum_range (h : flash) (addr len : Z) (cs : list ascii)
    (r : Z) :
  verify_checksum h addr len cs = Some r -> r = 1 \/ r = -1.
Proof. apply verify_checksum_loop_range. Qed.

Lemma prepared_for_part (ctx : mgos_upd_ctx) (fi : mgos_upd_file_info)
    (p : part_ref) :
  let c := prepared_for ctx fi p in
  current_part c = Some p /\
  current_write_address c = pi_addr (get_part ctx p) /\
  erased_till c = pi_addr (get_part ctx p) /\
  status_msg c = status_msg ctx /\
  slot_to_write c = slot_to_write ctx /\
  get_part c p
  = set_pi_fi (get_part ctx p)
      (set_fi_size (pi_fi (get_part ctx p)) (ufi_size fi)) /\
  (forall q : part_ref, q <> p -> get_part c q = get_part ctx q).
Proof.
  destruct p; simpl; repeat split;
    intros q Hq; destruct q; try reflexivity; contradiction.
Qed.

(** [prepare_to_write] by cases. *)
Lemma prepare_to_write_cases (ctx : mgos_upd_ctx) (fi : mgos_upd_file_info)
    (p : part_ref) (w : world) :
  let part := get_part ctx p in
  let check :=
    verify_checksum (hw w) (pi_addr part) (ufi_size fi)
      (fi_sha1_sum (pi_fi part)) in
  prepare_to_write ctx fi p w
  = if negb (pi_done part =? 0) then Some (0, ctx, w)
    else
      match check with
      | None => None
      | Some r =>
          if r =? 1 then
            Some (0,
                  set_part (prepared_for ctx fi p) p
                    (set_pi_done (get_part (prepared_for ctx fi p) p) 1), w)
          else Some (1, prepared_for ctx fi p, w)
      end.
Proof. destruct p; reflexivity. Qed.

(** X3: [mgos_upd_file_begin] never aborts and never touches the device;
    whatever it returns, it leaves the status message "Failed to update
    file".  It answers PROCESS exactly when the file name selects a part
    that is not done and whose flash region fails [verify_checksum]; then
    that part is the current part, both cursors are at its address, it
    carries the declared size of the file and it is still not done.  A
    file that selects no part changes nothing but the status message. *)
Theorem mgos_upd_file_begin_action (ctx ctx' : mgos_upd_ctx)
    (fi : mgos_upd_file_info) (w w' : world) (a : mgos_upd_file_action) :
  mgos_upd_file_begin ctx fi w = Some (a, ctx', w') ->
  w' = w /\
  a <> MGOS_UPDATER_ABORT /\
  status_msg ctx' = Some "Failed to update file"%string /\
  (a = MGOS_UPDATER_PROCESS_FILE <->
   exists p : part_ref,
     matching_part ctx fi = Some p /\
     pi_done (get_part ctx p) = 0 /\
     verify_checksum (hw w) (pi_addr (get_part ctx p)) (ufi_size fi)
       (fi_sha1_sum (pi_fi (get_part ctx p))) = Some (-1)) /\
  (a = MGOS_UPDATER_PROCESS_FILE ->
   forall p : part_ref,
     matching_part ctx fi = Some p ->
     current_part ctx' = Some p /\
     current_write_address ctx' = pi_addr (get_part ctx p) /\
     erased_till ctx' = pi_addr (get_part ctx p) /\
     fi_size (pi_fi (get_part ctx' p)) = ufi_size fi /\
     pi_done (get_part ctx' p) = 0) /\
  (matching_part ctx fi = None ->
   a = MGOS_UPDATER_SKIP_FILE /\
   ctx' = set_status_msg ctx "Failed to update file").
Proof.
  rewrite mgos_upd_file_begin_dispatch. cbv zeta.
  set (c0 := set_status_msg ctx "Failed to update file").
  destruct (matching_part ctx fi) as [p |] eqn:Hm.
  - rewrite prepare_to_write_cases. cbv zeta.
    assert (Hp0 : get_part c0 p = get_part ctx p) by (destruct p; reflexivity).
    rewrite Hp0.
    destruct (Z.eqb_spec (pi_done (get_part ctx p)) 0) as [Hd | Hd];
      simpl negb; cbv iota.
    + destruct (verify_checksum _ _ _ _) as [r |] eqn:Hv; [| discriminate].
      destruct (verify_checksum_range _ _ _ _ _ Hv) as [-> | ->]; simpl;
        intros [= <- <- <-];
        destruct (prepared_for_part c0 fi p)
          as (Hcp & Hcw & Het & Hst & _ & Hpart & _);
        rewrite Hp0 in *.
      * split; [reflexivity |]. split; [discriminate |].
        split; [destruct p; reflexivity |].
        split; [split; [discriminate |] |].
        { intros (q & [= <-] & _ & H). congruence. }
        split; [discriminate | discriminate].
      * split; [reflexivity |]. split; [discriminate |].
        split; [exact Hst |].
        split; [split; [intros _; exists p; auto | reflexivity] |].
        split; [| discriminate].
        intros _ q [= <-]. rewrite Hpart. simpl. auto.
    + intros [= <- <- <-].
      split; [reflexivity |]. split; [discriminate |].
      split; [reflexivity |].
      split; [split; [discriminate |] |].
      { intros (q & [= <-] & Hq & _). contradiction. }
      split; [discriminate | discriminate].
  - intros [= <- <- <-].
    split; [reflexivity |]. split; [discriminate |].
    split; [reflexivity |].
    split; [split; [discriminate | intros (q & [=] & _)] |].
    split; [discriminate | auto].
Qed.

End FileProtocolMore.

Section FileDataMore.
Context `{P : Platform}.

Lemma forallb_erase_or_write_app (t1 t2 : list event) :
  forallb is_erase_or_write t1 = true ->
  forallb is_erase_or_write t2 = true ->
  forallb is_erase_or_write (t1 ++ t2) = true.
Proof. intros H1 H2. rewrite forallb_app, H1, H2. reflexivity. Qed.

(** One call of [mgos_upd_file_data] on a chunk shorter than 2^31 bytes,
    by result. *)
Lemma mgos_upd_file_data_cases (fuel : nat) (ctx ctx' : mgos_upd_ctx)
    (fi : mgos_upd_file_info) (data : list Z) (w w' : world) (r : Z) :
  Z.of_nat (List.length data) < 2 ^ 31 ->
  mgos_upd_file_data fuel ctx fi data w = Some (r, ctx', w') ->
  exists t : list event,
    trace w' = trace w ++ t /\
    forallb is_erase_or_write t = true /\
    cfg_cache w' = cfg_cache w /\
    same_parts ctx ctx' /\
    ((r = -1 /\
      current_write_address ctx' = current_write_address ctx /\
      (status_msg ctx' = Some "Failed to erase flash"%string \/
       status_msg ctx' = Some "Failed to write to flash"%string)) \/
     (r = 0 /\ written_bytes t = 0 /\
      current_write_address ctx' = current_write_address ctx /\
      status_msg ctx' = status_msg ctx /\
      (ctx' = ctx /\ t = [] \/
       Z.of_nat (List.length data) < 4)) \/
     (0 < r /\ r = 4 * (Z.of_nat (List.length data) / 4) /\
      written_bytes t = r /\
      current_write_address ctx'
      = wrap32 (current_write_address ctx + r) /\
      status_msg ctx' = status_msg ctx /\
      exists t0 : list event,
        t = t0 ++ [EvWrite (current_write_address ctx)
                     (firstn (Z.to_nat r) data)] /\
        written_bytes t0 = 0)).
Proof.
  intros Hlen H. rewrite mgos_upd_file_data_eq in H by lia.
  cbv zeta in H.
  set (len := Z.of_nat (List.length data)) in *.
  assert (Ha : 0 <= 4 * (len / 4) <= len)
    by (unfold len; Z.div_mod_to_equations; lia).
  destruct (_ && _) in H.
  { injection H as <- <- <-. exists []. rewrite app_nil_r.
    split; [reflexivity |]. split; [reflexivity |]. split; [reflexivity |].
    split; [apply same_parts_refl |]. right. left. auto 8. }
  destruct (prepare_flash fuel ctx len w) as [[[r1 c1] w1] |] eqn:E;
    [| discriminate].
  destruct (prepare_flash_frame _ _ _ _ _ _ _ E)
    as (S1 & A1 & M1 & C1 & _ & t & T1 & W1 & F1).
  destruct (r1 <? 0).
  { injection H as <- <- <-. exists t.
    repeat (split; [assumption |]). left. auto. }
  destruct (Z.gtb_spec (4 * (len / 4)) 0) as [Hgt | Hle].
  - destruct (spi_flash_write (hw w1) (current_write_address c1) _)
      as [rc h].
    set (ev := EvWrite (current_write_address c1)
                 (firstn (Z.to_nat (4 * (len / 4))) data)) in *.
    assert (Htr : trace (set_hw (log w1 ev) h) = trace w ++ (t ++ [ev]))
      by (simpl; rewrite T1, <- app_assoc; reflexivity).
    assert (Hfa : forallb is_erase_or_write (t ++ [ev]) = true)
      by (apply forallb_erase_or_write_app; [exact F1 | reflexivity]).
    destruct (negb (rc =? 0)); injection H as <- <- <-;
      exists (t ++ [ev]);
      (split; [exact Htr |]); (split; [exact Hfa |]);
      (split; [exact C1 |]); (split; [exact S1 |]).
    + left. simpl. auto.
    + right. right. rewrite int32_small by lia.
      split; [lia |]. split; [reflexivity |].
      split.
      { rewrite written_bytes_app, W1. unfold ev. simpl.
        rewrite length_firstn. fold len. lia. }
      split; [simpl; rewrite A1; reflexivity |].
      split; [exact M1 |].
      exists t. unfold ev. rewrite A1. auto.
  - injection H as <- <- <-. exists t.
    repeat (split; [assumption |]). right. left.
    split; [reflexivity |]. split; [exact W1 |].
    split; [exact A1 |]. split; [exact M1 |].
    right. Z.div_mod_to_equations. lia.
Qed.

(** X12: [mgos_upd_file_data] talks to the flash driver only: it calls
    nothing but erase and write and leaves the cached boot configuration
    alone.  It returns -1, or the count of bytes it handed to
    [spi_flash_write], which is 0 or the length of the chunk rounded down
    to a multiple of 4; it moves [current_write_address] on by that count
    and writes exactly the leading bytes of the chunk, at the old
    [current_write_address], as its last call.  On -1 the write address is
    as before and the status message names the erase or the write. *)
Theorem mgos_upd_file_data_effect (fuel : nat) (ctx ctx' : mgos_upd_ctx)
    (fi : mgos_upd_file_info) (data : list Z) (w w' : world) (r : Z) :
  Z.of_nat (List.length data) < 2 ^ 31 ->
  0 <= current_write_address ctx ->
  current_write_address ctx + Z.of_nat (List.length data) < 2 ^ 32 ->
  mgos_upd_file_data fuel ctx fi data w = Some (r, ctx', w') ->
  cfg_cache w' = cfg_cache w /\
  forallb is_erase_or_write (new_events w w') = true /\
  same_parts ctx ctx' /\
  (r = -1 \/ r = 0 \/ r = 4 * (Z.of_nat (List.length data) / 4)) /\
  (r = -1 ->
   current_write_address ctx' = current_write_address ctx /\
   (status_msg ctx' = Some "Failed to erase flash"%string \/
    status_msg ctx' = Some "Failed to write to flash"%string)) /\
  (0 <= r ->
   written_bytes (new_events w w') = r /\
   current_write_address ctx' = current_write_address ctx + r /\
   status_msg ctx' = status_msg ctx) /\
  (0 < r ->
   exists t0 : list event,
     new_events w w'
     = t0 ++ [EvWrite (current_write_address ctx)
                (firstn (Z.to_nat r) data)] /\
     written_bytes t0 = 0).
Proof.
  intros Hlen Hcwa Hmax H.
  destruct (mgos_upd_file_data_cases _ _ _ _ _ _ _ _ Hlen H)
    as (t & T & F & C & S & Hcases).
  rewrite (new_events_app _ _ _ T).
  assert (Ha : 0 <= 4 * (Z.of_nat (List.length data) / 4)
               <= Z.of_nat (List.length data))
    by (Z.div_mod_to_equations; lia).
  repeat (split; [assumption |]).
  destruct Hcases as [(-> & A & M) | [(-> & W0 & A & M & _)
                                     | (Hr & -> & Wr & A & M & t0 & -> & W0)]].
  - split; [auto |]. split; [auto |].
    split; [intros; lia | intros; lia].
  - split; [auto |]. split; [discriminate |].
    split; [intros _; repeat split; [exact W0 | lia | exact M] |].
    intros; lia.
  - split; [auto |]. split; [intros; lia |].
    split.
    + intros _. split; [exact Wr |]. split; [| exact M].
      rewrite A. apply wrap32_small. lia.
    + intros _. exists t0. auto.
Qed.

End FileDataMore.

Section DataRuns.
Context `{P : Platform}.

(** With the range of the chunk a block short of the end of the address
    space, a call leaves [erased_till] at or above its old value, and at or
    above the end of the chunk when it wrote. *)
Lemma mgos_upd_file_data_erased (fuel : nat) (ctx ctx' : mgos_upd_ctx)
    (fi : mgos_upd_file_info) (data : list Z) (w w' : world) (r : Z) :
  0 <= current_write_address ctx -> 0 <= erased_till ctx ->
  current_write_address ctx + Z.of_nat (List.length data)
  + FLASH_ERASE_BLOCK_SIZE <= 2 ^ 32 ->
  mgos_upd_file_data fuel ctx fi data w = Some (r, ctx', w') ->
  erased_till ctx <= erased_till ctx' /\
  (0 < r ->
   current_write_address ctx + Z.of_nat (List.length data)
   <= erased_till ctx').
Proof.
  intros Hcwa He Hmax H.
  unfold FLASH_ERASE_BLOCK_SIZE in Hmax.
  assert (Hend : wrap32 (current_write_address ctx
                         + Z.of_nat (List.length data))
                 = current_write_address ctx + Z.of_nat (List.length data))
    by (apply wrap32_small; lia).
  rewrite mgos_upd_file_data_eq in H by lia. cbv zeta in H.
  destruct (_ && _) in H; [injection H as <- <- <-; split; lia |].
  destruct (prepare_flash fuel ctx _ w) as [[[r1 c1] w1] |] eqn:E;
    [| discriminate].
  destruct (prepare_flash_monotone fuel ctx c1 (Z.of_nat (List.length data))
              r1 w w1 He) as (Hm & Hcov);
    [rewrite Hend; unfold FLASH_ERASE_BLOCK_SIZE; lia | exact E |].
  rewrite Hend in Hcov.
  destruct (prepare_flash_frame _ _ _ _ _ _ _ E)
    as (_ & _ & _ & _ & [-> | ->] & _); simpl (_ <? 0) in H; cbv iota in H.
  - specialize (Hcov eq_refl).
    repeat (break_if_in H; cbv beta iota zeta in H);
      injection H as <- <- <-; simpl; split; try assumption; intros; lia.
  - injection H as <- <- <-. simpl. split; [exact Hm | intros; lia].
Qed.

Lemma data_run_inv (s s' : mgos_upd_ctx * world) (total : Z) :
  data_run s total s' ->
  0 <= total /\ total mod 4 = 0 /\
  current_write_address (fst s') = current_write_address (fst s) + total /\
  erased_till (fst s) <= erased_till (fst s') /\
  (current_write_address (fst s) <= erased_till (fst s) \/ 0 < total ->
   current_write_address (fst s') <= erased_till (fst s')) /\
  same_parts (fst s) (fst s') /\
  status_msg (fst s') = status_msg (fst s) /\
  cfg_cache (snd s') = cfg_cache (snd s) /\
  exists t : list event,
    trace (snd s') = trace (snd s) ++ t /\
    written_bytes t = total /\
    forallb is_erase_or_write t = true.
Proof.
  induction 1 as
    [s | fuel ctx w fi data r ctx' w' total s'' Hlen Hcwa He Hmax Hd Hr _ IH];
    simpl in *.
  - repeat split; try lia; try apply same_parts_refl.
    exists []. rewrite app_nil_r. auto.
  - destruct IH as (T0 & T4 & A & E & I & S & M & C & t2 & Tr2 & W2 & F2).
    destruct (mgos_upd_file_data_cases _ _ _ _ _ _ _ _ Hlen Hd)
      as (t1 & Tr1 & F1 & C1 & S1 & Hcases).
    destruct (mgos_upd_file_data_erased _ _ _ _ _ _ _ _ Hcwa He Hmax Hd)
      as (E1 & Hcov).
    unfold FLASH_ERASE_BLOCK_SIZE in Hmax.
    assert (Hres :
      r mod 4 = 0 /\
      current_write_address ctx' = current_write_address ctx + r /\
      status_msg ctx' = status_msg ctx /\ written_bytes t1 = r /\
      r <= Z.of_nat (List.length data)).
    { destruct Hcases as [(-> & _) | [(-> & W0 & A1 & M1 & _)
                                     | (Hpos & Hr4 & W1 & A1 & M1 & _)]].
      - lia.
      - repeat split; try assumption; lia.
      - assert (Hb : 0 <= r <= Z.of_nat (List.length data))
          by (rewrite Hr4; Z.div_mod_to_equations; lia).
        split; [rewrite Hr4; Z.div_mod_to_equations; lia |].
        split; [rewrite A1; apply wrap32_small; lia |].
        repeat split; try assumption; lia. }
    destruct Hres as (R4 & A1 & M1 & W1 & Rle).
    split; [lia |].
    split; [Z.div_mod_to_equations; lia |].
    split; [lia |]. split; [lia |].
    split.
    { intros Hpre. apply I.
      destruct (Z.lt_ge_cases 0 r) as [Hpos | Hzero].
      - left. specialize (Hcov Hpos). lia.
      - assert (r = 0) as -> by lia.
        destruct Hpre as [Hle | Hpos]; [left; lia | right; lia]. }
    split; [eapply same_parts_trans; eassumption |].
    split; [congruence |]. split; [congruence |].
    exists (t1 ++ t2). rewrite Tr2, Tr1, <- app_assoc.
    split; [reflexivity |].
    split; [rewrite written_bytes_app; lia |].
    apply forallb_erase_or_write_app; assumption.
Qed.

(** X10: over any number of calls of [mgos_upd_file_data] that all
    succeed, the counts returned add up to the bytes handed to
    [spi_flash_write] and to the distance [current_write_address] moved;
    the sum is a multiple of 4, so it never equals a file size that is not
    one.  [erased_till] does not go down, and once it is at or above the
    write address, or anything was written, the write address stays at or
    below it: nothing is written to flash that was not erased first.  The
    part descriptors, the status message and the cached boot configuration
    do not change. *)
Theorem data_run_totals (s s' : mgos_upd_ctx * world) (total : Z) :
  data_run s total s' ->
  0 <= total /\ total mod 4 = 0 /\
  (forall n : Z, n mod 4 <> 0 -> total <> n) /\
  written_bytes (new_events (snd s) (snd s')) = total /\
  current_write_address (fst s') = current_write_address (fst s) + total /\
  erased_till (fst s) <= erased_till (fst s') /\
  (current_write_address (fst s) <= erased_till (fst s) \/ 0 < total ->
   current_write_address (fst s') <= erased_till (fst s')) /\
  same_parts (fst s) (fst s') /\
  status_msg (fst s') = status_msg (fst s) /\
  cfg_cache (snd s') = cfg_cache (snd s).
Proof.
  intros H.
  destruct (data_run_inv _ _ _ H)
    as (T0 & T4 & A & E & I & S & M & C & t & Tr & W & _).
  rewrite (new_events_app _ _ _ Tr).
  repeat (split; [assumption |]).
  split; [intros n Hn ->; contradiction |].
  repeat (split; [assumption |]). assumption.
Qed.

End DataRuns.

Section Steps.
Context `{P : Platform}.

Lemma mgos_upd_file_begin_cases (ctx ctx' : mgos_upd_ctx)
    (fi : mgos_upd_file_info) (w w' : world) (a : mgos_upd_file_action) :
  mgos_upd_file_begin ctx fi w = Some (a, ctx', w') ->
  let c0 := set_status_msg ctx "Failed to update file" in
  w' = w /\
  (ctx' = c0 \/
   exists p : part_ref,
     matching_part ctx fi = Some p /\
     pi_done (get_part ctx p) = 0 /\
     ((ctx' = prepared_for c0 fi p /\ a = MGOS_UPDATER_PROCESS_FILE) \/
      (ctx' = set_part (prepared_for c0 fi p) p
                (set_pi_done (get_part (prepared_for c0 fi p) p) 1) /\
       a = MGOS_UPDATER_SKIP_FILE /\
       verify_checksum (hw w) (pi_addr (get_part ctx p)) (ufi_size fi)
         (fi_sha1_sum (pi_fi (get_part ctx p))) = Some 1))).
Proof.
  rewrite mgos_upd_file_begin_dispatch. cbv zeta.
  set (c0 := set_status_msg ctx "Failed to update file").
  destruct (matching_part ctx fi) as [p |] eqn:Hm;
    [| intros [= <- <- <-]; auto].
  rewrite prepare_to_write_cases. cbv zeta.
  assert (Hp0 : get_part c0 p = get_part ctx p) by (destruct p; reflexivity).
  rewrite Hp0.
  destruct (Z.eqb_spec (pi_done (get_part ctx p)) 0) as [Hd | Hd];
    simpl negb; cbv iota; [| intros [= <- <- <-]; auto].
  destruct (verify_checksum _ _ _ _) as [r |] eqn:Hv; [| discriminate].
  destruct (verify_checksum_range _ _ _ _ _ Hv) as [-> | ->]; simpl;
    intros [= <- <- <-]; (split; [reflexivity |]); right; exists p;
    (split; [reflexivity |]); (split; [exact Hd |]); auto.
Qed.

Lemma mgos_upd_file_end_cases (ctx ctx' : mgos_upd_ctx)
    (fi : mgos_upd_file_info) (tail : list Z) (w w' : world) (r : Z) :
  mgos_upd_file_end ctx fi tail w = Some (r, ctx', w') ->
  tail = [] /\ w' = w /\
  exists cp : part_ref,
    current_part ctx = Some cp /\
    ((r = -1 /\ ctx' = set_status_msg ctx "Invalid checksum") \/
     (r = 0 /\
      ctx' = set_part ctx cp (set_pi_done (get_part ctx cp) 1) /\
      verify_checksum (hw w) (pi_addr (get_part ctx cp)) (ufi_size fi)
        (fi_sha1_sum (pi_fi (get_part ctx cp))) = Some 1)).
Proof.
  unfold mgos_upd_file_end. intros H.
  destruct tail as [| b tail]; [| discriminate]. simpl in H.
  destruct (current_part ctx) as [cp |]; [| discriminate].
  destruct (verify_checksum _ _ _ _) as [v |] eqn:Hv; [| discriminate].
  destruct (verify_checksum_range _ _ _ _ _ Hv) as [-> | ->]; simpl in H;
    injection H as <- <- <-; repeat split; exists cp; auto.
Qed.

Lemma mgos_upd_finalize_cases (ctx ctx' : mgos_upd_ctx) (w w' : world)
    (r : Z) :
  mgos_upd_finalize ctx w = Some (r, ctx', w') ->
  (r = -1 /\ ctx' = set_status_msg ctx "Missing fw part" /\ w' = w) \/
  (r = -2 /\ ctx' = set_status_msg ctx "Missing fs part" /\ w' = w) \/
  (r = 1 /\ ctx' = ctx).
Proof.
  unfold mgos_upd_finalize. intros H.
  repeat (break_if_in H; cbv beta iota zeta in H);
    try discriminate; injection H as <- <- <-; auto.
Qed.

(** X11: over every call, a [done] flag that is set stays set, also
    across a new [mgos_upd_begin].  A [done] flag goes from 0 to 1 only in
    a call that ran [verify_checksum] over the flash region at the address
    of that part, against the digest the part carries, and got 1; that
    call leaves the device as it is. *)
Theorem done_only_after_checksum (ctx ctx' : mgos_upd_ctx) (w w' : world)
    (q : part_ref) :
  step (ctx, w) (ctx', w') ->
  (pi_done (get_part ctx q) <> 0 -> pi_done (get_part ctx' q) <> 0) /\
  (pi_done (get_part ctx q) = 0 -> pi_done (get_part ctx' q) <> 0 ->
   pi_done (get_part ctx' q) = 1 /\ w' = w /\
   exists size : Z,
     verify_checksum (hw w) (pi_addr (get_part ctx q)) size
       (fi_sha1_sum (pi_fi (get_part ctx q))) = Some 1).
Proof.
  intros Hstep.
  assert (Hsame : pi_done (get_part ctx' q) = pi_done (get_part ctx q) ->
    (pi_done (get_part ctx q) <> 0 -> pi_done (get_part ctx' q) <> 0) /\
    (pi_done (get_part ctx q) = 0 -> pi_done (get_part ctx' q) <> 0 ->
     pi_done (get_part ctx' q) = 1 /\ w' = w /\
     exists size : Z,
       verify_checksum (hw w) (pi_addr (get_part ctx q)) size
         (fi_sha1_sum (pi_fi (get_part ctx q))) = Some 1)).
  { intros ->. split; [auto | intros; contradiction]. }
  assert (Hset : forall (p : part_ref) (c : mgos_upd_ctx) (size : Z),
    w' = w ->
    get_part c p = set_pi_done (get_part ctx p) 1 \/
    (exists f, get_part c p = set_pi_done (set_pi_fi (get_part ctx p) f) 1) ->
    (forall x, x <> p -> pi_done (get_part c x) = pi_done (get_part ctx x)) ->
    verify_checksum (hw w) (pi_addr (get_part ctx p)) size
      (fi_sha1_sum (pi_fi (get_part ctx p))) = Some 1 ->
    (pi_done (get_part ctx q) <> 0 -> pi_done (get_part c q) <> 0) /\
    (pi_done (get_part ctx q) = 0 -> pi_done (get_part c q) <> 0 ->
     pi_done (get_part c q) = 1 /\ w' = w /\
     exists size : Z,
       verify_checksum (hw w) (pi_addr (get_part ctx q)) size
         (fi_sha1_sum (pi_fi (get_part ctx q))) = Some 1)).
  { intros p c size Hw Hp Hothers Hv.
    assert (Hq : q = p \/ q <> p) by (destruct q, p; auto; right; discriminate).
    destruct Hq as [-> | Hne].
    - assert (Hone : pi_done (get_part c p) = 1)
        by (destruct Hp as [-> | (f & ->)]; reflexivity).
      rewrite Hone. split; [intros; lia |]. intros _ _.
      split; [reflexivity |]. split; [exact Hw |]. exists size. exact Hv.
    - rewrite (Hothers q Hne). split; [auto | intros; contradiction]. }
  inversion Hstep as
    [c0 w0 parts r c1 w1 H | c0 w0 fi a c1 w1 H
    | fuel c0 w0 fi data r c1 w1 H | c0 w0 fi tail r c1 w1 H
    | c0 w0 r c1 w1 H | c0 w0 w1 H | c0 w0 w1 H]; subst;
    try (apply Hsame; reflexivity).
  - apply Hsame. unfold mgos_upd_begin in H.
    destruct (get_rboot_config w) as [[cfg |] wc];
      [| injection H as <- <- <-; destruct q; reflexivity].
    destruct (fill_file_part_info (uninit wc) _ (m_fw parts) FwPart)
      as [[r1 x1] |] eqn:E1; [| discriminate].
    destruct (fill_file_part_info_keeps _ _ _ _ _ _ E1) as (_ & _ & _ & D1).
    destruct (negb (r1 >=? 0)).
    + injection H as <- <- <-.
      transitivity (pi_done (get_part x1 q)); [destruct q; reflexivity |].
      rewrite D1. destruct q; reflexivity.
    + destruct (fill_file_part_info (uninit wc) x1 (m_fs parts) FsPart)
        as [[r2 x2] |] eqn:E2; [| discriminate].
      destruct (fill_file_part_info_keeps _ _ _ _ _ _ E2)
        as (_ & _ & _ & D2).
      destruct (r2 <? 0); injection H as <- <- <-;
        (transitivity (pi_done (get_part x2 q));
         [destruct q; reflexivity |]);
        rewrite D2, D1; destruct q; reflexivity.
  - destruct (mgos_upd_file_begin_cases _ _ _ _ _ _ H)
      as (-> & [-> | (p & Hm & Hd & [(-> & _) | (-> & _ & Hv)])]).
    + apply Hsame. destruct q; reflexivity.
    + apply Hsame.
      set (c0 := set_status_msg ctx "Failed to update file").
      destruct (prepared_for_part c0 fi p) as (_ & _ & _ & _ & _ & Hp & Ho).
      assert (Hq : q = p \/ q <> p)
        by (destruct q, p; auto; right; discriminate).
      destruct Hq as [-> | Hne].
      * rewrite Hp. destruct p; reflexivity.
      * rewrite (Ho q Hne). destruct q; reflexivity.
    + set (c0 := set_status_msg ctx "Failed to update file") in *.
      destruct (prepared_for_part c0 fi p) as (_ & _ & _ & _ & _ & Hp & Ho).
      apply (Hset p _ (ufi_size fi) eq_refl).
      * right. exists (set_fi_size (pi_fi (get_part ctx p)) (ufi_size fi)).
        rewrite Hp. destruct p; reflexivity.
      * intros x Hx.
        transitivity (pi_done (get_part (prepared_for c0 fi p) x)).
        { destruct x, p; try reflexivity; contradiction. }
        rewrite (Ho x Hx). destruct x; reflexivity.
      * exact Hv.
  - apply Hsame.
    destruct (mgos_upd_file_data_frame _ _ _ _ _ _ _ _ H) as (Hs & _).
    rewrite (same_parts_get_part _ _ q Hs). reflexivity.
  - destruct (mgos_upd_file_end_cases _ _ _ _ _ _ _ H)
      as (_ & -> & cp & Hcp & [(_ & ->) | (_ & -> & Hv)]).
    + apply Hsame. destruct q; reflexivity.
    + apply (Hset cp _ (ufi_size fi) eq_refl).
      * left. destruct cp; reflexivity.
      * intros x Hx. destruct x, cp; try reflexivity; contradiction.
      * exact Hv.
  - apply Hsame.
    destruct (mgos_upd_finalize_cases _ _ _ _ _ H)
      as [(_ & -> & _) | [(_ & -> & _) | (_ & ->)]];
      destruct q; reflexivity.
Qed.

End Steps.

Section Names.
Context `{P : Platform}.

Lemma memcpy_length {A} (dst src out : list A) (n : nat) :
  memcpy dst src n = Some out ->
  (n <= List.length dst)%nat ->
  List.length out = List.length dst.
Proof.
  intros H Hn. destruct (memcpy_inv _ _ _ _ H) as (Hs & ->).
  rewrite length_app, length_skipn, length_firstn. lia.
Qed.

Lemma memcpy_lookup_beyond {A} (dst src out : list A) (n i : nat) :
  memcpy dst src n = Some out ->
  (n <= i)%nat -> out !! i = dst !! i.
Proof.
  intros H Hn. destruct (memcpy_inv _ _ _ _ H) as (Hs & ->).
  assert (Hk : List.length (firstn n src) = n)
    by (rewrite length_firstn; lia).
  rewrite lookup_app_r by lia. rewrite lookup_drop. f_equal. lia.
Qed.

(** Padding with NUL does not change what [strcmp] sees. *)
Lemma strcmp_pad (x y : list ascii) (k : nat) :
  strcmp x (y ++ repeat NUL k) = strcmp x y.
Proof.
  revert x. induction y as [| d y IH]; intros x; simpl.
  - destruct k as [| k]; [reflexivity |]. simpl.
    destruct x as [| c x]; [reflexivity |].
    cbn [strcmp]. change (code NUL) with 0.
    destruct (Z.eqb_spec (code c) 0) as [Hz | Hnz]; simpl; lia.
  - destruct x as [| c x]; [reflexivity |].
    cbn [strcmp]. rewrite IH. reflexivity.
Qed.

Lemma memcpy_zeros (src out : list ascii) (n m : nat) :
  memcpy (repeat NUL m) src n = Some out ->
  out = firstn n src ++ repeat NUL (m - n).
Proof.
  intros H. destruct (memcpy_inv _ _ _ _ H) as (_ & ->). f_equal.
  clear. revert n.
  induction m as [| m IH]; intros n; destruct n; simpl; auto.
Qed.

(** Reduction of the field reads and writes of the context. *)
Ltac simpl_fields :=
  cbn [get_part set_part fw_part fs_part fs_dir_part slot_to_write
       pi_fi pi_addr pi_size pi_done set_pi_fi set_pi_addr set_pi_size
       set_pi_done fi_sha1_sum fi_file_name fi_size fi_file set_fi_sha1_sum
       set_fi_file_name set_fi_size] in *.

(** The two copies of [fill_file_part_info]: the digest buffer is as it
    was or took 40 characters from the digest token on; the name buffer
    took the text of the [src] token when the result is 1 and is as it
    was otherwise. *)
Lemma fill_file_part_info_copies (addr0 : Z) (ctx ctx' : mgos_upd_ctx)
    (tok : option part_token) (pi : part_ref) (r : Z) :
  fill_file_part_info addr0 ctx tok pi = Some (r, ctx') ->
  let t := match tok with Some t => t | None => invalid_part_token end in
  let sha :=
    match t_cs_sha1 t with Some s => s | None => JSON_INVALID_TOKEN end in
  let src :=
    match t_src t with Some s => s | None => JSON_INVALID_TOKEN end in
  let old := pi_fi (get_part ctx pi) in
  let new := pi_fi (get_part ctx' pi) in
  (fi_sha1_sum new = fi_sha1_sum old \/
   memcpy (fi_sha1_sum old) (tok_ptr sha) 40 = Some (fi_sha1_sum new)) /\
  (r <> 1 -> fi_file_name new = fi_file_name old) /\
  (r = 1 ->
   0 < tok_len src < 50 /\
   memcpy (fi_file_name old) (tok_ptr src) (Z.to_nat (tok_len src))
   = Some (fi_file_name new)).
Proof.
  intros H t sha src old new. unfold fill_file_part_info in H.
  fold t in H. fold sha in H. fold src in H. subst old new.
  destruct pi, (t_size t); simpl_fields;
    (destruct (tok_len sha =? 0);
     [injection H as <- <-; simpl_fields;
      split; [left; reflexivity |]; split; [reflexivity | discriminate] |]);
    (destruct (memcpy _ (tok_ptr sha) 40) as [s1 |] eqn:E1;
     [| discriminate]);
    simpl_fields;
    (destruct (Z.leb_spec (tok_len src) 0) as [Hle | Hgt];
     simpl orb in H; cbv iota in H;
     [injection H as <- <-; simpl_fields;
      split; [right; reflexivity |]; split; [reflexivity | discriminate] |]);
    (destruct (Z.geb_spec (tok_len src) 50) as [Hge | Hlt]; cbv iota in H;
     [injection H as <- <-; simpl_fields;
      split; [right; reflexivity |]; split; [reflexivity | discriminate] |]);
    (destruct (memcpy _ (tok_ptr src) _) as [s2 |] eqn:E2;
     [| discriminate]);
    injection H as <- <-; simpl_fields;
    (split; [right; reflexivity |]);
    (split; [intros Hc; contradiction |]); intros _;
    (split; [lia | reflexivity]).
Qed.

(** The name [fill_file_part_info] stores when it accepts a part: the
    text of the [src] token over the start of the old name. *)
Lemma fill_file_part_info_name (addr0 : Z) (ctx ctx' : mgos_upd_ctx)
    (t : part_token) (src : json_token) (pi : part_ref) :
  fill_file_part_info addr0 ctx (Some t) pi = Some (1, ctx') ->
  t_src t = Some src ->
  memcpy (fi_file_name (pi_fi (get_part ctx pi))) (tok_ptr src)
    (Z.to_nat (tok_len src))
  = Some (fi_file_name (pi_fi (get_part ctx' pi))).
Proof.
  intros H Hsrc.
  destruct (fill_file_part_info_copies _ _ _ _ _ _ H) as (_ & _ & Hn).
  rewrite Hsrc in Hn. apply Hn. reflexivity.
Qed.

Lemma fill_file_part_info_buffers (addr0 : Z) (ctx ctx' : mgos_upd_ctx)
    (tok : option part_token) (pi : part_ref) (r : Z) :
  fill_file_part_info addr0 ctx tok pi = Some (r, ctx') ->
  buffers_ok ctx -> buffers_ok ctx'.
Proof.
  intros H Hok.
  destruct (fill_file_part_info_copies _ _ _ _ _ _ H) as (Hsha & Hkeep & Hn).
  destruct (fill_file_part_info_frame _ _ _ _ _ _ H) as (_ & _ & _ & Hfr).
  intros q.
  assert (Hq : q = pi \/ q <> pi)
    by (destruct q, pi; auto; right; discriminate).
  destruct Hq as [-> | Hne]; [| rewrite (Hfr q Hne); apply Hok].
  destruct (Hok pi) as (Hs & Hl & Hz).
  split.
  { destruct Hsha as [-> | Hc]; [exact Hs |].
    rewrite (memcpy_length _ _ _ _ Hc); [exact Hs | lia]. }
  destruct (Z.eq_dec r 1) as [Hr | Hr].
  - destruct (Hn Hr) as (Hlen & Hc).
    split.
    + rewrite (memcpy_length _ _ _ _ Hc); [exact Hl | lia].
    + rewrite (memcpy_lookup_beyond _ _ _ _ _ Hc) by lia. exact Hz.
  - rewrite (Hkeep Hr). auto.
Qed.

(** A call other than [mgos_upd_begin] leaves [slot_to_write] and the
    address, name and digest of every part as they are. *)
Lemma step_keeps_descriptors (ctx ctx' : mgos_upd_ctx) (w w' : world) :
  step (ctx, w) (ctx', w') ->
  (exists (parts : manifest_parts) (r : Z),
     mgos_upd_begin ctx parts w = Some (r, ctx', w')) \/
  (slot_to_write ctx' = slot_to_write ctx /\
   forall q : part_ref,
     pi_addr (get_part ctx' q) = pi_addr (get_part ctx q) /\
     fi_sha1_sum (pi_fi (get_part ctx' q))
     = fi_sha1_sum (pi_fi (get_part ctx q)) /\
     fi_file_name (pi_fi (get_part ctx' q))
     = fi_file_name (pi_fi (get_part ctx q))).
Proof.
  intros Hstep.
  inversion Hstep as
    [c0 w0 parts r c1 w1 H | c0 w0 fi a c1 w1 H
    | fuel c0 w0 fi data r c1 w1 H | c0 w0 fi tail r c1 w1 H
    | c0 w0 r c1 w1 H | c0 w0 w1 H | c0 w0 w1 H]; subst;
    [left; eauto | right .. ]; try (split; [reflexivity | auto]).
  - destruct (mgos_upd_file_begin_cases _ _ _ _ _ _ H)
      as (_ & [-> | (p & _ & _ & [(-> & _) | (-> & _)])]).
    + split; [reflexivity | intros q; destruct q; auto].
    + split; [destruct p; reflexivity |].
      intros q; destruct q, p; auto.
    + split; [destruct p; reflexivity |].
      intros q; destruct q, p; auto.
  - destruct (mgos_upd_file_data_frame _ _ _ _ _ _ _ _ H)
      as (Hs & _).
    split; [apply Hs |]. intros q.
    rewrite (same_parts_get_part _ _ q Hs). auto.
  - destruct (mgos_upd_file_end_cases _ _ _ _ _ _ _ H)
      as (_ & _ & cp & _ & [(_ & ->) | (_ & -> & _)]).
    + split; [reflexivity | intros q; destruct q; auto].
    + split; [destruct cp; reflexivity |].
      intros q; destruct q, cp; auto.
  - destruct (mgos_upd_finalize_cases _ _ _ _ _ H)
      as [(_ & -> & _) | [(_ & -> & _) | (_ & ->)]];
      (split; [reflexivity | intros q; destruct q; auto]).
Qed.

(** X5: in every state an update attempt can reach, the digest buffer of
    each part holds 40 characters and the name buffer 50, and the last
    character of the name buffer is NUL: no copy from the manifest writes
    beyond the buffer it fills, and a stored name always ends inside its
    buffer, where [strcmp] stops.  What the copies read is not bounded in
    the same way: the digest is copied with the size of the buffer,
    whatever the length of the token, so that in such a state
    [mgos_upd_begin] has a defined result exactly when it has no
    configuration or the manifest holds the 40 characters from the start
    of each digest token it copies and the text of each [src] token it
    copies. *)
Theorem buffers_stay_in_bounds (s : mgos_upd_ctx * world) :
  reachable s ->
  buffers_ok (fst s) /\
  (forall parts : manifest_parts,
     mgos_upd_begin (fst s) parts (snd s) <> None <->
     (fst (get_rboot_config (snd s)) = None \/
      (reads_in_bounds (m_fw parts) /\
       (part_accepted (m_fw parts) -> reads_in_bounds (m_fs parts))))).
Proof.
  intros Hreach.
  split; [| intros parts; apply mgos_upd_begin_defined].
  induction Hreach as [w | [c w] [c' w'] _ IH Hstep]; simpl in *.
  - intros q. destruct q; repeat split.
  - destruct (step_keeps_descriptors _ _ _ _ Hstep)
      as [(parts & r & Hb) | (_ & Hk)].
    + unfold mgos_upd_begin in Hb.
      destruct (get_rboot_config w) as [[cfg |] wc];
        [| injection Hb as <- <- <-; intros q; specialize (IH q);
           destruct q; exact IH].
      destruct (fill_file_part_info (uninit wc) _ (m_fw parts) FwPart)
        as [[r1 x1] |] eqn:E1; [| discriminate].
      assert (H1 : buffers_ok x1).
      { apply (fill_file_part_info_buffers _ _ _ _ _ _ E1).
        intros q. specialize (IH q). destruct q; exact IH. }
      destruct (negb (r1 >=? 0)).
      * injection Hb as <- <- <-. intros q. specialize (H1 q).
        destruct q; exact H1.
      * destruct (fill_file_part_info (uninit wc) x1 (m_fs parts) FsPart)
          as [[r2 x2] |] eqn:E2; [| discriminate].
        pose proof (fill_file_part_info_buffers _ _ _ _ _ _ E2 H1) as H2.
        destruct (r2 <? 0); injection Hb as <- <- <-;
          intros q; specialize (H2 q); destruct q; exact H2.
    + intros q. destruct (Hk q) as (_ & -> & ->). apply IH.
Qed.

(** X14: in every state an update attempt can reach, [slot_to_write] is 0
    or 1. *)
Theorem slot_to_write_is_a_slot (s : mgos_upd_ctx * world) :
  reachable s ->
  slot_to_write (fst s) = 0 \/ slot_to_write (fst s) = 1.
Proof.
  induction 1 as [w | [c w] [c' w'] _ IH Hstep]; simpl in *.
  - left. reflexivity.
  - destruct (step_keeps_descriptors _ _ _ _ Hstep)
      as [(parts & r & Hb) | (-> & _)]; [| exact IH].
    unfold mgos_upd_begin in Hb.
    destruct (get_rboot_config w) as [[cfg |] wc];
      [| injection Hb as <- <- <-; exact IH].
    destruct (fill_file_part_info (uninit wc) _ (m_fw parts) FwPart)
      as [[r1 x1] |] eqn:E1; [| discriminate].
    destruct (fill_file_part_info_frame _ _ _ _ _ _ E1) as (S1 & _).
    simpl in S1.
    assert (Hx1 : slot_to_write x1 = 0 \/ slot_to_write x1 = 1)
      by (rewrite S1; destruct (current_rom cfg =? 0); auto).
    destruct (negb (r1 >=? 0)); [injection Hb as <- <- <-; exact Hx1 |].
    destruct (fill_file_part_info (uninit wc) x1 (m_fs parts) FsPart)
      as [[r2 x2] |] eqn:E2; [| discriminate].
    destruct (fill_file_part_info_frame _ _ _ _ _ _ E2) as (S2 & _).
    destruct (r2 <? 0); injection Hb as <- <- <-; simpl; rewrite S2;
      exact Hx1.
Qed.

End Names.

Section NamesRoundTrip.
Context `{P : Platform}.

(** X4: after [mgos_upd_begin] succeeds on a fresh context, the names the
    parts carry are the [src] texts of the manifest: a file is given to the
    firmware part exactly when its name equals the [src] of [fw] as a C
    string, else to the file system part exactly when it equals the [src]
    of [fs], else to no part. *)
Theorem fresh_begin_stores_names (parts : manifest_parts) (w w' : world)
    (ctx' : mgos_upd_ctx) (fw fs : part_token) (fw_src fs_src : json_token)
    (fi : mgos_upd_file_info) :
  mgos_upd_begin mgos_upd_ctx_create parts w = Some (1, ctx', w') ->
  m_fw parts = Some fw -> t_src fw = Some fw_src ->
  m_fs parts = Some fs -> t_src fs = Some fs_src ->
  matching_part ctx' fi
  = if strcmp (ufi_name fi) (tok_text fw_src) =? 0 then Some FwPart
    else if strcmp (ufi_name fi) (tok_text fs_src) =? 0 then Some FsPart
    else None.
Proof.
  unfold mgos_upd_begin. intros H Hfw Hfwsrc Hfs Hfssrc.
  destruct (get_rboot_config w) as [[cfg |] wc]; [| discriminate].
  rewrite Hfw, Hfs in H.
  set (c0 := set_slot_to_write mgos_upd_ctx_create
               (if current_rom cfg =? 0 then 1 else 0)) in *.
  destruct (fill_file_part_info (uninit wc) c0 (Some fw) FwPart)
    as [[r1 x1] |] eqn:E1; [| discriminate].
  pose proof (fill_file_part_info_code _ _ _ _ _ _ E1) as C1.
  destruct C1 as [(_ & ->) | (_ & ->)]; simpl in H; [| discriminate].
  destruct (fill_file_part_info (uninit wc) x1 (Some fs) FsPart)
    as [[r2 x2] |] eqn:E2; [| discriminate].
  pose proof (fill_file_part_info_code _ _ _ _ _ _ E2) as C2.
  destruct C2 as [(_ & ->) | (_ & ->)]; simpl in H; [| discriminate].
  injection H as <- <-.
  destruct (fill_file_part_info_frame _ _ _ _ _ _ E1) as (_ & _ & _ & F1).
  destruct (fill_file_part_info_frame _ _ _ _ _ _ E2) as (_ & _ & _ & F2).
  pose proof (fill_file_part_info_name _ _ _ _ _ _ E1 Hfwsrc) as N1.
  pose proof (fill_file_part_info_name _ _ _ _ _ _ E2 Hfssrc) as N2.
  rewrite (F1 FsPart ltac:(discriminate)) in N2.
  change (fi_file_name (pi_fi (get_part c0 FwPart))) with (repeat NUL 50)
    in N1.
  change (fi_file_name (pi_fi (get_part c0 FsPart))) with (repeat NUL 50)
    in N2.
  apply memcpy_zeros in N1. apply memcpy_zeros in N2.
  unfold matching_part.
  change (fw_part x2) with (get_part x2 FwPart).
  change (fs_part x2) with (get_part x2 FsPart).
  rewrite (F2 FwPart ltac:(discriminate)), N1, N2, !strcmp_pad.
  reflexivity.
Qed.

End NamesRoundTrip.

Section StatusMessage.
Context `{P : Platform}.

(** X13: [mgos_upd_file_begin] sets the status message to "Failed to
    update file" before it does anything else, and no call that succeeds
    changes it: after a file was begun, written by calls that all
    succeeded, ended with a matching checksum and the update finalized,
    [mgos_upd_get_status_msg] still answers "Failed to update file". *)
Theorem status_msg_after_success (ctx c1 c2 c3 c4 : mgos_upd_ctx)
    (w w1 w2 w3 w4 : world) (fi fi_end : mgos_upd_file_info)
    (a : mgos_upd_file_action) (total : Z) (tail : list Z) :
  mgos_upd_file_begin ctx fi w = Some (a, c1, w1) ->
  data_run (c1, w1) total (c2, w2) ->
  mgos_upd_file_end c2 fi_end tail w2 = Some (0, c3, w3) ->
  mgos_upd_finalize c3 w3 = Some (1, c4, w4) ->
  mgos_upd_get_status_msg c4 = Some "Failed to update file"%string.
Proof.
  intros Hb Hd He Hf. unfold mgos_upd_get_status_msg.
  assert (H1 : status_msg c1 = Some "Failed to update file"%string).
  { destruct (mgos_upd_file_begin_cases _ _ _ _ _ _ Hb)
      as (_ & [-> | (p & _ & _ & [(-> & _) | (-> & _)])]);
      [reflexivity | destruct p; reflexivity | destruct p; reflexivity]. }
  destruct (data_run_inv _ _ _ Hd) as (_ & _ & _ & _ & _ & _ & H2 & _).
  simpl in H2.
  assert (H3 : status_msg c3 = status_msg c2).
  { destruct (mgos_upd_file_end_cases _ _ _ _ _ _ _ He)
      as (_ & _ & cp & _ & [(Hc & _) | (_ & -> & _)]);
      [discriminate | destruct cp; reflexivity]. }
  destruct (mgos_upd_finalize_cases _ _ _ _ _ Hf)
    as [(Hc & _) | [(Hc & _) | (_ & ->)]]; try discriminate.
  congruence.
Qed.

End StatusMessage.

Section BootMore.
Context `{P : Platform}.

Lemma get_rboot_config_store (w : world) (cfg : rboot_config) :
  get_rboot_config (store_config w cfg) = (Some cfg, store_config w cfg).
Proof. reflexivity. Qed.

(** X15: a second [mgos_upd_finalize] on the same context, after one that
    switched slots, does not switch again: [slot_to_write] is now the
    current slot, so it stores the very configuration the first call
    stored, without loading anything; [previous_rom] still names the slot
    that ran before the update. *)
Theorem finalize_twice_keeps_rollback_slot (ctx : mgos_upd_ctx)
    (w w1 : world) (cfg : rboot_config) :
  get_rboot_config w = (Some cfg, w1) ->
  pi_done (fw_part ctx) <> 0 ->
  pi_done (fs_part ctx) <> 0 \/ pi_done (fs_dir_part ctx) <> 0 ->
  slot_to_write ctx = 0 \/ slot_to_write ctx = 1 ->
  slot_to_write ctx <> current_rom cfg ->
  exists (w' w'' : world) (cfg' : rboot_config),
    mgos_upd_finalize ctx w = Some (1, ctx, w') /\
    cfg_cache w' = Some cfg' /\
    mgos_upd_finalize ctx w' = Some (1, ctx, w'') /\
    cfg_cache w'' = Some cfg' /\
    previous_rom cfg' = current_rom cfg /\
    current_rom cfg' = slot_to_write ctx /\
    new_events w' w'' = [EvSetConfig cfg'].
Proof.
  intros Hcfg Hfw Hfs Hslot Hne.
  assert (Hfs' : (pi_done (fs_part ctx) =? 0)
                 && (pi_done (fs_dir_part ctx) =? 0) = false)
    by (apply andb_false_iff; destruct Hfs as [H | H]; [left | right];
        apply Z.eqb_neq; exact H).
  unfold mgos_upd_finalize.
  rewrite (pi_done_nonzero _ Hfw), Hfs', Hcfg.
  replace (slot_to_write ctx =? current_rom cfg) with false
    by (symmetry; apply Z.eqb_neq; exact Hne).
  rewrite (wrap8_slot _ Hslot).
  do 3 eexists. split; [reflexivity |]. split; [reflexivity |].
  rewrite get_rboot_config_store. simpl current_rom.
  rewrite Z.eqb_refl.
  split; [reflexivity |]. split; [reflexivity |].
  split; [reflexivity |]. split; [reflexivity |].
  apply new_events_app. reflexivity.
Qed.

(** X16: [mgos_upd_boot_commit] and [mgos_upd_boot_revert] settle the
    update once: after either has returned, another commit or revert
    changes nothing and stores nothing.  In particular a revert after a
    commit does not go back to the previous slot. *)
Theorem commit_and_revert_settle (w w' : world) :
  mgos_upd_boot_commit w = Some w' \/ mgos_upd_boot_revert w = Some w' ->
  mgos_upd_boot_commit w' = Some w' /\ mgos_upd_boot_revert w' = Some w'.
Proof.
  unfold mgos_upd_boot_commit, mgos_upd_boot_revert.
  intros [H | H];
    destruct (get_rboot_config w) as [[cfg |] w1] eqn:Hcfg;
    try discriminate;
    (destruct (Z.eqb_spec (fw_updated cfg) 0) as [Hz | Hnz];
     injection H as <-;
     [rewrite (get_rboot_config_idem _ _ _ Hcfg);
      apply Z.eqb_eq in Hz; rewrite Hz; auto
     | rewrite get_rboot_config_store; auto]).
Qed.

(** X17: after a [mgos_upd_finalize] that switched slots, [get_fs_size]
    returns the size of the file system file that was written for every
    argument that is the new slot once converted to [uint8_t], that is
    modulo 256, and for every other argument what the configuration held
    before at the converted index; neither call loads or stores
    anything. *)
Theorem get_fs_size_after_finalize (ctx : mgos_upd_ctx) (w w1 w' : world)
    (cfg : rboot_config) :
  get_rboot_config w = (Some cfg, w1) ->
  slot_to_write ctx = 0 \/ slot_to_write ctx = 1 ->
  slot_to_write ctx <> current_rom cfg ->
  (Z.to_nat (slot_to_write ctx) < List.length (fs_sizes cfg))%nat ->
  mgos_upd_finalize ctx w = Some (1, ctx, w') ->
  (forall rom : Z,
     wrap8 rom = slot_to_write ctx ->
     get_fs_size rom w' = (Some (fi_size (pi_fi (fs_part ctx))), w')) /\
  (forall rom : Z,
     wrap8 rom <> slot_to_write ctx ->
     get_fs_size rom w' = (fs_sizes cfg !! Z.to_nat (wrap8 rom), w')).
Proof.
  intros Hcfg Hslot Hne Hlen Hfin.
  unfold mgos_upd_finalize in Hfin.
  destruct (pi_done (fw_part ctx) =? 0); [discriminate |].
  destruct (_ && _); [discriminate |].
  rewrite Hcfg in Hfin.
  replace (slot_to_write ctx =? current_rom cfg) with false in Hfin
    by (symmetry; apply Z.eqb_neq; exact Hne).
  rewrite (wrap8_slot _ Hslot) in Hfin.
  injection Hfin as <-.
  unfold get_fs_size. rewrite get_rboot_config_store. simpl fs_sizes.
  split.
  - intros rom ->.
    rewrite list_lookup_insert_eq by exact Hlen. reflexivity.
  - intros rom Hdiff.
    assert (H8 : 0 <= wrap8 rom)
      by (unfold wrap8; apply Z.mod_pos_bound; reflexivity).
    rewrite list_lookup_insert_ne by lia. reflexivity.
Qed.

End BootMore.

Section ApplyUpdateMore.
Context `{S : Spiffs}.

(** X18: after a [mgos_upd_finalize] that switched slots,
    [mgos_upd_apply_update] mounts the file system of the slot that ran
    before the update, at the address and with the size the configuration
    held for that slot before the finalize.  When the mount fails it
    returns -1 and merges nothing; otherwise it merges, unmounts and
    returns the result of the merge.  It neither loads nor stores the boot
    configuration. *)
Theorem apply_update_mounts_previous_slot (ctx : mgos_upd_ctx)
    (w w1 w' : world) (cfg : rboot_config) (old_addr old_size : Z) :
  get_rboot_config w = (Some cfg, w1) ->
  slot_to_write ctx = 0 \/ slot_to_write ctx = 1 ->
  slot_to_write ctx <> current_rom cfg -> 0 <= current_rom cfg ->
  fs_addresses cfg !! Z.to_nat (current_rom cfg) = Some old_addr ->
  fs_sizes cfg !! Z.to_nat (current_rom cfg) = Some old_size ->
  mgos_upd_finalize ctx w = Some (1, ctx, w') ->
  exists (r : Z) (w'' : world) (calls : list fs_event),
    mgos_upd_apply_update w' = Some (r, w'', calls) /\
    cfg_cache w'' = cfg_cache w' /\ trace w'' = trace w' /\
    ((fst (fst (fs_mount (hw w') old_addr old_size)) <> 0 /\
      r = -1 /\ calls = [EvMount old_addr old_size]) \/
     (fst (fst (fs_mount (hw w') old_addr old_size)) = 0 /\
      calls = [EvMount old_addr old_size; EvMerge; EvUnmount] /\
      r = fst (mgos_upd_merge_spiffs
                 (snd (fs_mount (hw w') old_addr old_size))
                 (snd (fst (fs_mount (hw w') old_addr old_size)))))).
Proof.
  intros Hcfg Hslot Hne Hold Haddr Hsize Hfin.
  unfold mgos_upd_finalize in Hfin.
  destruct (pi_done (fw_part ctx) =? 0); [discriminate |].
  destruct (_ && _); [discriminate |].
  rewrite Hcfg in Hfin.
  replace (slot_to_write ctx =? current_rom cfg) with false in Hfin
    by (symmetry; apply Z.eqb_neq; exact Hne).
  rewrite (wrap8_slot _ Hslot) in Hfin.
  injection Hfin as <-.
  unfold mgos_upd_apply_update. rewrite get_rboot_config_store.
  simpl previous_rom. simpl fs_sizes. simpl fs_addresses.
  rewrite !list_lookup_insert_ne by lia.
  rewrite Hsize, Haddr.
  destruct (fs_mount _ old_addr old_size) as [[rc old_fs] h] eqn:Em.
  simpl fst. simpl snd.
  destruct (Z.eqb_spec rc 0) as [-> | Hrc]; simpl negb; cbv iota.
  - destruct (mgos_upd_merge_spiffs h old_fs) as [ret h2] eqn:Eg.
    do 3 eexists. split; [reflexivity |].
    split; [reflexivity |]. split; [reflexivity |].
    right. auto.
  - do 3 eexists. split; [reflexivity |].
    split; [reflexivity |]. split; [reflexivity |].
    left. auto.
Qed.

End ApplyUpdateMore.

Section EraseMore.
Context `{P : Platform}.

(** One erase round from a sector-aligned [erased_till], away from the end
    of the address space: the range cleared starts at [erased_till], ends
    on a sector boundary at most a block further, and reaches past the
    current part only within the last sector of the part. *)
Lemma prepare_flash_erase_aligned (ctx ctx' : mgos_upd_ctx) (w w' : world)
    (rc : Z) :
  0 <= erased_till ctx ->
  erased_till ctx mod FLASH_SECTOR_SIZE = 0 ->
  erased_till ctx + FLASH_ERASE_BLOCK_SIZE < 2 ^ 32 ->
  prepare_flash_erase ctx w = Some (rc, ctx', w') ->
  exists (ev : event) (hi : Z),
    trace w' = trace w ++ [ev] /\
    erased_region ev = Some (erased_till ctx, hi) /\
    erased_till ctx < hi <= erased_till ctx + FLASH_ERASE_BLOCK_SIZE /\
    hi mod FLASH_SECTOR_SIZE = 0 /\
    (hi = erased_till ctx + FLASH_SECTOR_SIZE \/
     exists cp : part_ref,
       current_part ctx = Some cp /\
       hi = erased_till ctx + FLASH_ERASE_BLOCK_SIZE /\
       wrap32 (pi_addr (get_part ctx cp) + fi_size (pi_fi (get_part ctx cp)))
       >= hi) /\
    ((rc = 0 /\ ctx' = set_erased_till ctx hi) \/ (rc <> 0 /\ ctx' = ctx)).
Proof.
  intros H0 Hal Hmax H.
  unfold FLASH_SECTOR_SIZE, FLASH_ERASE_BLOCK_SIZE in *.
  assert (Hsec : (erased_till ctx / 4096 + 1) * 4096
                 = erased_till ctx + 4096)
    by (Z.div_mod_to_equations; lia).
  unfold prepare_flash_erase in H.
  unfold FLASH_SECTOR_SIZE, FLASH_ERASE_BLOCK_SIZE in H.
  assert (Hsector :
    forall res,
      (let '(rc, h) := spi_flash_erase_sector (hw w) (erased_till ctx / 4096) in
       let w0 := set_hw (log w (EvEraseSector (erased_till ctx / 4096))) h in
       if negb (rc =? 0) then Some (rc, ctx, w0)
       else
         Some (0,
               set_erased_till ctx
                 (wrap32 ((erased_till ctx / 4096 + 1) * 4096)), w0))
      = Some res ->
      exists (ev : event) (hi : Z),
        trace (snd res) = trace w ++ [ev] /\
        erased_region ev = Some (erased_till ctx, hi) /\
        erased_till ctx < hi <= erased_till ctx + 65536 /\
        hi mod 4096 = 0 /\
        hi = erased_till ctx + 4096 /\
        ((fst (fst res) = 0 /\ snd (fst res) = set_erased_till ctx hi) \/
         (fst (fst res) <> 0 /\ snd (fst res) = ctx))).
  { intros res Hres.
    destruct (spi_flash_erase_sector (hw w) _) as [rc0 h].
    exists (EvEraseSector (erased_till ctx / 4096)),
           (erased_till ctx + 4096).
    assert (Hreg : erased_region (EvEraseSector (erased_till ctx / 4096))
                   = Some (erased_till ctx, erased_till ctx + 4096)).
    { unfold erased_region, FLASH_SECTOR_SIZE. rewrite Hsec.
      do 2 f_equal. Z.div_mod_to_equations. lia. }
    destruct (Z.eqb_spec rc0 0) as [-> | Hrc]; simpl in Hres;
      injection Hres as <-; simpl;
      (split; [reflexivity |]); (split; [exact Hreg |]);
      (split; [lia |]);
      (split; [Z.div_mod_to_equations; lia |]);
      (split; [reflexivity |]).
    - left. split; [reflexivity |]. rewrite Hsec, wrap32_small by lia.
      reflexivity.
    - right. auto. }
  destruct (Z.eqb_spec (erased_till ctx mod 65536) 0) as [Hb | Hb].
  - destruct (current_part ctx) as [cp |] eqn:Hcp; [| discriminate].
    rewrite (wrap32_small (erased_till ctx + 65536)) in H by lia.
    destruct (Z.geb_spec
                (wrap32 (pi_addr (get_part ctx cp)
                         + fi_size (pi_fi (get_part ctx cp))))
                (erased_till ctx + 65536)) as [Hreach | Hshort].
    + assert (Hblk : (erased_till ctx / 65536 + 1) * 65536
                     = erased_till ctx + 65536)
        by (Z.div_mod_to_equations; lia).
      destruct (SPIEraseBlock (hw w) _) as [rc0 h].
      exists (EvEraseBlock (erased_till ctx / 65536)),
             (erased_till ctx + 65536).
      assert (Hreg : erased_region (EvEraseBlock (erased_till ctx / 65536))
                     = Some (erased_till ctx, erased_till ctx + 65536)).
      { unfold erased_region, FLASH_ERASE_BLOCK_SIZE. rewrite Hblk.
        do 2 f_equal. Z.div_mod_to_equations. lia. }
      destruct (Z.eqb_spec rc0 0) as [-> | Hrc]; simpl in H;
        injection H as <- <- <-; simpl;
        (split; [reflexivity |]); (split; [exact Hreg |]);
        (split; [lia |]);
        (split; [Z.div_mod_to_equations; lia |]);
        (split; [right; exists cp; repeat split; lia |]).
      * left. split; [reflexivity |]. rewrite Hblk, wrap32_small by lia.
        reflexivity.
      * right. auto.
    + destruct (Hsector _ H) as (ev & hi & T & R & B & A & Hhi & Hc).
      exists ev, hi. simpl in *. auto 8.
  - destruct (Hsector _ H) as (ev & hi & T & R & B & A & Hhi & Hc).
    exists ev, hi. simpl in *. auto 8.
Qed.

Lemma prepare_flash_span (fuel : nat) :
  forall (ctx ctx' : mgos_upd_ctx) (bytes r : Z) (w w' : world),
    0 <= erased_till ctx ->
    erased_till ctx mod FLASH_SECTOR_SIZE = 0 ->
    wrap32 (current_write_address ctx + bytes) + FLASH_ERASE_BLOCK_SIZE
    <= 2 ^ 32 ->
    prepare_flash fuel ctx bytes w = Some (r, ctx', w') ->
    erased_till ctx' mod FLASH_SECTOR_SIZE = 0 /\
    exists t : list event,
      trace w' = trace w ++ t /\
      ((r = 1 /\ erase_span (erased_till ctx) t = Some (erased_till ctx')) \/
       (r = -1 /\
        exists (t0 : list event) (ev : event) (hi : Z),
          t = t0 ++ [ev] /\
          erase_span (erased_till ctx) t0 = Some (erased_till ctx') /\
          erased_region ev = Some (erased_till ctx', hi))).
Proof.
  induction fuel as [| fuel IH]; intros ctx ctx' bytes r w w' H0 Hal Hmax H;
    simpl in H.
  - destruct (wrap32 _ >? erased_till ctx); [discriminate |].
    injection H as <- <- <-. split; [exact Hal |].
    exists []. rewrite app_nil_r. split; [reflexivity |]. left. auto.
  - destruct (Z.gtb_spec (wrap32 (current_write_address ctx + bytes))
                (erased_till ctx)) as [Hgt | Hle].
    + destruct (prepare_flash_erase ctx w) as [[[rc c1] w1] |] eqn:E;
        [| discriminate].
      destruct (prepare_flash_erase_aligned ctx c1 w w1 rc H0 Hal
                  ltac:(lia) E)
        as (ev & hi & T1 & R1 & B1 & A1 & _ & Hc).
      destruct Hc as [(-> & ->) | (Hrc & ->)].
      * simpl in H.
        apply IH in H; [| simpl; lia | exact A1 | exact Hmax].
        simpl erased_till in H. destruct H as (Hal' & t & T & Hr).
        split; [exact Hal' |].
        exists (ev :: t). split; [rewrite T, T1, <- app_assoc; reflexivity |].
        destruct Hr as [(-> & Hs) | (-> & t0 & ev0 & hi0 & -> & Hs & Hr0)].
        -- left. split; [reflexivity |]. simpl. rewrite R1, Z.eqb_refl.
           exact Hs.
        -- right. split; [reflexivity |].
           exists (ev :: t0), ev0, hi0. split; [reflexivity |].
           split; [| exact Hr0]. simpl. rewrite R1, Z.eqb_refl. exact Hs.
      * apply Z.eqb_neq in Hrc. rewrite Hrc in H. simpl in H.
        injection H as <- <- <-. split; [exact Hal |].
        exists [ev]. split; [exact T1 |]. right. split; [reflexivity |].
        exists [], ev, hi. auto.
    + injection H as <- <- <-. split; [exact Hal |].
      exists []. rewrite app_nil_r. split; [reflexivity |]. left. auto.
Qed.

(** X8: from a sector-aligned [erased_till], the erase calls of
    [prepare_flash] clear one range after the other without gap or
    overlap, the first starting at the old [erased_till] and the last
    ending at the new one, which is sector aligned again and, on result 1,
    at or above the end of the range to write.  On -1 the calls before the
    last did that, and the last, the one that failed, started at the new
    [erased_till]. *)
Theorem prepare_flash_erases_span (fuel : nat) (ctx ctx' : mgos_upd_ctx)
    (bytes r : Z) (w w' : world) :
  0 <= erased_till ctx ->
  erased_till ctx mod FLASH_SECTOR_SIZE = 0 ->
  wrap32 (current_write_address ctx + bytes) + FLASH_ERASE_BLOCK_SIZE
  <= 2 ^ 32 ->
  prepare_flash fuel ctx bytes w = Some (r, ctx', w') ->
  erased_till ctx' mod FLASH_SECTOR_SIZE = 0 /\
  (r = 1 \/ r = -1) /\
  (r = 1 ->
   erase_span (erased_till ctx) (new_events w w') = Some (erased_till ctx') /\
   wrap32 (current_write_address ctx + bytes) <= erased_till ctx') /\
  (r = -1 ->
   exists (t0 : list event) (ev : event) (hi : Z),
     new_events w w' = t0 ++ [ev] /\
     erase_span (erased_till ctx) t0 = Some (erased_till ctx') /\
     erased_region ev = Some (erased_till ctx', hi)).
Proof.
  intros H0 Hal Hmax H.
  destruct (prepare_flash_span fuel _ _ _ _ _ _ H0 Hal Hmax H)
    as (Hal' & t & T & Hr).
  destruct (prepare_flash_monotone fuel _ _ _ _ _ _ H0 Hmax H) as (_ & Hcov).
  rewrite (new_events_app _ _ _ T).
  split; [exact Hal' |].
  destruct Hr as [(-> & Hs) | (-> & Hf)].
  - split; [auto |]. split; [auto | discriminate].
  - split; [auto |]. split; [discriminate | auto].
Qed.

Lemma prepare_flash_in_part (fuel : nat) :
  forall (ctx ctx' : mgos_upd_ctx) (bytes r : Z) (w w' : world)
         (cp : part_ref),
    current_part ctx = Some cp ->
    let part_end :=
      pi_addr (get_part ctx cp) + fi_size (pi_fi (get_part ctx cp)) in
    0 <= erased_till ctx ->
    erased_till ctx mod FLASH_SECTOR_SIZE = 0 ->
    0 <= current_write_address ctx + bytes <= part_end ->
    part_end + FLASH_ERASE_BLOCK_SIZE <= 2 ^ 32 ->
    prepare_flash fuel ctx bytes w = Some (r, ctx', w') ->
    erased_till ctx' <= Z.max (erased_till ctx) (sector_ceil part_end) /\
    exists t : list event,
      trace w' = trace w ++ t /\
      Forall (fun ev =>
                exists lo hi : Z,
                  erased_region ev = Some (lo, hi) /\
                  erased_till ctx <= lo /\ hi <= sector_ceil part_end) t.
Proof.
  induction fuel as [| fuel IH];
    intros ctx ctx' bytes r w w' cp Hcp part_end H0 Hal Hrange Hmax H;
    simpl in H.
  - destruct (wrap32 _ >? erased_till ctx); [discriminate |].
    injection H as <- <- <-. split; [lia |].
    exists []. rewrite app_nil_r. auto.
  - unfold FLASH_ERASE_BLOCK_SIZE in Hmax.
    assert (Hend : wrap32 (current_write_address ctx + bytes)
                   = current_write_address ctx + bytes)
      by (apply wrap32_small; lia).
    rewrite Hend in H.
    destruct (Z.gtb_spec (current_write_address ctx + bytes)
                (erased_till ctx)) as [Hgt | Hle].
    + destruct (prepare_flash_erase ctx w) as [[[rc c1] w1] |] eqn:E;
        [| discriminate].
      destruct (prepare_flash_erase_aligned ctx c1 w w1 rc H0 Hal
                  ltac:(unfold FLASH_ERASE_BLOCK_SIZE; lia) E)
        as (ev & hi & T1 & R1 & B1 & A1 & Hhi & Hc).
      assert (Hbound : hi <= sector_ceil part_end).
      { unfold sector_ceil, FLASH_SECTOR_SIZE, FLASH_ERASE_BLOCK_SIZE in *.
        destruct Hhi as [-> | (cp' & Hcp' & -> & Hreach)].
        - Z.div_mod_to_equations. lia.
        - assert (cp' = cp) as -> by congruence.
          fold part_end in Hreach.
          rewrite wrap32_small in Hreach by lia.
          Z.div_mod_to_equations. lia. }
      assert (Hev : exists lo hi0 : Z,
                erased_region ev = Some (lo, hi0) /\
                erased_till ctx <= lo /\ hi0 <= sector_ceil part_end)
        by (exists (erased_till ctx), hi; repeat split; [exact R1 | lia | lia]).
      destruct Hc as [(-> & ->) | (Hrc & ->)].
      * simpl in H.
        apply (IH _ _ _ _ _ _ cp) in H;
          [| exact Hcp | simpl; lia | exact A1 | exact Hrange
           | unfold FLASH_ERASE_BLOCK_SIZE; exact Hmax].
        replace (get_part (set_erased_till ctx hi) cp) with (get_part ctx cp)
          in H by (destruct cp; reflexivity).
        simpl erased_till in H. fold part_end in H.
        destruct H as (Hle' & t & T & Ft).
        split; [lia |].
        exists (ev :: t). split; [rewrite T, T1, <- app_assoc; reflexivity |].
        constructor; [exact Hev |].
        eapply Forall_impl; [exact Ft |].
        intros x (lo & hi0 & Hx & Hlo & Hhi0). exists lo, hi0.
        repeat split; [exact Hx | lia | exact Hhi0].
      * apply Z.eqb_neq in Hrc. rewrite Hrc in H. simpl in H.
        injection H as <- <- <-. split; [lia |].
        exists [ev]. split; [exact T1 |]. constructor; [exact Hev | constructor].
    + injection H as <- <- <-. split; [lia |].
      exists []. rewrite app_nil_r. auto.
Qed.

(** X9: while the range to write lies inside the current part and
    [erased_till] is sector aligned, [prepare_flash] erases nothing below
    the old [erased_till] and nothing beyond the end of the part rounded up
    to a sector: a block is erased only where the part covers it whole.
    [erased_till] ends at or below that bound, or where it was. *)
Theorem prepare_flash_stays_in_part (fuel : nat) (ctx ctx' : mgos_upd_ctx)
    (bytes r : Z) (w w' : world) (cp : part_ref) :
  current_part ctx = Some cp ->
  let part_end :=
    pi_addr (get_part ctx cp) + fi_size (pi_fi (get_part ctx cp)) in
  0 <= erased_till ctx ->
  erased_till ctx mod FLASH_SECTOR_SIZE = 0 ->
  0 <= current_write_address ctx + bytes <= part_end ->
  part_end + FLASH_ERASE_BLOCK_SIZE <= 2 ^ 32 ->
  prepare_flash fuel ctx bytes w = Some (r, ctx', w') ->
  erased_till ctx' <= Z.max (erased_till ctx) (sector_ceil part_end) /\
  Forall (fun ev =>
            exists lo hi : Z,
              erased_region ev = Some (lo, hi) /\
              erased_till ctx <= lo /\ hi <= sector_ceil part_end)
    (new_events w w').
Proof.
  intros Hcp part_end H0 Hal Hrange Hmax H.
  destruct (prepare_flash_in_part fuel _ _ _ _ _ _ cp Hcp H0 Hal Hrange Hmax H)
    as (Hb & t & T & Ft).
  rewrite (new_events_app _ _ _ T). auto.
Qed.

End EraseMore.

Section ChecksumMore.
Context `{P : Platform}.

Lemma bytes_at_length (mem : Z -> Z) (addr : Z) (n : nat) :
  List.length (bytes_at mem addr n) = n.
Proof. unfold bytes_at. rewrite length_map, length_seq. reflexivity. Qed.

Lemma map_seq_from {A} (m : nat) :
  forall (a : nat) (f : nat -> A),
    List.map f (seq a m) = List.map (fun i => f (a + i)%nat) (seq 0 m).
Proof.
  induction m as [| m IH]; intros a f; [reflexivity |].
  simpl. rewrite Nat.add_0_r. f_equal.
  rewrite (IH (Datatypes.S a) f), (IH 1%nat (fun i => f (a + i)%nat)).
  apply map_ext. intros i. f_equal. lia.
Qed.

Lemma bytes_at_app (mem : Z -> Z) (addr : Z) (n m : nat) :
  bytes_at mem addr (n + m)
  = bytes_at mem addr n ++ bytes_at mem (addr + Z.of_nat n) m.
Proof.
  unfold bytes_at. rewrite seq_app, map_app. f_equal.
  rewrite (map_seq_from m (0 + n)).
  apply map_ext. intros i. f_equal. lia.
Qed.

(** Reading in pieces of 400 bytes gives the bytes of the region, in
    order. *)
Lemma read_region_bytes (mem : Z -> Z) (h : flash) (fuel : nat) :
  reads_as h mem ->
  forall addr len : Z,
    0 <= addr -> 0 <= len <= Z.of_nat fuel -> addr + len < 2 ^ 32 ->
    read_region fuel h addr len = Some (bytes_at mem addr (Z.to_nat len)).
Proof.
  intros Hmem. induction fuel as [| fuel IH]; intros addr len Ha Hlen Hmax.
  - assert (len = 0) as -> by lia. reflexivity.
  - simpl. destruct (Z.eqb_spec len 0) as [-> | Hnz]; [reflexivity |].
    set (n := if len >? 400 then 400 else len).
    assert (Hn : 0 < n <= len /\ n <= 400)
      by (unfold n; destruct (Z.gtb_spec len 400); lia).
    rewrite (Hmem addr n) by lia.
    change (negb (0 =? 0)) with false. cbv iota.
    rewrite (wrap32_small (addr + n)) by lia.
    rewrite IH by lia.
    rewrite firstn_all2 by (rewrite bytes_at_length; lia).
    replace (Z.to_nat len) with (Z.to_nat n + Z.to_nat (len - n))%nat by lia.
    rewrite bytes_at_app. do 3 f_equal. lia.
Qed.

(** X6: on a flash that reads as a memory, [verify_checksum] returns 1
    exactly when the hex digest of the [len] bytes from [addr] on, taken
    in order, equals the expected digest in its first 40 characters up to
    case, and -1 otherwise: that it reads in pieces of 400 bytes does not
    show. *)
Theorem verify_checksum_of_region (mem : Z -> Z) (h : flash)
    (addr len : Z) (cs : list ascii) :
  reads_as h mem ->
  0 <= addr -> 0 <= len -> addr + len < 2 ^ 32 ->
  let digest := bin2hex (cs_sha1 (bytes_at mem addr (Z.to_nat len))) in
  (strncasecmp digest cs 40 = 0 ->
   verify_checksum h addr len cs = Some 1) /\
  (strncasecmp digest cs 40 <> 0 ->
   verify_checksum h addr len cs = Some (-1)).
Proof.
  intros Hmem Ha Hlen Hmax digest.
  unfold verify_checksum.
  rewrite verify_checksum_loop_region by lia.
  rewrite (read_region_bytes mem h _ Hmem) by lia.
  rewrite app_nil_l.
  destruct (verify_checksum_compare_range
              (bytes_at mem addr (Z.to_nat len)) cs) as [H1 | H1];
    rewrite H1; split; intros Hd; try reflexivity; exfalso.
  - apply Hd. apply verify_checksum_compare_match. exact H1.
  - apply verify_checksum_compare_match in Hd.
    unfold digest in Hd. lia.
Qed.

Lemma strncasecmp_ext (n : nat) :
  forall a b b' : list ascii,
    (forall i : nat, (i < n)%nat ->
       tolower (nth i b NUL) = tolower (nth i b' NUL)) ->
    strncasecmp a b n = strncasecmp a b' n.
Proof.
  induction n as [| n IH]; intros a b b' H; [reflexivity |].
  cbn [strncasecmp].
  assert (H0 : tolower (hd NUL b) = tolower (hd NUL b')).
  { specialize (H 0%nat ltac:(lia)). destruct b, b'; exact H. }
  rewrite H0.
  rewrite (IH (tl a) (tl b) (tl b')); [reflexivity |].
  intros i Hi. specialize (H (Datatypes.S i) ltac:(lia)).
  destruct b as [| x b], b' as [| y b']; simpl in *;
    destruct i; exact H.
Qed.

Lemma verify_checksum_loop_ext (fuel : nat) :
  forall (h : flash) (sha : list Z) (addr len : Z) (cs cs' : list ascii),
    (forall s, verify_checksum_compare s cs = verify_checksum_compare s cs') ->
    verify_checksum_loop fuel h sha addr len cs
    = verify_checksum_loop fuel h sha addr len cs'.
Proof.
  induction fuel as [| fuel IH]; intros h sha addr len cs cs' H;
    rewrite !(verify_checksum_loop_eq _ h sha addr len).
  - rewrite H. reflexivity.
  - rewrite H. destruct (len =? 0); [reflexivity |]. cbv zeta.
    destruct (spi_flash_read h addr _) as [rc buf].
    destruct (negb (rc =? 0)); [reflexivity |]. apply IH. exact H.
Qed.

(** X7: [verify_checksum] looks at the first 40 characters of the expected
    digest only, and at those up to case: two expected digests that agree
    there, letter case aside, give the same result on every flash, region
    and driver behaviour. *)
Theorem verify_checksum_ignores_case (h : flash) (addr len : Z)
    (cs cs' : list ascii) :
  (forall i : nat, (i < 40)%nat ->
     tolower (nth i cs NUL) = tolower (nth i cs' NUL)) ->
  verify_checksum h addr len cs = verify_checksum h addr len cs'.
Proof.
  intros H. unfold verify_checksum. apply verify_checksum_loop_ext.
  intros s.
  destruct (verify_checksum_compare_range s cs) as [H1 | H1];
    destruct (verify_checksum_compare_range s cs') as [H2 | H2];
    rewrite H1, H2; try reflexivity; exfalso.
  - apply verify_checksum_compare_match in H1.
    rewrite (strncasecmp_ext _ _ cs cs' H) in H1.
    apply verify_checksum_compare_match in H1. lia.
  - apply verify_checksum_compare_match in H2.
    rewrite <- (strncasecmp_ext _ _ cs cs' H) in H2.
    apply verify_checksum_compare_match in H2. lia.
Qed.

End ChecksumMore.

Section EraseRounds.
Context `{P : Platform}.

Lemma prepare_flash_rounds_inv (fuel : nat) :
  forall (ctx : mgos_upd_ctx) (bytes : Z) (w : world),
    current_part ctx <> None ->
    0 <= erased_till ctx ->
    erased_till ctx mod FLASH_SECTOR_SIZE = 0 ->
    wrap32 (current_write_address ctx + bytes) + FLASH_ERASE_BLOCK_SIZE
    <= 2 ^ 32 ->
    (wrap32 (current_write_address ctx + bytes) - erased_till ctx
     + FLASH_SECTOR_SIZE - 1) / FLASH_SECTOR_SIZE <= Z.of_nat fuel ->
    exists (r : Z) (ctx' : mgos_upd_ctx) (w' : world) (t : list event),
      prepare_flash fuel ctx bytes w = Some (r, ctx', w') /\
      trace w' = trace w ++ t /\
      Z.of_nat (List.length t)
      <= Z.max 0 ((wrap32 (current_write_address ctx + bytes)
                   - erased_till ctx + FLASH_SECTOR_SIZE - 1)
                  / FLASH_SECTOR_SIZE).
Proof.
  induction fuel as [| fuel IH]; intros ctx bytes w Hcp H0 Hal Hmax Hfuel;
    simpl; unfold FLASH_SECTOR_SIZE, FLASH_ERASE_BLOCK_SIZE in *.
  - destruct (Z.gtb_spec (wrap32 (current_write_address ctx + bytes))
                (erased_till ctx)) as [Hgt | Hle].
    + exfalso. Z.div_mod_to_equations. lia.
    + exists 1, ctx, w, []. rewrite app_nil_r.
      split; [reflexivity |]. split; [reflexivity |]. simpl. lia.
  - destruct (Z.gtb_spec (wrap32 (current_write_address ctx + bytes))
                (erased_till ctx)) as [Hgt | Hle].
    + destruct (prepare_flash_erase ctx w) as [[[rc c1] w1] |] eqn:E.
      * destruct (prepare_flash_erase_aligned ctx c1 w w1 rc H0 Hal
                    ltac:(unfold FLASH_ERASE_BLOCK_SIZE; lia) E)
          as (ev & hi & T1 & _ & B1 & A1 & Hhi & Hc).
        unfold FLASH_SECTOR_SIZE, FLASH_ERASE_BLOCK_SIZE in *.
        assert (Hstep : erased_till ctx + 4096 <= hi)
          by (destruct Hhi as [-> | (cp & _ & -> & _)]; lia).
        destruct Hc as [(-> & ->) | (Hrc & ->)].
        -- simpl negb. cbv iota.
           destruct (IH (set_erased_till ctx hi) bytes w1)
             as (r & c2 & w2 & t & E2 & T2 & L2);
             [exact Hcp | simpl; lia | exact A1 | exact Hmax
             | simpl; Z.div_mod_to_equations; lia |].
           simpl in L2.
           exists r, c2, w2, (ev :: t).
           split; [exact E2 |].
           split; [rewrite T2, T1, <- app_assoc; reflexivity |].
           simpl List.length. Z.div_mod_to_equations. lia.
        -- apply Z.eqb_neq in Hrc. rewrite Hrc. simpl.
           exists (-1), ctx, w1, [ev].
           split; [reflexivity |]. split; [exact T1 |].
           simpl List.length. Z.div_mod_to_equations. lia.
      * exfalso. unfold prepare_flash_erase in E.
        destruct (current_part ctx); [| contradiction].
        repeat break_if_in E; discriminate.
    + exists 1, ctx, w, []. rewrite app_nil_r.
      split; [reflexivity |]. split; [reflexivity |]. simpl. lia.
Qed.

(** X19: from a sector-aligned [erased_till], with a current part set and
    the range to write a block short of the end of the address space,
    [prepare_flash] returns after at most one erase call per sector
    between [erased_till] and the end of the range: that many rounds of
    the loop are enough for it to return, and it makes no more device
    calls than that. *)
Theorem prepare_flash_rounds (fuel : nat) (ctx : mgos_upd_ctx) (bytes : Z)
    (w : world) :
  current_part ctx <> None ->
  0 <= erased_till ctx ->
  erased_till ctx mod FLASH_SECTOR_SIZE = 0 ->
  wrap32 (current_write_address ctx + bytes) + FLASH_ERASE_BLOCK_SIZE
  <= 2 ^ 32 ->
  let sectors :=
    (wrap32 (current_write_address ctx + bytes) - erased_till ctx
     + FLASH_SECTOR_SIZE - 1) / FLASH_SECTOR_SIZE in
  sectors <= Z.of_nat fuel ->
  exists (r : Z) (ctx' : mgos_upd_ctx) (w' : world),
    prepare_flash fuel ctx bytes w = Some (r, ctx', w') /\
    Z.of_nat (List.length (new_events w w')) <= Z.max 0 sectors.
Proof.
  intros Hcp H0 Hal Hmax sectors Hfuel.
  destruct (prepare_flash_rounds_inv fuel ctx bytes w Hcp H0 Hal Hmax Hfuel)
    as (r & ctx' & w' & t & E & T & L).
  exists r, ctx', w'. split; [exact E |].
  rewrite (new_events_app _ _ _ T). exact L.
Qed.

End EraseRounds.

Section StaleNames.
Context `{P : Platform}.

Lemma code_zero (c : ascii) : code c = 0 -> c = NUL.
Proof.
  unfold code, NUL. intros H.
  rewrite <- (ascii_nat_embedding c).
  f_equal. lia.
Qed.

Lemma strcmp_prefix (s a b : list ascii) :
  Forall (fun c => c <> NUL) s ->
  strcmp (s ++ a) (s ++ b) = strcmp a b.
Proof.
  induction 1 as [| c s Hc _ IH]; [reflexivity |].
  simpl app. cbn [strcmp]. rewrite Z.eqb_refl. simpl negb. cbv iota.
  destruct (Z.eqb_spec (code c) 0) as [Hz | _]; [| exact IH].
  exfalso. apply Hc. apply code_zero. exact Hz.
Qed.

(** X20: [fill_file_part_info] copies the [src] text over the start of the
    name buffer and writes no terminator.  On a context whose buffer held a
    longer name, what follows the copied text is the tail of the old name:
    a file named exactly as the new manifest says then does not compare
    equal to the stored name. *)
Theorem stale_name_is_not_matched (addr0 : Z) (ctx ctx' : mgos_upd_ctx)
    (t : part_token) (src : json_token) (pi : part_ref) :
  fill_file_part_info addr0 ctx (Some t) pi = Some (1, ctx') ->
  t_src t = Some src ->
  let n := Z.to_nat (tok_len src) in
  let old := fi_file_name (pi_fi (get_part ctx pi)) in
  (n <= List.length (tok_ptr src))%nat ->
  Forall (fun c => c <> NUL) (tok_text src) ->
  (exists c : ascii, old !! n = Some c /\ c <> NUL) ->
  fi_file_name (pi_fi (get_part ctx' pi)) = tok_text src ++ skipn n old /\
  strcmp (tok_text src) (fi_file_name (pi_fi (get_part ctx' pi))) <> 0.
Proof.
  intros H Hsrc n old Hlen Hnz (c & Hc & Hcn).
  destruct (memcpy_inv _ _ _ _ (fill_file_part_info_name _ _ _ _ _ _ H Hsrc))
    as (_ & ->).
  fold n. fold old. change (firstn n (tok_ptr src)) with (tok_text src).
  split; [reflexivity |].
  rewrite <- (app_nil_r (tok_text src)) at 1.
  rewrite (strcmp_prefix _ _ _ Hnz).
  assert (Hdrop : skipn n old = c :: skipn (Datatypes.S n) old).
  { apply drop_S. exact Hc. }
  rewrite Hdrop. simpl.
  intros Hz. apply Hcn. apply code_zero. lia.
Qed.

End StaleNames.

(** * The further properties at concrete inputs *)

Section MoreInstances.
Import Sim SimRun SimMore.

Lemma sim_reachable_begun : reachable (ctx_begun, w_begun).
Proof.
  apply (reachable_step (mgos_upd_ctx_create, w0)).
  - apply reachable_create.
  - apply (step_begin mgos_upd_ctx_create w0 manifest 1).
    vm_compute. reflexivity.
Defined.


Lemma mgos_upd_begin_frame_witness :
  hw w_begun = hw w0 /\
  pi_done (get_part ctx_begun FwPart)
  = pi_done (get_part mgos_upd_ctx_create FwPart).
Proof.
  destruct (mgos_upd_begin_frame mgos_upd_ctx_create ctx_begun manifest
              w0 w_begun 1 eq_refl) as (Hhw & _ & Hd & _).
  split; [exact Hhw | apply Hd].
Defined.

Lemma mgos_upd_file_begin_action_witness :
  result_world fw_started = w_begun /\
  current_part (result_ctx fw_started) = Some FwPart /\
  erased_till (result_ctx fw_started) = pi_addr (get_part ctx_begun FwPart).
Proof.
  destruct (mgos_upd_file_begin_action ctx_begun (result_ctx fw_started)
              (fw_file 0) w_begun (result_world fw_started)
              MGOS_UPDATER_PROCESS_FILE ltac:(vm_compute; reflexivity))
    as (Hw & _ & _ & _ & Hp & _).
  destruct (Hp eq_refl FwPart ltac:(vm_compute; reflexivity))
    as (Hc & _ & He & _).
  split; [exact Hw |]. split; [exact Hc | exact He].
Defined.

Lemma fresh_begin_stores_names_witness :
  matching_part ctx_begun (fs_file 0)
  = if strcmp (ufi_name (fs_file 0))
         (tok_text (mk_json_token (chars "fw.bin") 6)) =? 0
    then Some FwPart
    else if strcmp (ufi_name (fs_file 0))
              (tok_text (mk_json_token (chars "fs.bin") 6)) =? 0
         then Some FsPart
         else None.
Proof.
  apply (fresh_begin_stores_names manifest w0 w_begun ctx_begun
           fw_token fs_token).
  - vm_compute. reflexivity.
  - reflexivity.
  - reflexivity.
  - reflexivity.
  - reflexivity.
Defined.

Lemma buffers_stay_in_bounds_witness :
  buffers_ok ctx_begun /\
  mgos_upd_begin ctx_begun manifest w_begun <> None /\
  mgos_upd_begin ctx_begun manifest_cut w_begun = None.
Proof.
  destruct (buffers_stay_in_bounds (ctx_begun, w_begun) sim_reachable_begun)
    as (Hok & Hdef).
  split; [exact Hok |]. split.
  - apply (Hdef manifest). right.
    split; [| intros _];
      (intros _; split; [vm_compute; lia | intros _; vm_compute; lia]).
  - destruct (mgos_upd_begin ctx_begun manifest_cut w_begun) eqn:E;
      [| reflexivity].
    exfalso.
    assert (Hsome : mgos_upd_begin ctx_begun manifest_cut w_begun <> None)
      by (rewrite E; discriminate).
    apply (Hdef manifest_cut) in Hsome.
    destruct Hsome as [Hc | (Hc & _)]; [vm_compute in Hc; discriminate |].
    destruct (Hc ltac:(vm_compute; discriminate)) as (Hlen & _).
    vm_compute in Hlen. lia.
Defined.

Lemma slot_to_write_is_a_slot_witness :
  slot_to_write ctx_begun = 0 \/ slot_to_write ctx_begun = 1.
Proof.
  apply (slot_to_write_is_a_slot (ctx_begun, w_begun) sim_reachable_begun).
Defined.

Lemma verify_checksum_of_region_witness :
  verify_checksum (hw w_fs_present) 0x16d000 4 fs_digest_upper = Some 1.
Proof.
  apply (proj1 (verify_checksum_of_region
                  (read_cell (cells (hw w_fs_present))) (hw w_fs_present)
                  0x16d000 4 fs_digest_upper
                  ltac:(intros a n Hn; reflexivity)
                  ltac:(vm_compute; discriminate)
                  ltac:(vm_compute; discriminate)
                  ltac:(vm_compute; reflexivity))).
  vm_compute. reflexivity.
Defined.

Lemma verify_checksum_ignores_case_witness :
  verify_checksum (hw w_fs_present) 0x16d000 4 fs_digest_upper
  = verify_checksum (hw w_fs_present) 0x16d000 4 fs_digest_lower.
Proof.
  apply verify_checksum_ignores_case.
  intros i Hi. destruct i as [| [| i]]; reflexivity.
Defined.

Lemma prepare_flash_erases_span_witness :
  erase_span (erased_till (result_ctx fw_started))
    (new_events (result_world fw_started) (result_world erase_run))
  = Some (erased_till (result_ctx erase_run)).
Proof.
  apply (proj1 (proj2 (proj2
           (prepare_flash_erases_span 5 (result_ctx fw_started)
              (result_ctx erase_run) 6 1 (result_world fw_started)
              (result_world erase_run)
              ltac:(vm_compute; discriminate)
              ltac:(vm_compute; reflexivity)
              ltac:(vm_compute; discriminate)
              ltac:(vm_compute; reflexivity))))).
  reflexivity.
Defined.

Lemma prepare_flash_stays_in_part_witness :
  erased_till (result_ctx erase_run)
  <= Z.max (erased_till (result_ctx fw_started)) (sector_ceil (0x101000 + 6)).
Proof.
  apply (proj1 (prepare_flash_stays_in_part 5 (result_ctx fw_started)
                  (result_ctx erase_run) 6 1 (result_world fw_started)
                  (result_world erase_run) FwPart eq_refl
                  ltac:(vm_compute; discriminate)
                  ltac:(vm_compute; reflexivity)
                  ltac:(vm_compute; split; discriminate)
                  ltac:(vm_compute; discriminate)
                  ltac:(vm_compute; reflexivity))).
Defined.

Lemma sim_fs_data_run :
  data_run (result_ctx fs_started, result_world fs_started) (4 + 0)
    (result_ctx fs_chunk, result_world fs_chunk).
Proof.
  apply (data_run_cons 5 _ _ (fs_file 0) fs_data 4 (result_ctx fs_chunk)
           (result_world fs_chunk) 0).
  - vm_compute. reflexivity.
  - vm_compute. discriminate.
  - vm_compute. discriminate.
  - vm_compute. discriminate.
  - vm_compute. reflexivity.
  - lia.
  - apply data_run_nil.
Defined.

Lemma data_run_totals_witness :
  written_bytes (new_events (result_world fs_started) (result_world fs_chunk))
  = 4 + 0 /\
  current_write_address (result_ctx fs_chunk)
  <= erased_till (result_ctx fs_chunk).
Proof.
  pose proof (data_run_totals _ _ _ sim_fs_data_run) as H.
  cbn [fst snd] in H.
  destruct H as (_ & _ & _ & Hw & _ & _ & Hi & _).
  split; [exact Hw |]. apply Hi. right. lia.
Defined.

Lemma done_only_after_checksum_witness :
  pi_done (get_part (result_ctx fs_ended) FsPart) = 1 /\
  exists size : Z,
    verify_checksum (hw (result_world fs_chunk))
      (pi_addr (get_part (result_ctx fs_chunk) FsPart)) size
      (fi_sha1_sum (pi_fi (get_part (result_ctx fs_chunk) FsPart)))
    = Some 1.
Proof.
  assert (Hstep : step (result_ctx fs_chunk, result_world fs_chunk)
                    (result_ctx fs_ended, result_world fs_ended)).
  { apply (step_file_end _ _ (fs_file 4) [] 0). vm_compute. reflexivity. }
  destruct (done_only_after_checksum _ _ _ _ FsPart Hstep) as (_ & H).
  destruct (H ltac:(vm_compute; reflexivity) ltac:(vm_compute; discriminate))
    as (Hd & _ & Hv).
  split; [exact Hd | exact Hv].
Defined.

Lemma mgos_upd_file_data_effect_witness :
  written_bytes (new_events (result_world fs_started) (result_world fs_chunk))
  = 4 /\
  current_write_address (result_ctx fs_chunk)
  = current_write_address (result_ctx fs_started) + 4.
Proof.
  destruct (mgos_upd_file_data_effect 5 (result_ctx fs_started)
              (result_ctx fs_chunk) (fs_file 0) fs_data
              (result_world fs_started) (result_world fs_chunk) 4
              ltac:(vm_compute; reflexivity)
              ltac:(vm_compute; discriminate)
              ltac:(vm_compute; reflexivity)
              ltac:(vm_compute; reflexivity))
    as (_ & _ & _ & _ & _ & H & _).
  destruct (H ltac:(lia)) as (Hw & Ha & _).
  split; [exact Hw | exact Ha].
Defined.

Lemma status_msg_after_success_witness :
  mgos_upd_get_status_msg (result_ctx finalized')
  = Some "Failed to update file"%string.
Proof.
  apply (status_msg_after_success ctx_fw_only (result_ctx fs_started')
           (result_ctx fs_chunk') (result_ctx fs_ended')
           (result_ctx finalized') w_begun (result_world fs_started')
           (result_world fs_chunk') (result_world fs_ended')
           (result_world finalized') (fs_file 0) (fs_file 4)
           MGOS_UPDATER_PROCESS_FILE (4 + 0) []).
  - vm_compute. reflexivity.
  - apply (data_run_cons 5 _ _ (fs_file 0) fs_data 4 (result_ctx fs_chunk')
             (result_world fs_chunk') 0).
    + vm_compute. reflexivity.
    + vm_compute. discriminate.
    + vm_compute. discriminate.
    + vm_compute. discriminate.
    + vm_compute. reflexivity.
    + lia.
    + apply data_run_nil.
  - vm_compute. reflexivity.
  - vm_compute. reflexivity.
Defined.

Lemma finalize_twice_keeps_rollback_slot_witness :
  exists (w' w'' : world) (cfg' : rboot_config),
    mgos_upd_finalize ctx_done w_begun = Some (1, ctx_done, w') /\
    cfg_cache w' = Some cfg' /\
    mgos_upd_finalize ctx_done w' = Some (1, ctx_done, w'') /\
    cfg_cache w'' = Some cfg' /\
    previous_rom cfg' = current_rom cfg0 /\
    current_rom cfg' = slot_to_write ctx_done /\
    new_events w' w'' = [EvSetConfig cfg'].
Proof.
  apply (finalize_twice_keeps_rollback_slot ctx_done w_begun w_begun cfg0).
  - reflexivity.
  - vm_compute. discriminate.
  - left. vm_compute. discriminate.
  - right. reflexivity.
  - vm_compute. discriminate.
Defined.

Lemma commit_and_revert_settle_witness :
  mgos_upd_boot_commit w_committed = Some w_committed /\
  mgos_upd_boot_revert w_committed = Some w_committed.
Proof.
  apply (commit_and_revert_settle w_pending w_committed).
  left. reflexivity.
Defined.

Lemma get_fs_size_after_finalize_witness :
  get_fs_size 257 w_pending
  = (Some (fi_size (pi_fi (fs_part ctx_done))), w_pending) /\
  get_fs_size 256 w_pending = (fs_sizes cfg0 !! 0%nat, w_pending).
Proof.
  destruct (get_fs_size_after_finalize ctx_done w_begun w_begun w_pending
              cfg0 eq_refl ltac:(right; reflexivity)
              ltac:(vm_compute; discriminate)
              ltac:(vm_compute; lia) eq_refl) as (H1 & H2).
  split; [apply H1; reflexivity |].
  apply (H2 256). vm_compute. discriminate.
Defined.

Lemma apply_update_mounts_previous_slot_witness :
  exists (r : Z) (w'' : world) (calls : list fs_event),
    mgos_upd_apply_update w_pending = Some (r, w'', calls) /\
    calls = [EvMount 0x6d000 0x10000; EvMerge; EvUnmount].
Proof.
  destruct (apply_update_mounts_previous_slot ctx_done w_begun w_begun
              w_pending cfg0 0x6d000 0x10000 eq_refl
              ltac:(right; reflexivity) ltac:(vm_compute; discriminate)
              ltac:(vm_compute; discriminate) eq_refl eq_refl eq_refl)
    as (r & w'' & calls & Ha & _ & _ & [(Hm & _) | (_ & Hc & _)]).
  - exfalso. apply Hm. reflexivity.
  - exists r, w'', calls. split; [exact Ha | exact Hc].
Defined.

Lemma prepare_flash_rounds_witness :
  let ctx := result_ctx fw_started in
  let sectors :=
    (wrap32 (current_write_address ctx + 6) - erased_till ctx
     + FLASH_SECTOR_SIZE - 1) / FLASH_SECTOR_SIZE in
  exists (r : Z) (ctx' : mgos_upd_ctx) (w' : world),
    prepare_flash 1 ctx 6 (result_world fw_started) = Some (r, ctx', w') /\
    Z.of_nat (List.length (new_events (result_world fw_started) w'))
    <= Z.max 0 sectors.
Proof.
  apply (prepare_flash_rounds 1 (result_ctx fw_started) 6
           (result_world fw_started)).
  - vm_compute. discriminate.
  - vm_compute. discriminate.
  - vm_compute. reflexivity.
  - vm_compute. discriminate.
  - vm_compute. discriminate.
Defined.

Lemma stale_name_is_not_matched_witness :
  strcmp (chars "fw") (fi_file_name (pi_fi (get_part ctx_refilled FwPart)))
  <> 0.
Proof.
  apply (stale_name_is_not_matched 0 ctx_begun ctx_refilled short_fw
           (mk_json_token (chars "fw") 2) FwPart).
  - vm_compute. reflexivity.
  - reflexivity.
  - vm_compute. lia.
  - repeat constructor; discriminate.
  - exists "."%char. split; [reflexivity | discriminate].
Defined.

End MoreInstances.
